(** * Payment flow builder and account limits checker

    A shallow embedding of
    - [src/domain/payments/payment-flow-builder.ts] (the staged
      [LightningPaymentFlowBuilder]) and
    - [src/domain/accounts/new-limits-checker.ts] (the [AccountLimitsChecker]
      and [TwoFALimitsChecker]),
    followed by the properties of the design document that are stated about
    them.

    Conventions.  A TypeScript [bigint] is a [Z]; a [number] is an IEEE-754
    double, i.e. a primitive [float]; an optional key ([k?: T], or a value that
    may be [undefined] / [null]) is an [option]; a union [T | Error] is a sum
    [T + ApplicationError] and [x instanceof Error] is the match on it.  A
    builder stage is a closure over its state, so a stage object is modelled by
    a constructor of [Builder] carrying that state, and a method call on the
    union of stage objects dispatches on the constructor. *)

From Stdlib Require Import ZArith String List Bool Lia DecimalString.
From Stdlib Require Import PrimFloat Uint63 FloatOps.
From stdpp Require Import gmap strings.
Import ListNotations.

Local Open Scope string_scope.
Local Open Scope Z_scope.

(** ** Shared domain values *)

Module WalletCurrency.
Inductive t : Type := Btc | Usd.

Definition eqb (a b : t) : bool :=
  match a, b with
  | Btc, Btc | Usd, Usd => true
  | _, _ => false
  end.
End WalletCurrency.

Module SettlementMethod.
Inductive t : Type := IntraLedger | Lightning.

Definition eqb (a b : t) : bool :=
  match a, b with
  | IntraLedger, IntraLedger | Lightning, Lightning => true
  | _, _ => false
  end.
End SettlementMethod.

Module PaymentInitiationMethod.
Inductive t : Type := IntraLedger | Lightning.
End PaymentInitiationMethod.

Definition Pubkey := string.
Definition PaymentHash := string.
Definition IntraLedgerHash := string.
Definition WalletId := string.
Definition AccountId := string.
Definition UserId := string.
Definition Username := string.

(** A JavaScript [number]. *)
Definition number := float.

(** [!!x] for a [number]: false exactly for [+0], [-0] and [NaN]. *)
Definition Number_toBoolean (x : number) : bool :=
  negb (PrimFloat.eqb x 0%float || negb (PrimFloat.eqb x x)).

(** [!!x] for a [bigint]: false exactly for [0n]. *)
Definition BigInt_toBoolean (x : Z) : bool := negb (x =? 0).

(** [!!x] for a string: false exactly for the empty string. *)
Definition String_toBoolean (x : string) : bool :=
  match x with
  | EmptyString => false
  | String _ _ => true
  end.

(** [!!x] for an optional value whose defined inhabitants are decided by
    [truthy] ([undefined] is falsy). *)
Definition optional_toBoolean {A} (truthy : A -> bool) (x : option A) : bool :=
  match x with
  | Some v => truthy v
  | None => false
  end.

(** Objects are always truthy, so for an optional object [!!x] is presence. *)
Definition isDefined {A} (x : option A) : bool :=
  match x with
  | Some _ => true
  | None => false
  end.

(** [`${n}`] for a [bigint]: its decimal representation. *)
Definition BigInt_toString (n : Z) : string :=
  NilZero.string_of_int (Z.to_int n).

Record PaymentAmount : Type := {
  amount : Z;
  currency : WalletCurrency.t;
}.
Definition BtcPaymentAmount := PaymentAmount.
Definition UsdPaymentAmount := PaymentAmount.

Inductive ApplicationError : Type :=
| ValidationError (name : string)
| SelfPaymentError
| DealerPriceServiceError (name : string)
| InvalidLightningPaymentFlowBuilderStateError (message : string)
| InvalidLightningPaymentFlowStateError
| IntraledgerLimitsExceededError (message : string)
| WithdrawalLimitsExceededError (message : string)
| TwoFALimitsExceededError.

(** The object [PriceRatio({usd, btc})] returns when it succeeds
    ([./price-ratio], imported): only its interface is used.  The limits
    checker tests the result of [convertFromBtc] with [instanceof Error], so
    that method may answer with an error. *)
Record PriceRatio : Type := {
  convertFromBtc : BtcPaymentAmount -> UsdPaymentAmount + ApplicationError;
  convertFromUsd : UsdPaymentAmount -> BtcPaymentAmount;
  convertFromBtcToCeil : BtcPaymentAmount -> UsdPaymentAmount;
}.

(** The completion of a synchronous call: it returns a value or throws. *)
Inductive Completion (A : Type) : Type :=
| Normal (value : A)
| Throw (message : string).
Arguments Normal {A} value.
Arguments Throw {A} message.

(** ** Promises

    A promise is either already resolved or waits for the outside world (here:
    the dealer price service) to answer a request; [await] is [Promise_then].
    The promises of this code never reject: a failure is a resolved error
    value. *)

Section Promise.
Context {IoRequest IoResponse : Type}.

Inductive Promise (A : Type) : Type :=
| Resolved (value : A)
| Pending (request : IoRequest) (resume : IoResponse -> Promise A).
Arguments Resolved {A} value.
Arguments Pending {A} request resume.

Fixpoint Promise_then {A B} (p : Promise A) (k : A -> Promise B) : Promise B :=
  match p with
  | Resolved v => k v
  | Pending q resume => Pending q (fun r => Promise_then (resume r) k)
  end.

(** The value a promise settles to when the outside world answers every
    request through [world]. *)
Fixpoint settle {A} (world : IoRequest -> IoResponse) (p : Promise A) : A :=
  match p with
  | Resolved v => v
  | Pending q resume => settle world (resume (world q))
  end.

(** Number of suspensions met on the way. *)
Fixpoint suspensions {A} (world : IoRequest -> IoResponse) (p : Promise A) : nat :=
  match p with
  | Resolved _ => O
  | Pending q resume => S (suspensions world (resume (world q)))
  end.
End Promise.

Arguments Promise : clear implicits.
Arguments Resolved {IoRequest IoResponse A} value.
Arguments Pending {IoRequest IoResponse A} request resume.

Notation "'await' x <- p ;; k" := (Promise_then p (fun x => k))
  (at level 10, x name, p at level 99, k at level 200).

(** ** Arguments of the builder's operations *)

Module LnInvoice.
Record t : Type := {
  destination : option Pubkey;
  paymentHash : PaymentHash;
  paymentAmount : option BtcPaymentAmount;
  description : string;
  paymentRequest : string;
}.
End LnInvoice.

Module WalletDescriptor.
Record t : Type := {
  id : WalletId;
  currency : WalletCurrency.t;
  accountId : AccountId;
}.
End WalletDescriptor.

(** The argument of [withRecipientWallet]:
    [WalletDescriptor<R> & { userId, pubkey?, usdPaymentAmount?, username? }]. *)
Module RecipientWallet.
Record t : Type := {
  id : WalletId;
  currency : WalletCurrency.t;
  pubkey : option Pubkey;
  usdPaymentAmount : option UsdPaymentAmount;
  username : option Username;
  accountId : AccountId;
  userId : UserId;
}.
End RecipientWallet.

Record LightningPaymentFlowBuilderConfig : Type := {
  localNodeIds : list Pubkey;
  flaggedPubkeys : list Pubkey;
}.

Record IntraLedgerFees : Type := {
  btc : BtcPaymentAmount;
  usd : UsdPaymentAmount;
}.

(** [Date] values, as milliseconds since the epoch. *)
Definition Date := Z.

(** [Array.prototype.includes] on an array of strings. *)
Definition Array_includes (xs : list string) (x : string) : bool :=
  existsb (String.eqb x) xs.

Module PaymentFlowBuilder.
Section Builder.
Context {RawRoute IoRequest IoResponse Entropy : Type}.

Local Abbreviation Promise' := (Promise IoRequest IoResponse).

(** A rate source of the dealer price service ([mid], [hedgeBuyUsd],
    [hedgeSellUsd]). *)
Record RateSource : Type := {
  usdFromBtc : BtcPaymentAmount -> Promise' (UsdPaymentAmount + ApplicationError);
  btcFromUsd : UsdPaymentAmount -> Promise' (BtcPaymentAmount + ApplicationError);
}.

Record WithConversionArgs : Type := {
  hedgeBuyUsd : RateSource;
  hedgeSellUsd : RateSource;
  mid : RateSource;
}.

(** The object [LnFees()] returns ([./ln-fees], imported). *)
Record LnFeesT : Type := {
  intraLedgerFees : IntraLedgerFees;
  maxProtocolAndBankFee : PaymentAmount -> PaymentAmount;
  feeFromRawRoute : RawRoute -> BtcPaymentAmount + ApplicationError;
}.

(** The functions the module imports from the rest of the repository.  The
    builder is verified for every implementation of them.
    [generateIntraLedgerHash] draws on the random generator, whose output is
    made an argument. *)
Class Imports : Type := {
  checkedToBtcPaymentAmount : number -> BtcPaymentAmount + ApplicationError;
  checkedToUsdPaymentAmount : number -> UsdPaymentAmount + ApplicationError;
  generateIntraLedgerHash : Entropy -> IntraLedgerHash;
  parseFinalHopsFromInvoice : LnInvoice.t -> list Pubkey;
  LnFees : LnFeesT;
  PriceRatio_from : UsdPaymentAmount -> BtcPaymentAmount -> PriceRatio + ApplicationError;
}.
Context `{Imports}.

(** *** Stage states

    One record per TypeScript state type; the prefix of a field names the
    stage ([wi]: with invoice, [ws]: with sender wallet, [wr]: with recipient
    wallet, [wc]: with conversion, [rt]: with route, [pf]: payment flow). *)

Record LPFBWithInvoiceState : Type := {
  wi_localNodeIds : list Pubkey;
  wi_flaggedPubkeys : list Pubkey;
  wi_settlementMethod : SettlementMethod.t;
  wi_btcProtocolAndBankFee : option BtcPaymentAmount;
  wi_usdProtocolAndBankFee : option UsdPaymentAmount;
  wi_paymentInitiationMethod : PaymentInitiationMethod.t;
  wi_paymentHash : option PaymentHash;
  wi_intraLedgerHash : option IntraLedgerHash;
  wi_btcPaymentAmount : option BtcPaymentAmount;
  wi_inputAmount : option Z;
  wi_uncheckedAmount : option number;
  wi_descriptionFromInvoice : string;
  wi_skipProbeForDestination : bool;
}.

Record LPFBWithSenderWalletState : Type := {
  ws_localNodeIds : list Pubkey;
  ws_flaggedPubkeys : list Pubkey;
  ws_settlementMethod : SettlementMethod.t;
  ws_btcProtocolAndBankFee : option BtcPaymentAmount;
  ws_usdProtocolAndBankFee : option UsdPaymentAmount;
  ws_paymentInitiationMethod : PaymentInitiationMethod.t;
  ws_paymentHash : option PaymentHash;
  ws_intraLedgerHash : option IntraLedgerHash;
  ws_btcPaymentAmount : option BtcPaymentAmount;
  ws_usdPaymentAmount : option UsdPaymentAmount;
  ws_inputAmount : Z;
  ws_uncheckedAmount : option number;
  ws_descriptionFromInvoice : string;
  ws_skipProbeForDestination : bool;
  ws_senderWalletId : WalletId;
  ws_senderWalletCurrency : WalletCurrency.t;
  ws_senderAccountId : AccountId;
}.

Record LPFBWithRecipientWalletState : Type := {
  wr_localNodeIds : list Pubkey;
  wr_flaggedPubkeys : list Pubkey;
  wr_settlementMethod : SettlementMethod.t;
  wr_btcProtocolAndBankFee : option BtcPaymentAmount;
  wr_usdProtocolAndBankFee : option UsdPaymentAmount;
  wr_paymentInitiationMethod : PaymentInitiationMethod.t;
  wr_paymentHash : option PaymentHash;
  wr_intraLedgerHash : option IntraLedgerHash;
  wr_btcPaymentAmount : option BtcPaymentAmount;
  wr_usdPaymentAmount : option UsdPaymentAmount;
  wr_inputAmount : Z;
  wr_uncheckedAmount : option number;
  wr_descriptionFromInvoice : string;
  wr_skipProbeForDestination : bool;
  wr_senderWalletId : WalletId;
  wr_senderWalletCurrency : WalletCurrency.t;
  wr_senderAccountId : AccountId;
  wr_recipientWalletId : option WalletId;
  wr_recipientWalletCurrency : option WalletCurrency.t;
  wr_recipientPubkey : option Pubkey;
  wr_recipientAccountId : option AccountId;
  wr_recipientUsername : option Username;
  wr_recipientUserId : option UserId;
}.

Record LPFBWithConversionState : Type := {
  wc_localNodeIds : list Pubkey;
  wc_flaggedPubkeys : list Pubkey;
  wc_settlementMethod : SettlementMethod.t;
  wc_btcProtocolAndBankFee : BtcPaymentAmount;
  wc_usdProtocolAndBankFee : UsdPaymentAmount;
  wc_paymentInitiationMethod : PaymentInitiationMethod.t;
  wc_paymentHash : option PaymentHash;
  wc_intraLedgerHash : option IntraLedgerHash;
  wc_btcPaymentAmount : BtcPaymentAmount;
  wc_usdPaymentAmount : UsdPaymentAmount;
  wc_inputAmount : Z;
  wc_uncheckedAmount : option number;
  wc_descriptionFromInvoice : string;
  wc_skipProbeForDestination : bool;
  wc_senderWalletId : WalletId;
  wc_senderWalletCurrency : WalletCurrency.t;
  wc_senderAccountId : AccountId;
  wc_recipientWalletId : option WalletId;
  wc_recipientWalletCurrency : option WalletCurrency.t;
  wc_recipientPubkey : option Pubkey;
  wc_recipientAccountId : option AccountId;
  wc_recipientUsername : option Username;
  wc_recipientUserId : option UserId;
  wc_createdAt : Date;
}.

Record LPFBWithRouteState : Type := {
  rt_localNodeIds : list Pubkey;
  rt_flaggedPubkeys : list Pubkey;
  rt_settlementMethod : SettlementMethod.t;
  rt_btcProtocolAndBankFee : BtcPaymentAmount;
  rt_usdProtocolAndBankFee : UsdPaymentAmount;
  rt_paymentInitiationMethod : PaymentInitiationMethod.t;
  rt_paymentHash : option PaymentHash;
  rt_intraLedgerHash : option IntraLedgerHash;
  rt_btcPaymentAmount : BtcPaymentAmount;
  rt_usdPaymentAmount : UsdPaymentAmount;
  rt_inputAmount : Z;
  rt_uncheckedAmount : option number;
  rt_descriptionFromInvoice : string;
  rt_skipProbeForDestination : bool;
  rt_senderWalletId : WalletId;
  rt_senderWalletCurrency : WalletCurrency.t;
  rt_senderAccountId : AccountId;
  rt_recipientWalletId : option WalletId;
  rt_recipientWalletCurrency : option WalletCurrency.t;
  rt_recipientPubkey : option Pubkey;
  rt_recipientAccountId : option AccountId;
  rt_recipientUsername : option Username;
  rt_recipientUserId : option UserId;
  rt_createdAt : Date;
  rt_outgoingNodePubkey : option Pubkey;
  rt_checkedRoute : option RawRoute;
}.

(** Modelled from the spec: [PaymentFlow] ([./payment-flow]) is imported; a
    payment flow is the record of the state it is built from, with the
    [paymentSentAndPending] flag.  The record below has the keys
    [paymentFromState] passes to [PaymentFlow(...)]. *)
Record PaymentFlow : Type := {
  pf_paymentHash : option PaymentHash;
  pf_intraLedgerHash : option IntraLedgerHash;
  pf_senderWalletId : WalletId;
  pf_senderWalletCurrency : WalletCurrency.t;
  pf_senderAccountId : AccountId;
  pf_recipientWalletId : option WalletId;
  pf_recipientWalletCurrency : option WalletCurrency.t;
  pf_recipientAccountId : option AccountId;
  pf_recipientPubkey : option Pubkey;
  pf_recipientUsername : option Username;
  pf_recipientUserId : option UserId;
  pf_descriptionFromInvoice : string;
  pf_skipProbeForDestination : bool;
  pf_btcPaymentAmount : BtcPaymentAmount;
  pf_usdPaymentAmount : UsdPaymentAmount;
  pf_inputAmount : Z;
  pf_createdAt : Date;
  pf_paymentSentAndPending : bool;
  pf_settlementMethod : SettlementMethod.t;
  pf_paymentInitiationMethod : PaymentInitiationMethod.t;
  pf_btcProtocolAndBankFee : BtcPaymentAmount;
  pf_usdProtocolAndBankFee : UsdPaymentAmount;
  pf_outgoingNodePubkey : option Pubkey;
  pf_cachedRoute : option RawRoute;
}.

(** *** Stage objects *)

Inductive Builder : Type :=
| LPFBWithInvoice (state : LPFBWithInvoiceState)
| LPFBWithSenderWallet (state : LPFBWithSenderWalletState)
| LPFBWithRecipientWallet (state : LPFBWithRecipientWalletState)
| LPFBWithConversion
    (statePromise : Promise' (LPFBWithConversionState + ApplicationError))
| LPFBWithError (error : ApplicationError).

(** *** [LightningPaymentFlowBuilder(config)] *)

Record SettlementResolution : Type := {
  settlementMethod : SettlementMethod.t;
  btcProtocolAndBankFee : option BtcPaymentAmount;
  usdProtocolAndBankFee : option UsdPaymentAmount;
}.

Definition settlementMethodFromDestination
    (config : LightningPaymentFlowBuilderConfig)
    (destination : option Pubkey) : SettlementResolution :=
  let settlementMethod :=
    match destination with
    | None => SettlementMethod.IntraLedger
    | Some destination =>
        if Array_includes (localNodeIds config) destination
        then SettlementMethod.IntraLedger
        else SettlementMethod.Lightning
    end in
  {| settlementMethod := settlementMethod;
     btcProtocolAndBankFee :=
       if SettlementMethod.eqb settlementMethod SettlementMethod.IntraLedger
       then Some (btc (intraLedgerFees LnFees))
       else None;
     usdProtocolAndBankFee :=
       if SettlementMethod.eqb settlementMethod SettlementMethod.IntraLedger
       then Some (usd (intraLedgerFees LnFees))
       else None |}.

(** Modelled from the spec: [ModifiedSet] ([@utils]) is imported; the probe
    is skipped iff the set of pubkeys along the invoice's final routing hops
    and the set of flagged pubkeys have a non-empty intersection. *)
Definition skipProbeFromInvoice
    (config : LightningPaymentFlowBuilderConfig) (invoice : LnInvoice.t) : bool :=
  let invoicePubkeySet : gset string :=
    list_to_set (parseFinalHopsFromInvoice invoice) in
  let flaggedPubkeySet : gset string := list_to_set (flaggedPubkeys config) in
  bool_decide (0 < size (invoicePubkeySet ∩ flaggedPubkeySet))%nat.

Definition withInvoice
    (config : LightningPaymentFlowBuilderConfig) (invoice : LnInvoice.t) : Builder :=
  match LnInvoice.paymentAmount invoice with
  | None =>
      LPFBWithError
        (InvalidLightningPaymentFlowBuilderStateError
           "withInvoice - paymentAmount missing")
  | Some paymentAmount =>
      let resolution :=
        settlementMethodFromDestination config (LnInvoice.destination invoice) in
      LPFBWithInvoice
        {| wi_localNodeIds := localNodeIds config;
           wi_flaggedPubkeys := flaggedPubkeys config;
           wi_settlementMethod := settlementMethod resolution;
           wi_btcProtocolAndBankFee := btcProtocolAndBankFee resolution;
           wi_usdProtocolAndBankFee := usdProtocolAndBankFee resolution;
           wi_paymentInitiationMethod := PaymentInitiationMethod.Lightning;
           wi_paymentHash := Some (LnInvoice.paymentHash invoice);
           wi_intraLedgerHash := None;
           wi_btcPaymentAmount := Some paymentAmount;
           wi_inputAmount := Some (amount paymentAmount);
           wi_uncheckedAmount := None;
           wi_descriptionFromInvoice := LnInvoice.description invoice;
           wi_skipProbeForDestination := skipProbeFromInvoice config invoice |}
  end.

Definition withNoAmountInvoice
    (config : LightningPaymentFlowBuilderConfig)
    (invoice : LnInvoice.t) (uncheckedAmount : number) : Builder :=
  let resolution :=
    settlementMethodFromDestination config (LnInvoice.destination invoice) in
  LPFBWithInvoice
    {| wi_localNodeIds := localNodeIds config;
       wi_flaggedPubkeys := flaggedPubkeys config;
       wi_settlementMethod := settlementMethod resolution;
       wi_btcProtocolAndBankFee := btcProtocolAndBankFee resolution;
       wi_usdProtocolAndBankFee := usdProtocolAndBankFee resolution;
       wi_paymentInitiationMethod := PaymentInitiationMethod.Lightning;
       wi_paymentHash := Some (LnInvoice.paymentHash invoice);
       wi_intraLedgerHash := None;
       wi_btcPaymentAmount := None;
       wi_inputAmount := None;
       wi_uncheckedAmount := Some uncheckedAmount;
       wi_descriptionFromInvoice := LnInvoice.description invoice;
       wi_skipProbeForDestination := skipProbeFromInvoice config invoice |}.

Definition withoutInvoice
    (config : LightningPaymentFlowBuilderConfig)
    (uncheckedAmount : number) (description : string)
    (entropy : Entropy) : Builder :=
  let resolution := settlementMethodFromDestination config None in
  LPFBWithInvoice
    {| wi_localNodeIds := localNodeIds config;
       wi_flaggedPubkeys := flaggedPubkeys config;
       wi_settlementMethod := settlementMethod resolution;
       wi_btcProtocolAndBankFee := btcProtocolAndBankFee resolution;
       wi_usdProtocolAndBankFee := usdProtocolAndBankFee resolution;
       wi_paymentInitiationMethod := PaymentInitiationMethod.IntraLedger;
       wi_paymentHash := None;
       wi_intraLedgerHash := Some (generateIntraLedgerHash entropy);
       wi_btcPaymentAmount := None;
       wi_inputAmount := None;
       wi_uncheckedAmount := Some uncheckedAmount;
       wi_descriptionFromInvoice := description;
       wi_skipProbeForDestination := false |}.

(** *** [LPFBWithInvoice(state)] *)

(** [{ ...state, senderWalletId, senderWalletCurrency, senderAccountId,
       btcPaymentAmount?, usdPaymentAmount?, inputAmount,
       btcProtocolAndBankFee?, usdProtocolAndBankFee? }]:
    the three objects [withSenderWallet] hands to [LPFBWithSenderWallet] differ
    only in the keys written after the spread. *)
Definition spreadSenderWallet
    (state : LPFBWithInvoiceState) (senderWallet : WalletDescriptor.t)
    (btcPaymentAmount : option BtcPaymentAmount)
    (usdPaymentAmount : option UsdPaymentAmount)
    (inputAmount : Z)
    (btcFee : option BtcPaymentAmount) (usdFee : option UsdPaymentAmount)
    : LPFBWithSenderWalletState :=
  {| ws_localNodeIds := wi_localNodeIds state;
     ws_flaggedPubkeys := wi_flaggedPubkeys state;
     ws_settlementMethod := wi_settlementMethod state;
     ws_btcProtocolAndBankFee := btcFee;
     ws_usdProtocolAndBankFee := usdFee;
     ws_paymentInitiationMethod := wi_paymentInitiationMethod state;
     ws_paymentHash := wi_paymentHash state;
     ws_intraLedgerHash := wi_intraLedgerHash state;
     ws_btcPaymentAmount := btcPaymentAmount;
     ws_usdPaymentAmount := usdPaymentAmount;
     ws_inputAmount := inputAmount;
     ws_uncheckedAmount := wi_uncheckedAmount state;
     ws_descriptionFromInvoice := wi_descriptionFromInvoice state;
     ws_skipProbeForDestination := wi_skipProbeForDestination state;
     ws_senderWalletId := WalletDescriptor.id senderWallet;
     ws_senderWalletCurrency := WalletDescriptor.currency senderWallet;
     ws_senderAccountId := WalletDescriptor.accountId senderWallet |}.

(** [fee || LnFees().maxProtocolAndBankFee(paymentAmount)]. *)
Definition feeOrMax (fee : option PaymentAmount) (paymentAmount : PaymentAmount)
    : PaymentAmount :=
  match fee with
  | Some fee => fee
  | None => maxProtocolAndBankFee LnFees paymentAmount
  end.

Definition LPFBWithInvoice_withSenderWallet
    (state : LPFBWithInvoiceState) (senderWallet : WalletDescriptor.t)
    : Completion Builder :=
  let senderWalletCurrency := WalletDescriptor.currency senderWallet in
  match wi_uncheckedAmount state with
  | Some uncheckedAmount =>
      match senderWalletCurrency with
      | WalletCurrency.Btc =>
          match checkedToBtcPaymentAmount uncheckedAmount with
          | inr validationError => Normal (LPFBWithError validationError)
          | inl paymentAmount =>
              Normal (LPFBWithSenderWallet
                (spreadSenderWallet state senderWallet
                   (Some paymentAmount) None (amount paymentAmount)
                   (Some (feeOrMax (wi_btcProtocolAndBankFee state) paymentAmount))
                   (wi_usdProtocolAndBankFee state)))
          end
      | WalletCurrency.Usd =>
          match checkedToUsdPaymentAmount uncheckedAmount with
          | inr validationError => Normal (LPFBWithError validationError)
          | inl paymentAmount =>
              Normal (LPFBWithSenderWallet
                (spreadSenderWallet state senderWallet
                   (wi_btcPaymentAmount state) (Some paymentAmount)
                   (amount paymentAmount)
                   (wi_btcProtocolAndBankFee state)
                   (Some (feeOrMax (wi_usdProtocolAndBankFee state) paymentAmount))))
          end
      end
  | None =>
      match wi_inputAmount state, wi_btcPaymentAmount state with
      | Some inputAmount, Some btcPaymentAmount =>
          if BigInt_toBoolean inputAmount
          then
            Normal (LPFBWithSenderWallet
              (spreadSenderWallet state senderWallet
                 (Some btcPaymentAmount) None inputAmount
                 (Some (feeOrMax (wi_btcProtocolAndBankFee state) btcPaymentAmount))
                 (wi_usdProtocolAndBankFee state)))
          else Throw "withSenderWallet impossible"
      | _, _ => Throw "withSenderWallet impossible"
      end
  end.

(** *** [LPFBWithSenderWallet(state)] *)

(** [{ ...state, recipientWalletId, recipientWalletCurrency, recipientPubkey,
       recipientAccountId, recipientUsername, recipientUserId,
       usdPaymentAmount }]. *)
Definition spreadRecipientWallet
    (state : LPFBWithSenderWalletState)
    (recipientWalletId : option WalletId)
    (recipientWalletCurrency : option WalletCurrency.t)
    (recipientPubkey : option Pubkey)
    (recipientAccountId : option AccountId)
    (recipientUsername : option Username)
    (recipientUserId : option UserId)
    (usdPaymentAmount : option UsdPaymentAmount)
    : LPFBWithRecipientWalletState :=
  {| wr_localNodeIds := ws_localNodeIds state;
     wr_flaggedPubkeys := ws_flaggedPubkeys state;
     wr_settlementMethod := ws_settlementMethod state;
     wr_btcProtocolAndBankFee := ws_btcProtocolAndBankFee state;
     wr_usdProtocolAndBankFee := ws_usdProtocolAndBankFee state;
     wr_paymentInitiationMethod := ws_paymentInitiationMethod state;
     wr_paymentHash := ws_paymentHash state;
     wr_intraLedgerHash := ws_intraLedgerHash state;
     wr_btcPaymentAmount := ws_btcPaymentAmount state;
     wr_usdPaymentAmount := usdPaymentAmount;
     wr_inputAmount := ws_inputAmount state;
     wr_uncheckedAmount := ws_uncheckedAmount state;
     wr_descriptionFromInvoice := ws_descriptionFromInvoice state;
     wr_skipProbeForDestination := ws_skipProbeForDestination state;
     wr_senderWalletId := ws_senderWalletId state;
     wr_senderWalletCurrency := ws_senderWalletCurrency state;
     wr_senderAccountId := ws_senderAccountId state;
     wr_recipientWalletId := recipientWalletId;
     wr_recipientWalletCurrency := recipientWalletCurrency;
     wr_recipientPubkey := recipientPubkey;
     wr_recipientAccountId := recipientAccountId;
     wr_recipientUsername := recipientUsername;
     wr_recipientUserId := recipientUserId |}.

Definition LPFBWithSenderWallet_withoutRecipientWallet
    (state : LPFBWithSenderWalletState) : Builder :=
  if SettlementMethod.eqb (ws_settlementMethod state) SettlementMethod.IntraLedger
  then
    LPFBWithError
      (InvalidLightningPaymentFlowBuilderStateError
         "withoutRecipientWallet called but settlementMethod is IntraLedger")
  else
    LPFBWithRecipientWallet
      (spreadRecipientWallet state None None None None None None
         (ws_usdPaymentAmount state)).

(** [a || b] on two optional objects. *)
Definition orElse {A} (a b : option A) : option A :=
  match a with
  | Some _ => a
  | None => b
  end.

Definition LPFBWithSenderWallet_withRecipientWallet
    (state : LPFBWithSenderWalletState) (recipient : RecipientWallet.t) : Builder :=
  let recipientWalletId := RecipientWallet.id recipient in
  let recipientWalletCurrency := RecipientWallet.currency recipient in
  let usdPaymentAmount := RecipientWallet.usdPaymentAmount recipient in
  if String.eqb recipientWalletId (ws_senderWalletId state)
  then LPFBWithError SelfPaymentError
  else if
    WalletCurrency.eqb recipientWalletCurrency WalletCurrency.Usd &&
    Bool.eqb (isDefined usdPaymentAmount)
             (optional_toBoolean Number_toBoolean (ws_uncheckedAmount state))
  then
    LPFBWithError
      (InvalidLightningPaymentFlowBuilderStateError
         "withRecipientWallet incorrect combination of usdPaymentAmount and uncheckedAmount")
  else
    LPFBWithRecipientWallet
      (spreadRecipientWallet state
         (Some recipientWalletId)
         (Some recipientWalletCurrency)
         (RecipientWallet.pubkey recipient)
         (Some (RecipientWallet.accountId recipient))
         (RecipientWallet.username recipient)
         (Some (RecipientWallet.userId recipient))
         (orElse usdPaymentAmount (ws_usdPaymentAmount state))).

Definition LPFBWithSenderWallet_isIntraLedger
    (state : LPFBWithSenderWalletState) : bool :=
  SettlementMethod.eqb (ws_settlementMethod state) SettlementMethod.IntraLedger.

(** *** [LPFBWithRecipientWallet(state)] *)

(** [{ ...stateWithCreatedAt, btcPaymentAmount, usdPaymentAmount,
       btcProtocolAndBankFee, usdProtocolAndBankFee }] where
    [stateWithCreatedAt = { ...state, createdAt }]: the object every successful
    path of [withConversion] resolves to. *)
Definition spreadConversion
    (state : LPFBWithRecipientWalletState) (createdAt : Date)
    (btcPaymentAmount : BtcPaymentAmount) (usdPaymentAmount : UsdPaymentAmount)
    (btcFee : BtcPaymentAmount) (usdFee : UsdPaymentAmount)
    : LPFBWithConversionState :=
  {| wc_localNodeIds := wr_localNodeIds state;
     wc_flaggedPubkeys := wr_flaggedPubkeys state;
     wc_settlementMethod := wr_settlementMethod state;
     wc_btcProtocolAndBankFee := btcFee;
     wc_usdProtocolAndBankFee := usdFee;
     wc_paymentInitiationMethod := wr_paymentInitiationMethod state;
     wc_paymentHash := wr_paymentHash state;
     wc_intraLedgerHash := wr_intraLedgerHash state;
     wc_btcPaymentAmount := btcPaymentAmount;
     wc_usdPaymentAmount := usdPaymentAmount;
     wc_inputAmount := wr_inputAmount state;
     wc_uncheckedAmount := wr_uncheckedAmount state;
     wc_descriptionFromInvoice := wr_descriptionFromInvoice state;
     wc_skipProbeForDestination := wr_skipProbeForDestination state;
     wc_senderWalletId := wr_senderWalletId state;
     wc_senderWalletCurrency := wr_senderWalletCurrency state;
     wc_senderAccountId := wr_senderAccountId state;
     wc_recipientWalletId := wr_recipientWalletId state;
     wc_recipientWalletCurrency := wr_recipientWalletCurrency state;
     wc_recipientPubkey := wr_recipientPubkey state;
     wc_recipientAccountId := wr_recipientAccountId state;
     wc_recipientUsername := wr_recipientUsername state;
     wc_recipientUserId := wr_recipientUserId state;
     wc_createdAt := createdAt |}.

(** Both [updatedStateFromBtcPaymentAmount] closures of [withConversion]; they
    differ in the rate function only. *)
Definition updatedStateFromBtcPaymentAmount
    (state : LPFBWithRecipientWalletState) (createdAt : Date)
    (usdFromBtc : BtcPaymentAmount -> Promise' (UsdPaymentAmount + ApplicationError))
    (btcProtocolAndBankFee : BtcPaymentAmount)
    (btcPaymentAmount : BtcPaymentAmount)
    : Promise' (LPFBWithConversionState + ApplicationError) :=
  await convertedAmount <- usdFromBtc btcPaymentAmount ;;
  match convertedAmount with
  | inr error => Resolved (inr error)
  | inl convertedAmount =>
      match PriceRatio_from convertedAmount btcPaymentAmount with
      | inr error => Resolved (inr error)
      | inl priceRatio =>
          let usdProtocolAndBankFee :=
            convertFromBtcToCeil priceRatio btcProtocolAndBankFee in
          Resolved (inl (spreadConversion state createdAt
                           btcPaymentAmount convertedAmount
                           btcProtocolAndBankFee usdProtocolAndBankFee))
      end
  end.

(** Both [updatedStateFromUsdPaymentAmount] closures of [withConversion]. *)
Definition updatedStateFromUsdPaymentAmount
    (state : LPFBWithRecipientWalletState) (createdAt : Date)
    (btcFromUsd : UsdPaymentAmount -> Promise' (BtcPaymentAmount + ApplicationError))
    (usdProtocolAndBankFee : UsdPaymentAmount)
    (usdPaymentAmount : UsdPaymentAmount)
    : Promise' (LPFBWithConversionState + ApplicationError) :=
  await convertedAmount <- btcFromUsd usdPaymentAmount ;;
  match convertedAmount with
  | inr error => Resolved (inr error)
  | inl convertedAmount =>
      match PriceRatio_from usdPaymentAmount convertedAmount with
      | inr error => Resolved (inr error)
      | inl priceRatio =>
          let btcProtocolAndBankFee :=
            convertFromUsd priceRatio usdProtocolAndBankFee in
          Resolved (inl (spreadConversion state createdAt
                           convertedAmount usdPaymentAmount
                           btcProtocolAndBankFee usdProtocolAndBankFee))
      end
  end.

Definition noConversionRequired (state : LPFBWithRecipientWalletState) : bool :=
  (WalletCurrency.eqb (wr_senderWalletCurrency state) WalletCurrency.Btc &&
   SettlementMethod.eqb (wr_settlementMethod state) SettlementMethod.Lightning)
  || match wr_recipientWalletCurrency state with
     | Some recipientWalletCurrency =>
         WalletCurrency.eqb (wr_senderWalletCurrency state) recipientWalletCurrency
     | None => false
     end.

(** [now] is the value of [Date.now()] at the call. *)
Definition LPFBWithRecipientWallet_withConversion
    (state : LPFBWithRecipientWalletState) (args : WithConversionArgs) (now : Z)
    : Builder :=
  let createdAt : Date := now in
  let btcPaymentAmount := wr_btcPaymentAmount state in
  let usdPaymentAmount := wr_usdPaymentAmount state in
  let btcProtocolAndBankFee := wr_btcProtocolAndBankFee state in
  let usdProtocolAndBankFee := wr_usdProtocolAndBankFee state in
  if noConversionRequired state then
    match btcPaymentAmount, btcProtocolAndBankFee,
          usdPaymentAmount, usdProtocolAndBankFee with
    | Some btcPaymentAmount, Some btcProtocolAndBankFee,
      Some usdPaymentAmount, Some usdProtocolAndBankFee =>
        LPFBWithConversion
          (Resolved (inl (spreadConversion state createdAt
                            btcPaymentAmount usdPaymentAmount
                            btcProtocolAndBankFee usdProtocolAndBankFee)))
    | Some btcPaymentAmount, Some btcProtocolAndBankFee, _, _ =>
        LPFBWithConversion
          (updatedStateFromBtcPaymentAmount state createdAt
             (usdFromBtc (mid args)) btcProtocolAndBankFee btcPaymentAmount)
    | _, _, Some usdPaymentAmount, Some usdProtocolAndBankFee =>
        LPFBWithConversion
          (updatedStateFromUsdPaymentAmount state createdAt
             (btcFromUsd (mid args)) usdProtocolAndBankFee usdPaymentAmount)
    | _, _, _, _ =>
        LPFBWithError
          (InvalidLightningPaymentFlowBuilderStateError
             "withConversion - btcPaymentAmount || btcProtocolAndBankFee not set")
    end
  else
    match btcPaymentAmount, btcProtocolAndBankFee with
    | Some btcPaymentAmount, Some btcProtocolAndBankFee =>
        match wr_recipientWalletCurrency state,
              usdPaymentAmount, usdProtocolAndBankFee with
        | Some WalletCurrency.Usd,
          Some usdPaymentAmount, Some usdProtocolAndBankFee =>
            LPFBWithConversion
              (Resolved (inl (spreadConversion state createdAt
                                btcPaymentAmount usdPaymentAmount
                                btcProtocolAndBankFee usdProtocolAndBankFee)))
        | _, _, _ =>
            let usdFromBtc :=
              match wr_senderWalletCurrency state with
              | WalletCurrency.Btc => usdFromBtc (hedgeBuyUsd args)
              | WalletCurrency.Usd => usdFromBtc (hedgeSellUsd args)
              end in
            LPFBWithConversion
              (updatedStateFromBtcPaymentAmount state createdAt
                 usdFromBtc btcProtocolAndBankFee btcPaymentAmount)
        end
    | _, _ =>
        match usdPaymentAmount, usdProtocolAndBankFee with
        | Some usdPaymentAmount, Some usdProtocolAndBankFee =>
            let btcFromUsd :=
              match wr_senderWalletCurrency state with
              | WalletCurrency.Btc => btcFromUsd (hedgeBuyUsd args)
              | WalletCurrency.Usd => btcFromUsd (hedgeSellUsd args)
              end in
            LPFBWithConversion
              (updatedStateFromUsdPaymentAmount state createdAt
                 btcFromUsd usdProtocolAndBankFee usdPaymentAmount)
        | _, _ =>
            LPFBWithError
              (InvalidLightningPaymentFlowBuilderStateError
                 "withConversion - impossible withConversion state")
        end
    end.

(** *** [LPFBWithConversion(statePromise)] *)

Abbreviation StatePromise :=
  (Promise' (LPFBWithConversionState + ApplicationError)).

(** [{ ...state, outgoingNodePubkey, checkedRoute, btcProtocolAndBankFee,
       usdProtocolAndBankFee }]; [withoutRoute] leaves the two fees as they
    are in [state]. *)
Definition spreadRoute
    (state : LPFBWithConversionState)
    (outgoingNodePubkey : option Pubkey) (checkedRoute : option RawRoute)
    (btcFee : BtcPaymentAmount) (usdFee : UsdPaymentAmount)
    : LPFBWithRouteState :=
  {| rt_localNodeIds := wc_localNodeIds state;
     rt_flaggedPubkeys := wc_flaggedPubkeys state;
     rt_settlementMethod := wc_settlementMethod state;
     rt_btcProtocolAndBankFee := btcFee;
     rt_usdProtocolAndBankFee := usdFee;
     rt_paymentInitiationMethod := wc_paymentInitiationMethod state;
     rt_paymentHash := wc_paymentHash state;
     rt_intraLedgerHash := wc_intraLedgerHash state;
     rt_btcPaymentAmount := wc_btcPaymentAmount state;
     rt_usdPaymentAmount := wc_usdPaymentAmount state;
     rt_inputAmount := wc_inputAmount state;
     rt_uncheckedAmount := wc_uncheckedAmount state;
     rt_descriptionFromInvoice := wc_descriptionFromInvoice state;
     rt_skipProbeForDestination := wc_skipProbeForDestination state;
     rt_senderWalletId := wc_senderWalletId state;
     rt_senderWalletCurrency := wc_senderWalletCurrency state;
     rt_senderAccountId := wc_senderAccountId state;
     rt_recipientWalletId := wc_recipientWalletId state;
     rt_recipientWalletCurrency := wc_recipientWalletCurrency state;
     rt_recipientPubkey := wc_recipientPubkey state;
     rt_recipientAccountId := wc_recipientAccountId state;
     rt_recipientUsername := wc_recipientUsername state;
     rt_recipientUserId := wc_recipientUserId state;
     rt_createdAt := wc_createdAt state;
     rt_outgoingNodePubkey := outgoingNodePubkey;
     rt_checkedRoute := checkedRoute |}.

(** [PaymentFlow({ ...hash, senderWalletId: state.senderWalletId, ... })],
    [hash] being [{ paymentHash }] or [{ intraLedgerHash }]. *)
Definition flowFromState
    (paymentHash : option PaymentHash) (intraLedgerHash : option IntraLedgerHash)
    (state : LPFBWithRouteState) : PaymentFlow :=
  {| pf_paymentHash := paymentHash;
     pf_intraLedgerHash := intraLedgerHash;
     pf_senderWalletId := rt_senderWalletId state;
     pf_senderWalletCurrency := rt_senderWalletCurrency state;
     pf_senderAccountId := rt_senderAccountId state;
     pf_recipientWalletId := rt_recipientWalletId state;
     pf_recipientWalletCurrency := rt_recipientWalletCurrency state;
     pf_recipientAccountId := rt_recipientAccountId state;
     pf_recipientPubkey := rt_recipientPubkey state;
     pf_recipientUsername := rt_recipientUsername state;
     pf_recipientUserId := rt_recipientUserId state;
     pf_descriptionFromInvoice := rt_descriptionFromInvoice state;
     pf_skipProbeForDestination := rt_skipProbeForDestination state;
     pf_btcPaymentAmount := rt_btcPaymentAmount state;
     pf_usdPaymentAmount := rt_usdPaymentAmount state;
     pf_inputAmount := rt_inputAmount state;
     pf_createdAt := rt_createdAt state;
     pf_paymentSentAndPending := false;
     pf_settlementMethod := rt_settlementMethod state;
     pf_paymentInitiationMethod := rt_paymentInitiationMethod state;
     pf_btcProtocolAndBankFee := rt_btcProtocolAndBankFee state;
     pf_usdProtocolAndBankFee := rt_usdProtocolAndBankFee state;
     pf_outgoingNodePubkey := rt_outgoingNodePubkey state;
     pf_cachedRoute := rt_checkedRoute state |}.

Definition paymentFromState (state : LPFBWithRouteState)
    : PaymentFlow + ApplicationError :=
  if optional_toBoolean String_toBoolean (rt_paymentHash state)
  then inl (flowFromState (rt_paymentHash state) None state)
  else if optional_toBoolean String_toBoolean (rt_intraLedgerHash state)
  then inl (flowFromState None (rt_intraLedgerHash state) state)
  else inr InvalidLightningPaymentFlowStateError.

Definition LPFBWithConversion_withoutRoute (statePromise : StatePromise)
    : Promise' (PaymentFlow + ApplicationError) :=
  await state <- statePromise ;;
  match state with
  | inr error => Resolved (inr error)
  | inl state =>
      Resolved (paymentFromState
                  (spreadRoute state None None
                     (wc_btcProtocolAndBankFee state)
                     (wc_usdProtocolAndBankFee state)))
  end.

Definition LPFBWithConversion_withRoute
    (statePromise : StatePromise) (pubkey : Pubkey) (rawRoute : RawRoute)
    : Promise' (PaymentFlow + ApplicationError) :=
  await state <- statePromise ;;
  match state with
  | inr error => Resolved (inr error)
  | inl state =>
      match PriceRatio_from (wc_usdPaymentAmount state) (wc_btcPaymentAmount state) with
      | inr error => Resolved (inr error)
      | inl priceRatio =>
          match feeFromRawRoute LnFees rawRoute with
          | inr error => Resolved (inr error)
          | inl btcProtocolAndBankFee =>
              let usdProtocolAndBankFee :=
                convertFromBtcToCeil priceRatio btcProtocolAndBankFee in
              Resolved (paymentFromState
                          (spreadRoute state (Some pubkey) (Some rawRoute)
                             btcProtocolAndBankFee usdProtocolAndBankFee))
          end
      end
  end.

(** The five accessors share their shape: await the state, pass an error on,
    project otherwise. *)
Definition projectState {A} (statePromise : StatePromise)
    (project : LPFBWithConversionState -> A) : Promise' (A + ApplicationError) :=
  await state <- statePromise ;;
  match state with
  | inr error => Resolved (inr error)
  | inl state => Resolved (inl (project state))
  end.

Definition LPFBWithConversion_btcPaymentAmount (statePromise : StatePromise) :=
  projectState statePromise wc_btcPaymentAmount.

Definition LPFBWithConversion_usdPaymentAmount (statePromise : StatePromise) :=
  projectState statePromise wc_usdPaymentAmount.

Definition LPFBWithConversion_skipProbeForDestination (statePromise : StatePromise) :=
  projectState statePromise wc_skipProbeForDestination.

Definition LPFBWithConversion_isIntraLedger (statePromise : StatePromise) :=
  projectState statePromise
    (fun state =>
       SettlementMethod.eqb (wc_settlementMethod state) SettlementMethod.IntraLedger).

Definition LPFBWithConversion_isTradeIntraAccount (statePromise : StatePromise) :=
  projectState statePromise
    (fun state =>
       match wc_recipientAccountId state with
       | Some recipientAccountId =>
           String.eqb (wc_senderAccountId state) recipientAccountId
       | None => false
       end
       && match wc_recipientWalletCurrency state with
          | Some recipientWalletCurrency =>
              negb (WalletCurrency.eqb (wc_senderWalletCurrency state)
                      recipientWalletCurrency)
          | None => true
          end).

(** *** [LPFBWithError(error)] *)

Definition LPFBWithError_withSenderWallet (error : ApplicationError) : Builder :=
  LPFBWithError error.

Definition LPFBWithError_withoutRecipientWallet (error : ApplicationError) : Builder :=
  LPFBWithError error.

Definition LPFBWithError_withRecipientWallet (error : ApplicationError) : Builder :=
  LPFBWithError error.

Definition LPFBWithError_withConversion (error : ApplicationError) : Builder :=
  LPFBWithError error.

Definition LPFBWithError_withRoute (error : ApplicationError)
    : Promise' (PaymentFlow + ApplicationError) :=
  Resolved (inr error).

Definition LPFBWithError_withoutRoute (error : ApplicationError)
    : Promise' (PaymentFlow + ApplicationError) :=
  Resolved (inr error).

Definition LPFBWithError_skipProbeForDestination (error : ApplicationError)
    : Promise' (bool + ApplicationError) :=
  Resolved (inr error).

Definition LPFBWithError_isIntraLedger (error : ApplicationError)
    : Promise' (bool + ApplicationError) :=
  Resolved (inr error).

Definition LPFBWithError_isTradeIntraAccount (error : ApplicationError)
    : Promise' (bool + ApplicationError) :=
  Resolved (inr error).

Definition LPFBWithError_btcPaymentAmount (error : ApplicationError)
    : Promise' (BtcPaymentAmount + ApplicationError) :=
  Resolved (inr error).

Definition LPFBWithError_usdPaymentAmount (error : ApplicationError)
    : Promise' (UsdPaymentAmount + ApplicationError) :=
  Resolved (inr error).

(** *** Method calls on a stage object

    A call [b.m(...)] on a value of a union of stage types runs the closure of
    the stage [b] is; on a stage object without a property [m] (a call the
    TypeScript types reject) JavaScript throws a [TypeError]. *)

Definition notAFunction {A} (method : string) : Completion A :=
  Throw ("TypeError: " ++ method ++ " is not a function").

Definition withSenderWallet (b : Builder) (senderWallet : WalletDescriptor.t)
    : Completion Builder :=
  match b with
  | LPFBWithInvoice state => LPFBWithInvoice_withSenderWallet state senderWallet
  | LPFBWithError error => Normal (LPFBWithError_withSenderWallet error)
  | _ => notAFunction "withSenderWallet"
  end.

Definition withoutRecipientWallet (b : Builder) : Completion Builder :=
  match b with
  | LPFBWithSenderWallet state =>
      Normal (LPFBWithSenderWallet_withoutRecipientWallet state)
  | LPFBWithError error => Normal (LPFBWithError_withoutRecipientWallet error)
  | _ => notAFunction "withoutRecipientWallet"
  end.

Definition withRecipientWallet (b : Builder) (recipient : RecipientWallet.t)
    : Completion Builder :=
  match b with
  | LPFBWithSenderWallet state =>
      Normal (LPFBWithSenderWallet_withRecipientWallet state recipient)
  | LPFBWithError error => Normal (LPFBWithError_withRecipientWallet error)
  | _ => notAFunction "withRecipientWallet"
  end.

Definition withConversion (b : Builder) (args : WithConversionArgs) (now : Z)
    : Completion Builder :=
  match b with
  | LPFBWithRecipientWallet state =>
      Normal (LPFBWithRecipientWallet_withConversion state args now)
  | LPFBWithError error => Normal (LPFBWithError_withConversion error)
  | _ => notAFunction "withConversion"
  end.

Definition withRoute (b : Builder) (pubkey : Pubkey) (rawRoute : RawRoute)
    : Completion (Promise' (PaymentFlow + ApplicationError)) :=
  match b with
  | LPFBWithConversion statePromise =>
      Normal (LPFBWithConversion_withRoute statePromise pubkey rawRoute)
  | LPFBWithError error => Normal (LPFBWithError_withRoute error)
  | _ => notAFunction "withRoute"
  end.

Definition withoutRoute (b : Builder)
    : Completion (Promise' (PaymentFlow + ApplicationError)) :=
  match b with
  | LPFBWithConversion statePromise =>
      Normal (LPFBWithConversion_withoutRoute statePromise)
  | LPFBWithError error => Normal (LPFBWithError_withoutRoute error)
  | _ => notAFunction "withoutRoute"
  end.

Definition btcPaymentAmount (b : Builder)
    : Completion (Promise' (BtcPaymentAmount + ApplicationError)) :=
  match b with
  | LPFBWithConversion statePromise =>
      Normal (LPFBWithConversion_btcPaymentAmount statePromise)
  | LPFBWithError error => Normal (LPFBWithError_btcPaymentAmount error)
  | _ => notAFunction "btcPaymentAmount"
  end.

Definition usdPaymentAmount (b : Builder)
    : Completion (Promise' (UsdPaymentAmount + ApplicationError)) :=
  match b with
  | LPFBWithConversion statePromise =>
      Normal (LPFBWithConversion_usdPaymentAmount statePromise)
  | LPFBWithError error => Normal (LPFBWithError_usdPaymentAmount error)
  | _ => notAFunction "usdPaymentAmount"
  end.

Definition skipProbeForDestination (b : Builder)
    : Completion (Promise' (bool + ApplicationError)) :=
  match b with
  | LPFBWithConversion statePromise =>
      Normal (LPFBWithConversion_skipProbeForDestination statePromise)
  | LPFBWithError error => Normal (LPFBWithError_skipProbeForDestination error)
  | _ => notAFunction "skipProbeForDestination"
  end.

(** [isIntraLedger] answers at once on the sender-wallet stage and with a
    promise on the conversion and error stages. *)
Inductive IsIntraLedgerResult : Type :=
| Immediate (value : bool)
| Promised (promise : Promise' (bool + ApplicationError)).

Definition isIntraLedger (b : Builder) : Completion IsIntraLedgerResult :=
  match b with
  | LPFBWithSenderWallet state =>
      Normal (Immediate (LPFBWithSenderWallet_isIntraLedger state))
  | LPFBWithConversion statePromise =>
      Normal (Promised (LPFBWithConversion_isIntraLedger statePromise))
  | LPFBWithError error => Normal (Promised (LPFBWithError_isIntraLedger error))
  | _ => notAFunction "isIntraLedger"
  end.

Definition isTradeIntraAccount (b : Builder)
    : Completion (Promise' (bool + ApplicationError)) :=
  match b with
  | LPFBWithConversion statePromise =>
      Normal (LPFBWithConversion_isTradeIntraAccount statePromise)
  | LPFBWithError error => Normal (LPFBWithError_isTradeIntraAccount error)
  | _ => notAFunction "isTradeIntraAccount"
  end.

(** *** Chains of calls

    The stage-to-stage operations, as data, so that statements can range over
    every sequence of them. *)
Inductive Transition : Type :=
| CallWithSenderWallet (senderWallet : WalletDescriptor.t)
| CallWithoutRecipientWallet
| CallWithRecipientWallet (recipient : RecipientWallet.t)
| CallWithConversion (args : WithConversionArgs) (now : Z).

Definition call (b : Builder) (t : Transition) : Completion Builder :=
  match t with
  | CallWithSenderWallet senderWallet => withSenderWallet b senderWallet
  | CallWithoutRecipientWallet => withoutRecipientWallet b
  | CallWithRecipientWallet recipient => withRecipientWallet b recipient
  | CallWithConversion args now => withConversion b args now
  end.

(** [b.t1(...).t2(...)...]: a throw ends the chain. *)
Fixpoint chain (b : Builder) (ts : list Transition) : Completion Builder :=
  match ts with
  | [] => Normal b
  | t :: ts =>
      match call b t with
      | Normal b' => chain b' ts
      | Throw message => Throw message
      end
  end.

End Builder.
End PaymentFlowBuilder.

(** ** Limits checker *)

Module LimitsChecker.

Record IAccountLimits : Type := {
  intraLedgerLimit : number;
  withdrawalLimit : number;
}.

Record TwoFALimits : Type := {
  threshold : number;
}.

Record TxBaseVolumeAmount : Type := {
  outgoingBaseAmount : PaymentAmount;
  incomingBaseAmount : PaymentAmount;
}.

Module NewLimiterCheckInputs.
Record t : Type := {
  amount : UsdPaymentAmount;
  walletVolume : TxBaseVolumeAmount;
}.
End NewLimiterCheckInputs.

(** The attributes one call of [addAttributesToCurrentSpan] sets. *)
Definition SpanAttributes := list (string * string).

(** A computation that may write to the current tracing span: its value and
    the attribute sets it added, oldest first. *)
Definition Traced (A : Type) : Type := list SpanAttributes * A.

Definition ret {A} (value : A) : Traced A := ([], value).

Definition bind {A B} (m : Traced A) (k : A -> Traced B) : Traced B :=
  let '(log, value) := m in
  let '(log', result) := k value in
  ((log ++ log')%list, result).

Definition addAttributesToCurrentSpan (attributes : SpanAttributes) : Traced unit :=
  ([attributes], tt).

Definition value_of {A} (m : Traced A) : A := snd m.

Section Checker.
(** [paymentAmountFromNumber] is imported from [@domain/shared];
    [Number_toString] is the conversion a template literal applies to a
    [number]. *)
Context (paymentAmountFromNumber :
           number -> WalletCurrency.t -> PaymentAmount + ApplicationError).
Context (Number_toString : number -> string).

(** The first statement of the three checks.  [priceRatio.convertFromBtc]
    returns its value directly, and [await] of a value that is not a promise
    continues with that value. *)
Definition volumeInUsdAmountOf
    (priceRatio : PriceRatio) (walletVolume : TxBaseVolumeAmount)
    : UsdPaymentAmount + ApplicationError :=
  match currency (outgoingBaseAmount walletVolume) with
  | WalletCurrency.Btc => convertFromBtc priceRatio (outgoingBaseAmount walletVolume)
  | WalletCurrency.Usd => inl (outgoingBaseAmount walletVolume)
  end.

Definition spanAttributes
    (volumeInUsdAmount limit requested : PaymentAmount) (limitCheck : string)
    : SpanAttributes :=
  [ ("txVolume.outgoingInBase", BigInt_toString (amount volumeInUsdAmount));
    ("txVolume.threshold", BigInt_toString (amount limit));
    ("txVolume.amountInBase", BigInt_toString (amount requested));
    ("txVolume.limitCheck", limitCheck) ].

Definition checkIntraledger
    (accountLimits : IAccountLimits) (priceRatio : PriceRatio)
    (inputs : NewLimiterCheckInputs.t) : Traced (bool + ApplicationError) :=
  let amount' := NewLimiterCheckInputs.amount inputs in
  match volumeInUsdAmountOf priceRatio (NewLimiterCheckInputs.walletVolume inputs) with
  | inr error => ret (inr error)
  | inl volumeInUsdAmount =>
      match paymentAmountFromNumber (intraLedgerLimit accountLimits) WalletCurrency.Usd with
      | inr error => ret (inr error)
      | inl limit =>
          bind (addAttributesToCurrentSpan
                  (spanAttributes volumeInUsdAmount limit amount' "checkIntraledger"))
            (fun _ =>
               let remainingLimit := amount limit - amount volumeInUsdAmount in
               if remainingLimit <? amount amount'
               then ret (inr (IntraledgerLimitsExceededError
                                ("Cannot transfer more than "
                                 ++ Number_toString (intraLedgerLimit accountLimits)
                                 ++ " cents in 24 hours")))
               else ret (inl true))
      end
  end.

Definition checkWithdrawal
    (accountLimits : IAccountLimits) (priceRatio : PriceRatio)
    (inputs : NewLimiterCheckInputs.t) : Traced (bool + ApplicationError) :=
  let amount' := NewLimiterCheckInputs.amount inputs in
  match volumeInUsdAmountOf priceRatio (NewLimiterCheckInputs.walletVolume inputs) with
  | inr error => ret (inr error)
  | inl volumeInUsdAmount =>
      match paymentAmountFromNumber (withdrawalLimit accountLimits) WalletCurrency.Usd with
      | inr error => ret (inr error)
      | inl limit =>
          bind (addAttributesToCurrentSpan
                  (spanAttributes volumeInUsdAmount limit amount' "checkWithdrawal"))
            (fun _ =>
               let remainingLimit := amount limit - amount volumeInUsdAmount in
               if remainingLimit <? amount amount'
               then ret (inr (WithdrawalLimitsExceededError
                                ("Cannot transfer more than "
                                 ++ Number_toString (withdrawalLimit accountLimits)
                                 ++ " cents in 24 hours")))
               else ret (inl true))
      end
  end.

Definition checkTwoFA
    (twoFALimits : TwoFALimits) (priceRatio : PriceRatio)
    (inputs : NewLimiterCheckInputs.t) : Traced (bool + ApplicationError) :=
  let amount' := NewLimiterCheckInputs.amount inputs in
  match volumeInUsdAmountOf priceRatio (NewLimiterCheckInputs.walletVolume inputs) with
  | inr error => ret (inr error)
  | inl volumeInUsdAmount =>
      match paymentAmountFromNumber (threshold twoFALimits) WalletCurrency.Usd with
      | inr error => ret (inr error)
      | inl limit =>
          bind (addAttributesToCurrentSpan
                  (spanAttributes volumeInUsdAmount limit amount' "checkTwoFA"))
            (fun _ =>
               let remainingLimit := amount limit - amount volumeInUsdAmount in
               if remainingLimit <? amount amount'
               then ret (inr TwoFALimitsExceededError)
               else ret (inl true))
      end
  end.

End Checker.
End LimitsChecker.

(** ** The subscription of a user to their updates

    [MeSubscription.resolve] of [src/graphql/root/subscription/my-updates.ts]:
    it turns what was published on the bus into the payload sent to the
    subscriber.  The objects published for an invoice, a transaction and an
    intra-ledger payment are spread into the update; they are maps from keys to
    scalar values. *)

Module MeSubscription.

Inductive JsValue : Type :=
| JsUndefined
| JsNull
| JsBoolean (value : bool)
| JsNumber (value : number)
| JsString (value : string).

(** [o.key]: [undefined] for a key the object does not have. *)
Definition get (o : gmap string JsValue) (key : string) : JsValue :=
  default JsUndefined (o !! key).

(** [{ k1: v1, ..., kn: vn, ...o }]: the keys written first keep their value
    only where [o] has no such key. *)
Definition spreadOver (written : list (string * JsValue)) (o : gmap string JsValue)
    : gmap string JsValue :=
  o ∪ list_to_map written.

Record PriceUpdate : Type := {
  satUsdCentPrice : number;
}.

Section Resolve.
Context {GqlError DomainUser : Type}.
(** [SAT_PRICE_PRECISION_OFFSET] is imported from [@config]; [Math.round],
    [**] and [Number.prototype.toString] are the language's. *)
Context (SAT_PRICE_PRECISION_OFFSET : number).
Context (Math_round : number -> number).
Context (Math_pow : number -> number -> number).
Context (Number_toString : number -> string).

(** What the bus delivers. *)
Record Source : Type := {
  errors : option (list GqlError);
  price : option PriceUpdate;
  invoice : option (gmap string JsValue);
  transaction : option (gmap string JsValue);
  intraLedger : option (gmap string JsValue);
}.

Record Context_ : Type := {
  uid : option UserId;
  domainUser : option DomainUser;
}.

(** What [resolve] returns: [{ errors }], [{ errors: [], me, update }], or
    nothing. *)
Inductive Payload : Type :=
| ErrorsPayload (errors : list GqlError)
| UserPayload (me : option DomainUser) (update : gmap string JsValue)
| NoPayload.

Definition userPayload (domainUser : option DomainUser)
    (updateData : gmap string JsValue) : Payload :=
  UserPayload domainUser updateData.

Definition resolve (source : Source) (ctx : Context_) : Completion Payload :=
  if negb (optional_toBoolean String_toBoolean (uid ctx))
  then Throw "Not Authenticated"
  else
    match errors source with
    | Some sourceErrors => Normal (ErrorsPayload sourceErrors)
    | None =>
        let myPayload := userPayload (domainUser ctx) in
        match price source with
        | Some sourcePrice =>
            Normal
              (userPayload None
                 (list_to_map
                    [ ("resolveType", JsString "Price");
                      ("base",
                       JsNumber
                         (Math_round
                            (PrimFloat.mul (satUsdCentPrice sourcePrice)
                               (Math_pow 10%float SAT_PRICE_PRECISION_OFFSET))));
                      ("offset", JsNumber SAT_PRICE_PRECISION_OFFSET);
                      ("currencyUnit", JsString "USDCENT");
                      ("formattedAmount",
                       JsString (Number_toString (satUsdCentPrice sourcePrice))) ]))
        | None =>
            match invoice source with
            | Some sourceInvoice =>
                Normal
                  (myPayload
                     (spreadOver [("resolveType", JsString "LnUpdate")] sourceInvoice))
            | None =>
                match transaction source with
                | Some sourceTransaction =>
                    Normal
                      (myPayload
                         (spreadOver
                            [ ("resolveType", JsString "OnChainUpdate");
                              ("usdPerSat",
                               get sourceTransaction "displayCurrencyPerSat") ]
                            sourceTransaction))
                | None =>
                    match intraLedger source with
                    | Some sourceIntraLedger =>
                        Normal
                          (myPayload
                             (spreadOver
                                [ ("resolveType", JsString "IntraLedgerUpdate");
                                  ("usdPerSat",
                                   get sourceIntraLedger "displayCurrencyPerSat") ]
                                sourceIntraLedger))
                    | None => Normal NoPayload
                    end
                end
            end
        end
    end.

End Resolve.
End MeSubscription.

(** * Samples *)

Import PaymentFlowBuilder.

(** ** Sample collaborators

    Concrete implementations of the imports, used to run the builder on
    examples. *)

(** The integer a finite [number] denotes, if it denotes one. *)
Definition Number_toInteger (x : number) : option Z :=
  if negb (PrimFloat.eqb x x) || PrimFloat.eqb (abs x) infinity then None
  else if PrimFloat.eqb x 0%float then Some 0
  else
    let '(fraction, exponent) := frshiftexp (abs x) in
    let mantissa := Uint63.to_Z (normfr_mantissa fraction) in
    let e := Uint63.to_Z exponent - FloatOps.shift - FloatOps.prec in
    let magnitude :=
      if 0 <=? e then Some (mantissa * 2 ^ e)
      else if mantissa mod 2 ^ (- e) =? 0 then Some (mantissa / 2 ^ (- e))
      else None in
    match magnitude with
    | Some m => Some (if PrimFloat.ltb x 0%float then - m else m)
    | None => None
    end.

(** A validator that accepts the non-negative integers, the payment amounts of
    the data model. *)
Definition sampleChecked (c : WalletCurrency.t) (x : number)
    : PaymentAmount + ApplicationError :=
  match Number_toInteger x with
  | Some n =>
      if 0 <=? n then inl {| amount := n; currency := c |}
      else inr (ValidationError "InvalidPaymentAmountError")
  | None => inr (ValidationError "InvalidPaymentAmountError")
  end.

(** A price ratio of [usd] cents for [btc] satoshis. *)
Definition samplePriceRatio (usdAmount btcAmount : Z) : PriceRatio :=
  {| convertFromBtc a :=
       inl {| amount := amount a * usdAmount / btcAmount;
              currency := WalletCurrency.Usd |};
     convertFromUsd a :=
       {| amount := amount a * btcAmount / usdAmount;
          currency := WalletCurrency.Btc |};
     convertFromBtcToCeil a :=
       {| amount := (amount a * usdAmount + btcAmount - 1) / btcAmount;
          currency := WalletCurrency.Usd |} |}.

Definition samplePriceRatio_from (usdAmount : UsdPaymentAmount)
    (btcAmount : BtcPaymentAmount) : PriceRatio + ApplicationError :=
  if (0 <? amount usdAmount) && (0 <? amount btcAmount)
  then inl (samplePriceRatio (amount usdAmount) (amount btcAmount))
  else inr (ValidationError "InvalidZeroAmountPriceRatioInputError").

Definition sampleLnFees : LnFeesT (RawRoute := Z) :=
  {| intraLedgerFees :=
       {| btc := {| amount := 0; currency := WalletCurrency.Btc |};
          usd := {| amount := 0; currency := WalletCurrency.Usd |} |};
     maxProtocolAndBankFee a :=
       {| amount := Z.max 1 (amount a / 200); currency := currency a |};
     feeFromRawRoute fee :=
       if 0 <=? fee then inl {| amount := fee; currency := WalletCurrency.Btc |}
       else inr (ValidationError "BadRouteError") |}.

#[local] Instance sampleImports : Imports (RawRoute := Z) (Entropy := string) :=
  {| checkedToBtcPaymentAmount := sampleChecked WalletCurrency.Btc;
     checkedToUsdPaymentAmount := sampleChecked WalletCurrency.Usd;
     generateIntraLedgerHash entropy := entropy;
     parseFinalHopsFromInvoice := fun _ => [];
     LnFees := sampleLnFees;
     PriceRatio_from := samplePriceRatio_from |}.

(** A dealer that quotes 2 cents for 100 satoshis, after one round trip to the
    price service; the service's answer is not used by the sample. *)
Definition sampleRateSource : RateSource (IoRequest := string) (IoResponse := unit) :=
  {| usdFromBtc a :=
       Pending "usdFromBtc"
         (fun _ => Resolved (inl {| amount := amount a * 2 / 100;
                                    currency := WalletCurrency.Usd |}));
     btcFromUsd a :=
       Pending "btcFromUsd"
         (fun _ => Resolved (inl {| amount := amount a * 100 / 2;
                                    currency := WalletCurrency.Btc |})) |}.

(** A dealer that is down. *)
Definition failingRateSource : RateSource (IoRequest := string) (IoResponse := unit) :=
  {| usdFromBtc _ :=
       Pending "usdFromBtc"
         (fun _ => Resolved (inr (DealerPriceServiceError "UnknownDealerPriceServiceError")));
     btcFromUsd _ :=
       Pending "btcFromUsd"
         (fun _ => Resolved (inr (DealerPriceServiceError "UnknownDealerPriceServiceError"))) |}.

Definition sampleRates : WithConversionArgs :=
  {| hedgeBuyUsd := sampleRateSource;
     hedgeSellUsd := sampleRateSource;
     mid := sampleRateSource |}.

Definition failingRates : WithConversionArgs :=
  {| hedgeBuyUsd := failingRateSource;
     hedgeSellUsd := failingRateSource;
     mid := failingRateSource |}.

Definition sampleConfig : LightningPaymentFlowBuilderConfig :=
  {| localNodeIds := ["localNode1"; "localNode2"];
     flaggedPubkeys := ["flaggedNode"] |}.

Definition sampleInvoice (destination : option Pubkey)
    (paymentAmount : option BtcPaymentAmount) : LnInvoice.t :=
  {| LnInvoice.destination := destination;
     LnInvoice.paymentHash := "paymentHash";
     LnInvoice.paymentAmount := paymentAmount;
     LnInvoice.description := "memo";
     LnInvoice.paymentRequest := "lnbc1" |}.

Definition sats (n : Z) : BtcPaymentAmount :=
  {| amount := n; currency := WalletCurrency.Btc |}.

Definition cents (n : Z) : UsdPaymentAmount :=
  {| amount := n; currency := WalletCurrency.Usd |}.

Definition senderBtcWallet : WalletDescriptor.t :=
  {| WalletDescriptor.id := "senderWalletId";
     WalletDescriptor.currency := WalletCurrency.Btc;
     WalletDescriptor.accountId := "senderAccountId" |}.

Definition recipientWallet (walletId : WalletId) (c : WalletCurrency.t)
    (usdPaymentAmount : option UsdPaymentAmount) : RecipientWallet.t :=
  {| RecipientWallet.id := walletId;
     RecipientWallet.currency := c;
     RecipientWallet.pubkey := None;
     RecipientWallet.usdPaymentAmount := usdPaymentAmount;
     RecipientWallet.username := Some "recipient";
     RecipientWallet.accountId := "recipientAccountId";
     RecipientWallet.userId := "recipientUserId" |}.

(** ** Sample payments *)

Local Abbreviation Builder0 := (Builder (IoRequest := string) (IoResponse := unit)).

Definition senderUsdWallet : WalletDescriptor.t :=
  {| WalletDescriptor.id := "senderWalletId";
     WalletDescriptor.currency := WalletCurrency.Usd;
     WalletDescriptor.accountId := "senderAccountId" |}.

(** The price service answers; what it says is not used by the samples. *)
Definition sampleWorld (request : string) : unit := tt.

(** The sender-wallet stage of a BTC wallet paying a no-amount invoice of a
    local node, the amount given by the sender being [uncheckedAmount] and
    validated as [inputAmount] satoshis. *)
Definition senderStateOfNoAmountInvoice
    (uncheckedAmount : number) (inputAmount : Z) : LPFBWithSenderWalletState :=
  {| ws_localNodeIds := ["localNode1"; "localNode2"];
     ws_flaggedPubkeys := ["flaggedNode"];
     ws_settlementMethod := SettlementMethod.IntraLedger;
     ws_btcProtocolAndBankFee := Some (sats 0);
     ws_usdProtocolAndBankFee := Some (cents 0);
     ws_paymentInitiationMethod := PaymentInitiationMethod.Lightning;
     ws_paymentHash := Some "paymentHash";
     ws_intraLedgerHash := None;
     ws_btcPaymentAmount := Some (sats inputAmount);
     ws_usdPaymentAmount := None;
     ws_inputAmount := inputAmount;
     ws_uncheckedAmount := Some uncheckedAmount;
     ws_descriptionFromInvoice := "memo";
     ws_skipProbeForDestination := false;
     ws_senderWalletId := "senderWalletId";
     ws_senderWalletCurrency := WalletCurrency.Btc;
     ws_senderAccountId := "senderAccountId" |}.

(** The recipient-wallet stage of a USD wallet paying 5000 satoshis, worth 100
    cents to the USD wallet that issued the invoice on a local node. *)
Definition usdToUsdState : LPFBWithRecipientWalletState :=
  {| wr_localNodeIds := ["localNode1"; "localNode2"];
     wr_flaggedPubkeys := ["flaggedNode"];
     wr_settlementMethod := SettlementMethod.IntraLedger;
     wr_btcProtocolAndBankFee := Some (sats 0);
     wr_usdProtocolAndBankFee := Some (cents 0);
     wr_paymentInitiationMethod := PaymentInitiationMethod.Lightning;
     wr_paymentHash := Some "paymentHash";
     wr_intraLedgerHash := None;
     wr_btcPaymentAmount := Some (sats 5000);
     wr_usdPaymentAmount := Some (cents 100);
     wr_inputAmount := 5000;
     wr_uncheckedAmount := None;
     wr_descriptionFromInvoice := "memo";
     wr_skipProbeForDestination := false;
     wr_senderWalletId := "senderWalletId";
     wr_senderWalletCurrency := WalletCurrency.Usd;
     wr_senderAccountId := "senderAccountId";
     wr_recipientWalletId := Some "recipientWalletId";
     wr_recipientWalletCurrency := Some WalletCurrency.Usd;
     wr_recipientPubkey := None;
     wr_recipientAccountId := Some "recipientAccountId";
     wr_recipientUsername := Some "recipient";
     wr_recipientUserId := Some "recipientUserId" |}.

(** The conversion state of a BTC wallet paying a 5000 satoshi invoice of a
    node that is not local, with the hashes left open. *)
Definition lightningConversionState
    (paymentHash : option PaymentHash) (intraLedgerHash : option IntraLedgerHash)
    : LPFBWithConversionState :=
  {| wc_localNodeIds := ["localNode1"; "localNode2"];
     wc_flaggedPubkeys := ["flaggedNode"];
     wc_settlementMethod := SettlementMethod.Lightning;
     wc_btcProtocolAndBankFee := sats 25;
     wc_usdProtocolAndBankFee := cents 1;
     wc_paymentInitiationMethod := PaymentInitiationMethod.Lightning;
     wc_paymentHash := paymentHash;
     wc_intraLedgerHash := intraLedgerHash;
     wc_btcPaymentAmount := sats 5000;
     wc_usdPaymentAmount := cents 100;
     wc_inputAmount := 5000;
     wc_uncheckedAmount := None;
     wc_descriptionFromInvoice := "memo";
     wc_skipProbeForDestination := false;
     wc_senderWalletId := "senderWalletId";
     wc_senderWalletCurrency := WalletCurrency.Btc;
     wc_senderAccountId := "senderAccountId";
     wc_recipientWalletId := None;
     wc_recipientWalletCurrency := None;
     wc_recipientPubkey := None;
     wc_recipientAccountId := None;
     wc_recipientUsername := None;
     wc_recipientUserId := None;
     wc_createdAt := 1660000000000 |}.

(** The conversion stage the builder reaches for that payment: the USD amount
    is pending on the mid rate. *)
Definition lightningConversion
    : Promise string unit (LPFBWithConversionState + ApplicationError) :=
  Pending "usdFromBtc"
    (fun _ => Resolved (inl (lightningConversionState (Some "paymentHash") None))).

Definition lightningChain (rates : WithConversionArgs) : Completion Builder0 :=
  chain
    (withInvoice sampleConfig (sampleInvoice (Some "remoteNode") (Some (sats 5000))))
    [CallWithSenderWallet senderBtcWallet;
     CallWithoutRecipientWallet;
     CallWithConversion rates 1660000000000].

(** The same payment when the dealer is down. *)
Definition failedConversion
    : Promise string unit (LPFBWithConversionState + ApplicationError) :=
  Pending "usdFromBtc"
    (fun _ => Resolved (inr (DealerPriceServiceError "UnknownDealerPriceServiceError"))).

Definition samplePaymentAmountFromNumber (x : number) (c : WalletCurrency.t)
    : PaymentAmount + ApplicationError :=
  match Number_toInteger x with
  | Some n => inl {| amount := n; currency := c |}
  | None => inr (ValidationError "BigIntFloatConversionError")
  end.

Definition sampleNumber_toString (x : number) : string :=
  match Number_toInteger x with
  | Some n => BigInt_toString n
  | None => "NaN"
  end.

Definition sampleAccountLimits : LimitsChecker.IAccountLimits :=
  {| LimitsChecker.intraLedgerLimit := 100000%float;
     LimitsChecker.withdrawalLimit := 100000%float |}.

Definition sampleTwoFALimits : LimitsChecker.TwoFALimits :=
  {| LimitsChecker.threshold := 100000%float |}.

(** Two million satoshis have left the wallet, 40000 cents at 2 cents for 100
    satoshis. *)
Definition sampleWalletVolume : LimitsChecker.TxBaseVolumeAmount :=
  {| LimitsChecker.outgoingBaseAmount := sats 2000000;
     LimitsChecker.incomingBaseAmount := sats 0 |}.

Definition sampleRequest (requested : Z) : LimitsChecker.NewLimiterCheckInputs.t :=
  {| LimitsChecker.NewLimiterCheckInputs.amount := cents requested;
     LimitsChecker.NewLimiterCheckInputs.walletVolume := sampleWalletVolume |}.

(** A wallet whose outgoing volume is kept in cents. *)
Definition usdWalletVolume (incoming : Z) : LimitsChecker.TxBaseVolumeAmount :=
  {| LimitsChecker.outgoingBaseAmount := cents 40000;
     LimitsChecker.incomingBaseAmount := sats incoming |}.

(** The invoice stage of 5000 satoshis sent to a user name. *)
Definition userNameInvoiceState : LPFBWithInvoiceState :=
  {| wi_localNodeIds := ["localNode1"; "localNode2"];
     wi_flaggedPubkeys := ["flaggedNode"];
     wi_settlementMethod := SettlementMethod.IntraLedger;
     wi_btcProtocolAndBankFee := Some (sats 0);
     wi_usdProtocolAndBankFee := Some (cents 0);
     wi_paymentInitiationMethod := PaymentInitiationMethod.IntraLedger;
     wi_paymentHash := None;
     wi_intraLedgerHash := Some "intraLedgerHash";
     wi_btcPaymentAmount := None;
     wi_inputAmount := None;
     wi_uncheckedAmount := Some 5000%float;
     wi_descriptionFromInvoice := "memo";
     wi_skipProbeForDestination := false |}.

(** The calls that complete it from a BTC wallet to the BTC wallet of another
    account. *)
Definition userNamePayment : list (Transition (IoRequest := string) (IoResponse := unit)) :=
  [CallWithSenderWallet senderBtcWallet;
   CallWithRecipientWallet (recipientWallet "recipientWalletId" WalletCurrency.Btc None);
   CallWithConversion sampleRates 1660000000000].

(** The recipient-wallet stage of a BTC wallet paying 5000 satoshis inside the
    ledger to a USD wallet: the USD amount is still to be found. *)
Definition btcToUsdState : LPFBWithRecipientWalletState :=
  {| wr_localNodeIds := ["localNode1"; "localNode2"];
     wr_flaggedPubkeys := ["flaggedNode"];
     wr_settlementMethod := SettlementMethod.IntraLedger;
     wr_btcProtocolAndBankFee := Some (sats 0);
     wr_usdProtocolAndBankFee := Some (cents 0);
     wr_paymentInitiationMethod := PaymentInitiationMethod.Lightning;
     wr_paymentHash := Some "paymentHash";
     wr_intraLedgerHash := None;
     wr_btcPaymentAmount := Some (sats 5000);
     wr_usdPaymentAmount := None;
     wr_inputAmount := 5000;
     wr_uncheckedAmount := None;
     wr_descriptionFromInvoice := "memo";
     wr_skipProbeForDestination := false;
     wr_senderWalletId := "senderWalletId";
     wr_senderWalletCurrency := WalletCurrency.Btc;
     wr_senderAccountId := "senderAccountId";
     wr_recipientWalletId := Some "recipientWalletId";
     wr_recipientWalletCurrency := Some WalletCurrency.Usd;
     wr_recipientPubkey := None;
     wr_recipientAccountId := Some "recipientAccountId";
     wr_recipientUsername := Some "recipient";
     wr_recipientUserId := Some "recipientUserId" |}.

(** Rate sources of which only the buy hedge answers. *)
Definition buyHedgeOnly : WithConversionArgs :=
  {| hedgeBuyUsd := sampleRateSource;
     hedgeSellUsd := failingRateSource;
     mid := failingRateSource |}.

(** Imports that read the final hops off the payment request. *)
Definition hopImports : Imports (RawRoute := Z) (Entropy := string) :=
  {| checkedToBtcPaymentAmount := sampleChecked WalletCurrency.Btc;
     checkedToUsdPaymentAmount := sampleChecked WalletCurrency.Usd;
     generateIntraLedgerHash entropy := entropy;
     parseFinalHopsFromInvoice := fun invoice => [LnInvoice.paymentRequest invoice; "hop"];
     LnFees := sampleLnFees;
     PriceRatio_from := samplePriceRatio_from |}.

(** What is published for a paid invoice and for an on-chain transaction. *)
Definition publishedInvoice : gmap string MeSubscription.JsValue :=
  {[ "paymentHash" := MeSubscription.JsString "paymentHash";
     "status" := MeSubscription.JsString "PAID";
     "walletId" := MeSubscription.JsString "walletId" ]}.

Definition publishedTransaction : gmap string MeSubscription.JsValue :=
  {[ "txHash" := MeSubscription.JsString "txHash";
     "amount" := MeSubscription.JsNumber 5000%float;
     "displayCurrencyPerSat" := MeSubscription.JsNumber 0.25%float;
     "resolveType" := MeSubscription.JsString "Custom" ]}.

Definition sampleSource
    (price : option MeSubscription.PriceUpdate)
    (invoice transaction : option (gmap string MeSubscription.JsValue))
    : MeSubscription.Source (GqlError := string) :=
  {| MeSubscription.errors := None;
     MeSubscription.price := price;
     MeSubscription.invoice := invoice;
     MeSubscription.transaction := transaction;
     MeSubscription.intraLedger := None |}.

Definition sampleContext (uid : option UserId)
    : MeSubscription.Context_ (DomainUser := string) :=
  {| MeSubscription.uid := uid;
     MeSubscription.domainUser := Some "domainUser" |}.

(** [resolve] with an offset of 12, and rounding and powers left as they
    are (the samples do not read the price). *)
Definition sampleResolve :=
  MeSubscription.resolve (GqlError := string) (DomainUser := string)
    12%float (fun x => x) (fun x _ => x) sampleNumber_toString.

(** * Properties *)

(** ** Promises *)

(** Awaiting a promise and going on with [k] settles to what [k] settles to on
    the value the promise settles to. *)
Lemma settle_then {IoRequest IoResponse A B} (world : IoRequest -> IoResponse)
    (p : Promise IoRequest IoResponse A) (k : A -> Promise IoRequest IoResponse B) :
  settle world (Promise_then p k) = settle world (k (settle world p)).
Proof. induction p as [v | q resume IH]; simpl; [reflexivity | apply IH]. Qed.

(** ** The payment flow builder *)

Section BuilderProperties.
Context {RawRoute IoRequest IoResponse Entropy : Type}.
Context `{!Imports (RawRoute := RawRoute) (Entropy := Entropy)}.

Local Abbreviation Builder' := (Builder (IoRequest := IoRequest) (IoResponse := IoResponse)).
Local Abbreviation Transition' :=
  (Transition (IoRequest := IoRequest) (IoResponse := IoResponse)).
Local Abbreviation WithConversionArgs' :=
  (WithConversionArgs (IoRequest := IoRequest) (IoResponse := IoResponse)).

(** *** Vocabulary of the statements *)

(** The destinations that settle inside the ledger. *)
Definition isLocalDestination
    (config : LightningPaymentFlowBuilderConfig) (destination : option Pubkey) : Prop :=
  match destination with
  | None => True
  | Some destination => In destination (localNodeIds config)
  end.

(** Settlement resolution, of a stage built from an invoice with destination
    [destination]: a stage with an invoice whose settlement method and fees
    follow from whether the destination is local. *)
Definition resolvesSettlement
    (config : LightningPaymentFlowBuilderConfig) (destination : option Pubkey)
    (b : Builder') : Prop :=
  exists state,
    b = LPFBWithInvoice state
    /\ (isLocalDestination config destination ->
        wi_settlementMethod state = SettlementMethod.IntraLedger
        /\ wi_btcProtocolAndBankFee state = Some (btc (intraLedgerFees LnFees))
        /\ wi_usdProtocolAndBankFee state = Some (usd (intraLedgerFees LnFees)))
    /\ (~ isLocalDestination config destination ->
        wi_settlementMethod state = SettlementMethod.Lightning
        /\ wi_btcProtocolAndBankFee state = None
        /\ wi_usdProtocolAndBankFee state = None).

(** The condition in the words of the design document and of the comment in
    the source: the explicit USD amount and the pending unchecked amount are
    both set or both unset. *)
Definition bothOrNeitherSet
    (usdPaymentAmount : option UsdPaymentAmount) (uncheckedAmount : option number)
    : bool :=
  Bool.eqb (isDefined usdPaymentAmount) (isDefined uncheckedAmount).

Local Abbreviation StatePromise' :=
  (Promise IoRequest IoResponse (LPFBWithConversionState + ApplicationError)).

(** The stage [b] carries the payment hash [paymentHash] and the intra-ledger
    hash [intraLedgerHash]; on a conversion stage this speaks of the state the
    pending conversion settles to, and the error stage carries no state. *)
Definition carriesHashes
    (paymentHash : option PaymentHash) (intraLedgerHash : option IntraLedgerHash)
    (b : Builder') : Prop :=
  match b with
  | LPFBWithInvoice state =>
      wi_paymentHash state = paymentHash /\ wi_intraLedgerHash state = intraLedgerHash
  | LPFBWithSenderWallet state =>
      ws_paymentHash state = paymentHash /\ ws_intraLedgerHash state = intraLedgerHash
  | LPFBWithRecipientWallet state =>
      wr_paymentHash state = paymentHash /\ wr_intraLedgerHash state = intraLedgerHash
  | LPFBWithConversion statePromise =>
      forall world state,
        settle world statePromise = inl state ->
        wc_paymentHash state = paymentHash /\ wc_intraLedgerHash state = intraLedgerHash
  | LPFBWithError _ => True
  end.

(** The three ways into the builder. *)
Inductive entryPoint (config : LightningPaymentFlowBuilderConfig) : Builder' -> Prop :=
| entry_withInvoice invoice :
    entryPoint config (withInvoice config invoice)
| entry_withNoAmountInvoice invoice uncheckedAmount :
    entryPoint config (withNoAmountInvoice config invoice uncheckedAmount)
| entry_withoutInvoice uncheckedAmount description entropy :
    entryPoint config (withoutInvoice config uncheckedAmount description entropy).

(** The hashes of a flow built by [paymentFromState] from a state with the
    hashes [paymentHash] and [intraLedgerHash]: the flow has exactly one hash,
    the payment hash if the state has a non-empty one, else the non-empty
    intra-ledger hash of the state. *)
Inductive flowHashes
    (paymentHash : option PaymentHash) (intraLedgerHash : option IntraLedgerHash)
    (flow : PaymentFlow (RawRoute := RawRoute)) : Prop :=
| flow_of_paymentHash hash :
    paymentHash = Some hash ->
    String_toBoolean hash = true ->
    pf_paymentHash flow = Some hash ->
    pf_intraLedgerHash flow = None ->
    flowHashes paymentHash intraLedgerHash flow
| flow_of_intraLedgerHash hash :
    optional_toBoolean String_toBoolean paymentHash = false ->
    intraLedgerHash = Some hash ->
    String_toBoolean hash = true ->
    pf_paymentHash flow = None ->
    pf_intraLedgerHash flow = Some hash ->
    flowHashes paymentHash intraLedgerHash flow.

(** A property of the state of each stage; on a conversion stage it speaks of
    the state the pending conversion settles to, and the error stage has no
    state. *)
Definition stageInvariant
    (ofInvoice : LPFBWithInvoiceState -> Prop)
    (ofSenderWallet : LPFBWithSenderWalletState -> Prop)
    (ofRecipientWallet : LPFBWithRecipientWalletState -> Prop)
    (ofConversion : LPFBWithConversionState -> Prop)
    (b : Builder') : Prop :=
  match b with
  | LPFBWithInvoice state => ofInvoice state
  | LPFBWithSenderWallet state => ofSenderWallet state
  | LPFBWithRecipientWallet state => ofRecipientWallet state
  | LPFBWithConversion statePromise =>
      forall world state, settle world statePromise = inl state -> ofConversion state
  | LPFBWithError _ => True
  end.

(** One of the two terminal operations, on the stage [b], answers with
    [promise]. *)
Definition terminalCall (b : Builder')
    (promise : Promise IoRequest IoResponse
                 (PaymentFlow (RawRoute := RawRoute) + ApplicationError)) : Prop :=
  withoutRoute b = Normal promise
  \/ exists pubkey rawRoute, withRoute b pubkey rawRoute = Normal promise.

(** The amount and the fee of one currency at least are known. *)
Definition oneSideKnown
    (btcAmount btcFee : option BtcPaymentAmount)
    (usdAmount usdFee : option UsdPaymentAmount) : bool :=
  (isDefined btcAmount && isDefined btcFee)
  || (isDefined usdAmount && isDefined usdFee).

(** The rate source [withConversion] turns to when it needs a rate: the mid
    rate when no conversion is required, else the hedge for the side the
    sender pays from. *)
Definition rateSourceFor
    (state : LPFBWithRecipientWalletState) (args : WithConversionArgs')
    : RateSource (IoRequest := IoRequest) (IoResponse := IoResponse) :=
  if noConversionRequired state then mid args
  else
    match wr_senderWalletCurrency state with
    | WalletCurrency.Btc => hedgeBuyUsd args
    | WalletCurrency.Usd => hedgeSellUsd args
    end.

(** [withConversion] has everything it needs in the state: both amounts and
    both fees are known and either no conversion is required or the recipient
    wallet is a USD wallet. *)
Definition conversionKnown (state : LPFBWithRecipientWalletState) : bool :=
  isDefined (wr_btcPaymentAmount state)
  && isDefined (wr_btcProtocolAndBankFee state)
  && isDefined (wr_usdPaymentAmount state)
  && isDefined (wr_usdProtocolAndBankFee state)
  && (noConversionRequired state
      || match wr_recipientWalletCurrency state with
         | Some WalletCurrency.Usd => true
         | _ => false
         end).

(** A state has a hash [paymentFromState] accepts. *)
Definition hasHash (state : LPFBWithConversionState) : bool :=
  optional_toBoolean String_toBoolean (wc_paymentHash state)
  || optional_toBoolean String_toBoolean (wc_intraLedgerHash state).

(** From the sender-wallet stage on, the stage knows the BTC amount
    [paymentAmount] and a BTC fee, and has the input amount [inputAmount]. *)
Definition btcAmountFixed (paymentAmount : BtcPaymentAmount) (inputAmount : Z)
    : Builder' -> Prop :=
  stageInvariant
    (fun _ => False)
    (fun state =>
       ws_btcPaymentAmount state = Some paymentAmount
       /\ isDefined (ws_btcProtocolAndBankFee state) = true
       /\ ws_inputAmount state = inputAmount)
    (fun state =>
       wr_btcPaymentAmount state = Some paymentAmount
       /\ isDefined (wr_btcProtocolAndBankFee state) = true
       /\ wr_inputAmount state = inputAmount)
    (fun state =>
       wc_btcPaymentAmount state = paymentAmount
       /\ wc_inputAmount state = inputAmount).

(** From the recipient-wallet stage on, the stage knows no BTC amount and the
    USD amount [paymentAmount]. *)
Definition usdAmountFixed (paymentAmount : UsdPaymentAmount) : Builder' -> Prop :=
  stageInvariant
    (fun _ => False)
    (fun _ => False)
    (fun state =>
       wr_btcPaymentAmount state = None
       /\ wr_usdPaymentAmount state = Some paymentAmount)
    (fun state => wc_usdPaymentAmount state = paymentAmount).

(** *** Sticky errors *)

Lemma call_on_error (error : ApplicationError) (t : Transition') :
  call (LPFBWithError error) t = Normal (LPFBWithError error).
Proof. destruct t; reflexivity. Qed.

Lemma chain_on_error (error : ApplicationError) (ts : list Transition') :
  chain (LPFBWithError error) ts = Normal (LPFBWithError error).
Proof.
  induction ts as [| t ts IH]; simpl.
  - reflexivity.
  - rewrite call_on_error. exact IH.
Qed.

Lemma projectState_failed {A} world
    (statePromise : Promise IoRequest IoResponse (LPFBWithConversionState + ApplicationError))
    (project : LPFBWithConversionState -> A) error :
  settle world statePromise = inr error ->
  settle world (projectState statePromise project) = inr error.
Proof.
  intros Hfailed. unfold projectState.
  rewrite settle_then, Hfailed. reflexivity.
Qed.

(** C1.  Once a transition has yielded an error, every later operation returns
    that error.  On the error stage [LPFBWithError error]: each of the four
    stage-to-stage operations returns the error stage of the same error, hence
    so does every chain of them, whatever their arguments; each of the seven
    promise-returning operations returns a promise resolved to that error.  On
    a conversion stage whose pending conversion fails with [error] (a dealer
    price or price ratio failure): each of the seven operations that stage has
    settles to that error. *)
Theorem sticky_error_propagation (error : ApplicationError) :
  (forall senderWallet,
      withSenderWallet (LPFBWithError error : Builder') senderWallet
      = Normal (LPFBWithError error))
  /\ withoutRecipientWallet (LPFBWithError error : Builder')
     = Normal (LPFBWithError error)
  /\ (forall recipient,
         withRecipientWallet (LPFBWithError error : Builder') recipient
         = Normal (LPFBWithError error))
  /\ (forall args now,
         withConversion (LPFBWithError error : Builder') args now
         = Normal (LPFBWithError error))
  /\ (forall ts : list Transition',
         chain (LPFBWithError error) ts = Normal (LPFBWithError error))
  /\ (forall pubkey (rawRoute : RawRoute),
         withRoute (LPFBWithError error : Builder') pubkey rawRoute
         = Normal (Resolved (inr error)))
  /\ withoutRoute (RawRoute := RawRoute) (LPFBWithError error : Builder') = Normal (Resolved (inr error))
  /\ skipProbeForDestination (LPFBWithError error : Builder')
     = Normal (Resolved (inr error))
  /\ isIntraLedger (LPFBWithError error : Builder')
     = Normal (Promised (Resolved (inr error)))
  /\ isTradeIntraAccount (LPFBWithError error : Builder')
     = Normal (Resolved (inr error))
  /\ btcPaymentAmount (LPFBWithError error : Builder') = Normal (Resolved (inr error))
  /\ usdPaymentAmount (LPFBWithError error : Builder') = Normal (Resolved (inr error))
  /\ (forall (world : IoRequest -> IoResponse) statePromise,
         settle world statePromise = inr error ->
         (forall pubkey (rawRoute : RawRoute),
             settle world (LPFBWithConversion_withRoute statePromise pubkey rawRoute)
             = inr error)
         /\ settle world (LPFBWithConversion_withoutRoute (RawRoute := RawRoute) statePromise) = inr error
         /\ settle world (LPFBWithConversion_skipProbeForDestination statePromise)
            = inr error
         /\ settle world (LPFBWithConversion_isIntraLedger statePromise) = inr error
         /\ settle world (LPFBWithConversion_isTradeIntraAccount statePromise)
            = inr error
         /\ settle world (LPFBWithConversion_btcPaymentAmount statePromise) = inr error
         /\ settle world (LPFBWithConversion_usdPaymentAmount statePromise) = inr error).
Proof.
  repeat split; try reflexivity.
  - apply chain_on_error.
  - intros pubkey rawRoute. unfold LPFBWithConversion_withRoute.
    rewrite settle_then. match goal with Hf : settle _ _ = _ |- _ => rewrite Hf end.
    reflexivity.
  - unfold LPFBWithConversion_withoutRoute.
    rewrite settle_then. match goal with Hf : settle _ _ = _ |- _ => rewrite Hf end.
    reflexivity.
  - now apply projectState_failed.
  - now apply projectState_failed.
  - now apply projectState_failed.
  - now apply projectState_failed.
  - now apply projectState_failed.
Qed.

(** *** Settlement resolution *)

Lemma Array_includes_In (xs : list string) (x : string) :
  Array_includes xs x = true <-> In x xs.
Proof.
  unfold Array_includes. rewrite existsb_exists. split.
  - intros (y & Hin & Heq). apply String.eqb_eq in Heq. now subst.
  - intros Hin. exists x. split; [exact Hin | apply String.eqb_refl].
Qed.

Lemma settlementMethodFromDestination_local config destination :
  isLocalDestination config destination ->
  settlementMethodFromDestination config destination
  = {| settlementMethod := SettlementMethod.IntraLedger;
       btcProtocolAndBankFee := Some (btc (intraLedgerFees LnFees));
       usdProtocolAndBankFee := Some (usd (intraLedgerFees LnFees)) |}.
Proof.
  unfold settlementMethodFromDestination, isLocalDestination.
  destruct destination as [d |]; [| reflexivity].
  intros Hin. apply Array_includes_In in Hin. rewrite Hin. reflexivity.
Qed.

Lemma settlementMethodFromDestination_remote config destination :
  ~ isLocalDestination config destination ->
  settlementMethodFromDestination config destination
  = {| settlementMethod := SettlementMethod.Lightning;
       btcProtocolAndBankFee := None;
       usdProtocolAndBankFee := None |}.
Proof.
  unfold settlementMethodFromDestination, isLocalDestination.
  destruct destination as [d |]; [| tauto].
  intros Hnotin. destruct (Array_includes (localNodeIds config) d) eqn:Hincl.
  - apply Array_includes_In in Hincl. contradiction.
  - reflexivity.
Qed.

(** C3.  A destination that is undefined or one of [config.localNodeIds]
    resolves to settlement method IntraLedger with the intra-ledger fee pair
    attached; any other destination resolves to Lightning with no fee.  This
    holds of [settlementMethodFromDestination] for every destination, and so
    of the stage [withNoAmountInvoice] returns for every invoice and of the
    stage [withInvoice] returns for every invoice that carries an amount (one
    that carries none is answered with the error stage before anything is
    resolved); [withoutInvoice] always resolves to IntraLedger, with the fee
    pair. *)
Theorem settlement_resolution
    (config : LightningPaymentFlowBuilderConfig) (invoice : LnInvoice.t) :
  (forall destination,
      (isLocalDestination config destination ->
       settlementMethodFromDestination config destination
       = {| settlementMethod := SettlementMethod.IntraLedger;
            btcProtocolAndBankFee := Some (btc (intraLedgerFees LnFees));
            usdProtocolAndBankFee := Some (usd (intraLedgerFees LnFees)) |})
      /\ (~ isLocalDestination config destination ->
          settlementMethodFromDestination config destination
          = {| settlementMethod := SettlementMethod.Lightning;
               btcProtocolAndBankFee := None;
               usdProtocolAndBankFee := None |}))
  /\ (forall uncheckedAmount,
      resolvesSettlement config (LnInvoice.destination invoice)
        (withNoAmountInvoice config invoice uncheckedAmount))
  /\ match LnInvoice.paymentAmount invoice with
     | Some _ =>
         resolvesSettlement config (LnInvoice.destination invoice)
           (withInvoice config invoice)
     | None =>
         (withInvoice config invoice : Builder')
         = LPFBWithError
             (InvalidLightningPaymentFlowBuilderStateError
                "withInvoice - paymentAmount missing")
     end
  /\ (forall uncheckedAmount description entropy,
         exists state,
           (withoutInvoice config uncheckedAmount description entropy : Builder')
           = LPFBWithInvoice state
           /\ wi_settlementMethod state = SettlementMethod.IntraLedger
           /\ wi_btcProtocolAndBankFee state = Some (btc (intraLedgerFees LnFees))
           /\ wi_usdProtocolAndBankFee state = Some (usd (intraLedgerFees LnFees))).
Proof.
  split; [| split; [| split] ].
  - intros destination. split.
    + apply settlementMethodFromDestination_local.
    + apply settlementMethodFromDestination_remote.
  - intros uncheckedAmount. unfold resolvesSettlement, withNoAmountInvoice.
    eexists. split; [reflexivity |].
    cbn [wi_settlementMethod wi_btcProtocolAndBankFee wi_usdProtocolAndBankFee].
    split; intros Hdest.
    + rewrite (settlementMethodFromDestination_local _ _ Hdest). simpl. auto.
    + rewrite (settlementMethodFromDestination_remote _ _ Hdest). simpl. auto.
  - unfold withInvoice, resolvesSettlement.
    destruct (LnInvoice.paymentAmount invoice) as [paymentAmount |]; [| reflexivity].
    eexists. split; [reflexivity |].
    cbn [wi_settlementMethod wi_btcProtocolAndBankFee wi_usdProtocolAndBankFee].
    split; intros Hdest.
    + rewrite (settlementMethodFromDestination_local _ _ Hdest). simpl. auto.
    + rewrite (settlementMethodFromDestination_remote _ _ Hdest). simpl. auto.
  - intros uncheckedAmount description entropy. unfold withoutInvoice.
    eexists. split; [reflexivity |]. simpl. auto.
Qed.

(** *** The recipient wallet *)

(** C5.  A recipient wallet whose id is the sender wallet's id is answered with
    a self-payment error, whatever the other fields of the argument and of
    the state. *)
Theorem self_payment_rejection
    (state : LPFBWithSenderWalletState) (recipient : RecipientWallet.t) :
  RecipientWallet.id recipient = ws_senderWalletId state ->
  withRecipientWallet (LPFBWithSenderWallet state : Builder') recipient
  = Normal (LPFBWithError SelfPaymentError).
Proof.
  intros Hsame. simpl. unfold LPFBWithSenderWallet_withRecipientWallet.
  rewrite Hsame, String.eqb_refl. reflexivity.
Qed.

(** The check of [withRecipientWallet], once the self-payment test has
    passed. *)
Lemma withRecipientWallet_checks
    (state : LPFBWithSenderWalletState) (recipient : RecipientWallet.t) :
  RecipientWallet.id recipient <> ws_senderWalletId state ->
  (LPFBWithSenderWallet_withRecipientWallet state recipient : Builder')
  = if WalletCurrency.eqb (RecipientWallet.currency recipient) WalletCurrency.Usd
       && Bool.eqb (isDefined (RecipientWallet.usdPaymentAmount recipient))
                   (optional_toBoolean Number_toBoolean (ws_uncheckedAmount state))
    then
      LPFBWithError
        (InvalidLightningPaymentFlowBuilderStateError
           "withRecipientWallet incorrect combination of usdPaymentAmount and uncheckedAmount")
    else
      LPFBWithRecipientWallet
        (spreadRecipientWallet state
           (Some (RecipientWallet.id recipient))
           (Some (RecipientWallet.currency recipient))
           (RecipientWallet.pubkey recipient)
           (Some (RecipientWallet.accountId recipient))
           (RecipientWallet.username recipient)
           (Some (RecipientWallet.userId recipient))
           (orElse (RecipientWallet.usdPaymentAmount recipient)
                   (ws_usdPaymentAmount state))).
Proof.
  intros Hother. unfold LPFBWithSenderWallet_withRecipientWallet.
  apply String.eqb_neq in Hother. rewrite Hother. reflexivity.
Qed.


Lemma Number_toBoolean_zero (n : number) :
  PrimFloat.eqb n 0%float = true -> Number_toBoolean n = false.
Proof. intros Hzero. unfold Number_toBoolean. rewrite Hzero. reflexivity. Qed.

(** C10.  The check tests truthiness: a pending unchecked amount equal to zero
    counts as unset.  For a USD recipient other than the sender and a state
    whose unchecked amount is zero, the call succeeds when an explicit USD
    amount is given (and carries that amount on), and fails with the builder
    state error when none is given; a test of presence would decide both cases
    the other way round. *)
Theorem zero_unchecked_amount_counts_as_absent
    (state : LPFBWithSenderWalletState) (recipient : RecipientWallet.t)
    (zero : number) :
  ws_uncheckedAmount state = Some zero ->
  PrimFloat.eqb zero 0%float = true ->
  RecipientWallet.currency recipient = WalletCurrency.Usd ->
  RecipientWallet.id recipient <> ws_senderWalletId state ->
  (forall explicitAmount,
      RecipientWallet.usdPaymentAmount recipient = Some explicitAmount ->
      withRecipientWallet (LPFBWithSenderWallet state : Builder') recipient
      = Normal
          (LPFBWithRecipientWallet
             (spreadRecipientWallet state
                (Some (RecipientWallet.id recipient))
                (Some WalletCurrency.Usd)
                (RecipientWallet.pubkey recipient)
                (Some (RecipientWallet.accountId recipient))
                (RecipientWallet.username recipient)
                (Some (RecipientWallet.userId recipient))
                (Some explicitAmount)))
      /\ bothOrNeitherSet (Some explicitAmount) (ws_uncheckedAmount state) = true)
  /\ (RecipientWallet.usdPaymentAmount recipient = None ->
      withRecipientWallet (LPFBWithSenderWallet state : Builder') recipient
      = Normal
          (LPFBWithError
             (InvalidLightningPaymentFlowBuilderStateError
                "withRecipientWallet incorrect combination of usdPaymentAmount and uncheckedAmount"))
      /\ bothOrNeitherSet None (ws_uncheckedAmount state) = false).
Proof.
  intros Hunchecked Hzero Husd Hother.
  cbn [withRecipientWallet].
  rewrite (withRecipientWallet_checks _ _ Hother), Husd, Hunchecked.
  cbn [optional_toBoolean]. rewrite (Number_toBoolean_zero _ Hzero).
  split.
  - intros explicitAmount Hexplicit. rewrite Hexplicit. split; reflexivity.
  - intros Hnone. rewrite Hnone. split; reflexivity.
Qed.

(** *** The sender wallet *)

(** C4, where the code departs from it.  [withSenderWallet] on the stage
    [withInvoice] builds from an invoice whose payment amount is zero throws
    ["withSenderWallet impossible"]: [inputAmount] is [0n], which is falsy, so
    the branch for an amount-carrying invoice is not taken. *)
Theorem withSenderWallet_throws_on_zero_amount
    (config : LightningPaymentFlowBuilderConfig) (invoice : LnInvoice.t)
    (paymentAmount : BtcPaymentAmount) (senderWallet : WalletDescriptor.t) :
  LnInvoice.paymentAmount invoice = Some paymentAmount ->
  amount paymentAmount = 0 ->
  withSenderWallet (withInvoice config invoice : Builder') senderWallet
  = Throw "withSenderWallet impossible".
Proof.
  intros Hamount Hzero. unfold withInvoice. rewrite Hamount.
  cbn. rewrite Hzero. reflexivity.
Qed.

(** X22.  Everywhere else [withSenderWallet] returns and does not throw: on
    the stages of [withNoAmountInvoice] and [withoutInvoice], whatever the
    unchecked amount and the sender wallet, on the stage of [withInvoice] for
    a non-zero amount, and on the error stage [withInvoice] answers with for
    an invoice without an amount. *)
Lemma withSenderWallet_returns_elsewhere
    (config : LightningPaymentFlowBuilderConfig) (invoice : LnInvoice.t)
    (senderWallet : WalletDescriptor.t) :
  (forall uncheckedAmount,
      exists b : Builder',
        withSenderWallet (withNoAmountInvoice config invoice uncheckedAmount)
          senderWallet = Normal b)
  /\ (forall uncheckedAmount description entropy,
         exists b : Builder',
           withSenderWallet
             (withoutInvoice config uncheckedAmount description entropy)
             senderWallet = Normal b)
  /\ (forall paymentAmount,
         LnInvoice.paymentAmount invoice = Some paymentAmount ->
         amount paymentAmount <> 0 ->
         exists b : Builder',
           withSenderWallet (withInvoice config invoice) senderWallet = Normal b)
  /\ (LnInvoice.paymentAmount invoice = None ->
      exists b : Builder',
        withSenderWallet (withInvoice config invoice) senderWallet = Normal b).
Proof.
  repeat split.
  - intros uncheckedAmount. cbn.
    destruct (WalletDescriptor.currency senderWallet);
      [destruct (checkedToBtcPaymentAmount uncheckedAmount)
      | destruct (checkedToUsdPaymentAmount uncheckedAmount)];
      eexists; reflexivity.
  - intros uncheckedAmount description entropy. cbn.
    destruct (WalletDescriptor.currency senderWallet);
      [destruct (checkedToBtcPaymentAmount uncheckedAmount)
      | destruct (checkedToUsdPaymentAmount uncheckedAmount)];
      eexists; reflexivity.
  - intros paymentAmount Hamount Hnonzero. unfold withInvoice. rewrite Hamount.
    cbn. unfold BigInt_toBoolean.
    apply Z.eqb_neq in Hnonzero. rewrite Hnonzero. eexists; reflexivity.
  - intros Hnone. unfold withInvoice. rewrite Hnone. eexists; reflexivity.
Qed.

(** A pending unchecked amount was validated: on the sender-wallet stage
    [withSenderWallet] returns for a stage of an entry point, an unchecked
    amount that is set is one the validator of the sender wallet's currency
    accepted. *)
Lemma unchecked_amount_was_validated
    (config : LightningPaymentFlowBuilderConfig) (entry : Builder')
    (senderWallet : WalletDescriptor.t) (state : LPFBWithSenderWalletState)
    (uncheckedAmount : number) :
  entryPoint config entry ->
  withSenderWallet entry senderWallet = Normal (LPFBWithSenderWallet state) ->
  ws_uncheckedAmount state = Some uncheckedAmount ->
  match WalletDescriptor.currency senderWallet with
  | WalletCurrency.Btc =>
      exists paymentAmount,
        checkedToBtcPaymentAmount uncheckedAmount = inl paymentAmount
  | WalletCurrency.Usd =>
      exists paymentAmount,
        checkedToUsdPaymentAmount uncheckedAmount = inl paymentAmount
  end.
Proof.
  intros Hentry Hcall Hunchecked.
  destruct Hentry as [invoice | invoice unchecked | unchecked description entropy].
  - unfold withInvoice in Hcall.
    destruct (LnInvoice.paymentAmount invoice); [| discriminate].
    cbn in Hcall. destruct (BigInt_toBoolean _); [| discriminate].
    injection Hcall as <-. discriminate.
  - cbn in Hcall.
    destruct (WalletDescriptor.currency senderWallet);
      [destruct (checkedToBtcPaymentAmount unchecked) eqn:Hchecked
      | destruct (checkedToUsdPaymentAmount unchecked) eqn:Hchecked];
      try discriminate; injection Hcall as <-;
      injection Hunchecked as <-; eauto.
  - cbn in Hcall.
    destruct (WalletDescriptor.currency senderWallet);
      [destruct (checkedToBtcPaymentAmount unchecked) eqn:Hchecked
      | destruct (checkedToUsdPaymentAmount unchecked) eqn:Hchecked];
      try discriminate; injection Hcall as <-;
      injection Hunchecked as <-; eauto.
Qed.

(** *** Conversion *)

(** C7.  When no conversion is required and both amounts and both fees are
    known, [withConversion] answers with a conversion stage whose state is
    already resolved: no rate source is called, so the result is the same for
    any two triples of rate sources, and it meets no suspension. *)
Theorem no_conversion_shortcut
    (state : LPFBWithRecipientWalletState) (now : Z)
    (btcAmount btcFee : BtcPaymentAmount) (usdAmount usdFee : UsdPaymentAmount)
    (args args' : WithConversionArgs') :
  noConversionRequired state = true ->
  wr_btcPaymentAmount state = Some btcAmount ->
  wr_usdPaymentAmount state = Some usdAmount ->
  wr_btcProtocolAndBankFee state = Some btcFee ->
  wr_usdProtocolAndBankFee state = Some usdFee ->
  withConversion (LPFBWithRecipientWallet state) args now
  = Normal
      (LPFBWithConversion
         (Resolved (inl (spreadConversion state now btcAmount usdAmount btcFee usdFee))))
  /\ withConversion (LPFBWithRecipientWallet state) args now
     = withConversion (LPFBWithRecipientWallet state) args' now
  /\ (forall world statePromise,
         withConversion (LPFBWithRecipientWallet state) args now
         = Normal (LPFBWithConversion statePromise) ->
         suspensions world statePromise = O).
Proof.
  intros Hno Hbtc Husd HbtcFee HusdFee.
  assert (Hshortcut : forall a : WithConversionArgs',
             withConversion (LPFBWithRecipientWallet state) a now
             = Normal
                 (LPFBWithConversion
                    (Resolved (inl (spreadConversion state now
                                      btcAmount usdAmount btcFee usdFee))))).
  { intros a. cbn [withConversion].
    unfold LPFBWithRecipientWallet_withConversion.
    rewrite Hno, Hbtc, Husd, HbtcFee, HusdFee. reflexivity. }
  split; [apply Hshortcut | split].
  - rewrite (Hshortcut args), (Hshortcut args'). reflexivity.
  - intros world statePromise Hresult. rewrite Hshortcut in Hresult.
    injection Hresult as <-. reflexivity.
Qed.

(** *** The hashes of a payment *)

Lemma updatedStateFromBtcPaymentAmount_hashes
    state createdAt usdFromBtc btcFee btcAmount
    (world : IoRequest -> IoResponse) (state' : LPFBWithConversionState) :
  settle world
    (updatedStateFromBtcPaymentAmount state createdAt usdFromBtc btcFee btcAmount)
  = inl state' ->
  wc_paymentHash state' = wr_paymentHash state
  /\ wc_intraLedgerHash state' = wr_intraLedgerHash state.
Proof.
  unfold updatedStateFromBtcPaymentAmount. rewrite settle_then.
  destruct (settle world (usdFromBtc btcAmount)) as [converted | error];
    [| discriminate].
  destruct (PriceRatio_from converted btcAmount) as [priceRatio | error];
    [| discriminate].
  cbn. intros [= <-]. split; reflexivity.
Qed.

Lemma updatedStateFromUsdPaymentAmount_hashes
    state createdAt btcFromUsd usdFee usdAmount
    (world : IoRequest -> IoResponse) (state' : LPFBWithConversionState) :
  settle world
    (updatedStateFromUsdPaymentAmount state createdAt btcFromUsd usdFee usdAmount)
  = inl state' ->
  wc_paymentHash state' = wr_paymentHash state
  /\ wc_intraLedgerHash state' = wr_intraLedgerHash state.
Proof.
  unfold updatedStateFromUsdPaymentAmount. rewrite settle_then.
  destruct (settle world (btcFromUsd usdAmount)) as [converted | error];
    [| discriminate].
  destruct (PriceRatio_from usdAmount converted) as [priceRatio | error];
    [| discriminate].
  cbn. intros [= <-]. split; reflexivity.
Qed.

Lemma withConversion_hashes
    (state : LPFBWithRecipientWalletState) (args : WithConversionArgs') now :
  carriesHashes (wr_paymentHash state) (wr_intraLedgerHash state)
    (LPFBWithRecipientWallet_withConversion state args now).
Proof.
  unfold LPFBWithRecipientWallet_withConversion.
  destruct (noConversionRequired state);
    destruct (wr_btcPaymentAmount state), (wr_btcProtocolAndBankFee state),
             (wr_usdPaymentAmount state), (wr_usdProtocolAndBankFee state);
    try destruct (wr_recipientWalletCurrency state) as [[|] |];
    cbn [carriesHashes]; try exact I;
    intros world state';
    try (cbn; intros [= <-]; split; reflexivity);
    first [ apply updatedStateFromBtcPaymentAmount_hashes
          | apply updatedStateFromUsdPaymentAmount_hashes ].
Qed.

Lemma call_carriesHashes paymentHash intraLedgerHash (b b' : Builder') t :
  carriesHashes paymentHash intraLedgerHash b ->
  call b t = Normal b' ->
  carriesHashes paymentHash intraLedgerHash b'.
Proof.
  intros Hcarries Hcall.
  destruct t as [senderWallet | | recipient | args now];
    destruct b as [state | state | state | statePromise | error];
    cbn in Hcall; try discriminate;
    try (injection Hcall as <-; exact I).
  - (* withSenderWallet *)
    destruct Hcarries as [<- <-].
    unfold LPFBWithInvoice_withSenderWallet in Hcall.
    destruct (wi_uncheckedAmount state) as [uncheckedAmount |].
    + destruct (WalletDescriptor.currency senderWallet);
        [destruct (checkedToBtcPaymentAmount uncheckedAmount)
        | destruct (checkedToUsdPaymentAmount uncheckedAmount)];
        injection Hcall as <-; cbn; auto.
    + destruct (wi_inputAmount state) as [inputAmount |]; [| discriminate].
      destruct (wi_btcPaymentAmount state); [| discriminate].
      destruct (BigInt_toBoolean inputAmount); [| discriminate].
      injection Hcall as <-; cbn; auto.
  - (* withoutRecipientWallet *)
    destruct Hcarries as [<- <-].
    unfold LPFBWithSenderWallet_withoutRecipientWallet in Hcall.
    destruct (SettlementMethod.eqb _ _); injection Hcall as <-; cbn; auto.
  - (* withRecipientWallet *)
    destruct Hcarries as [<- <-].
    unfold LPFBWithSenderWallet_withRecipientWallet in Hcall.
    destruct (String.eqb _ _); [injection Hcall as <-; exact I |].
    destruct (_ && _); injection Hcall as <-; cbn; auto.
  - (* withConversion *)
    destruct Hcarries as [<- <-].
    injection Hcall as <-. apply withConversion_hashes.
Qed.

Lemma chain_carriesHashes paymentHash intraLedgerHash (ts : list Transition') :
  forall b b' : Builder',
    carriesHashes paymentHash intraLedgerHash b ->
    chain b ts = Normal b' ->
    carriesHashes paymentHash intraLedgerHash b'.
Proof.
  induction ts as [| t ts IH]; intros b b' Hcarries Hchain; cbn in Hchain.
  - injection Hchain as <-. exact Hcarries.
  - destruct (call b t) as [b1 | message] eqn:Hcall; [| discriminate].
    eapply IH; [| exact Hchain].
    eapply call_carriesHashes; eassumption.
Qed.

(** A stage an entry point returns carries exactly one of the two hashes. *)
Lemma entryPoint_hashes config (b : Builder') :
  entryPoint config b ->
  exists paymentHash intraLedgerHash,
    carriesHashes paymentHash intraLedgerHash b
    /\ xorb (isDefined paymentHash) (isDefined intraLedgerHash) = true.
Proof.
  intros [invoice | invoice uncheckedAmount | uncheckedAmount description entropy].
  - exists (Some (LnInvoice.paymentHash invoice)), None. split; [| reflexivity].
    unfold withInvoice. destruct (LnInvoice.paymentAmount invoice); cbn; auto.
  - exists (Some (LnInvoice.paymentHash invoice)), None. cbn. auto.
  - exists None, (Some (generateIntraLedgerHash entropy)). cbn. auto.
Qed.

Lemma paymentFromState_flow (state : LPFBWithRouteState (RawRoute := RawRoute)) flow :
  paymentFromState state = inl flow ->
  flowHashes (rt_paymentHash state) (rt_intraLedgerHash state) flow.
Proof.
  unfold paymentFromState.
  destruct (rt_paymentHash state) as [paymentHash |]; cbn.
  - destruct (String_toBoolean paymentHash) eqn:Htruthy.
    + intros [= <-]. now apply flow_of_paymentHash with paymentHash.
    + destruct (rt_intraLedgerHash state) as [intraLedgerHash |];
        cbn; [| discriminate].
      destruct (String_toBoolean intraLedgerHash) eqn:Htruthy'; [| discriminate].
      intros [= <-]. now apply flow_of_intraLedgerHash with intraLedgerHash.
  - destruct (rt_intraLedgerHash state) as [intraLedgerHash |];
      cbn; [| discriminate].
    destruct (String_toBoolean intraLedgerHash) eqn:Htruthy'; [| discriminate].
    intros [= <-]. now apply flow_of_intraLedgerHash with intraLedgerHash.
Qed.

Lemma paymentFromState_no_hash (state : LPFBWithRouteState (RawRoute := RawRoute)) :
  rt_paymentHash state = None ->
  rt_intraLedgerHash state = None ->
  paymentFromState state = inr InvalidLightningPaymentFlowStateError.
Proof.
  intros HpaymentHash Hintra. unfold paymentFromState.
  rewrite HpaymentHash, Hintra. reflexivity.
Qed.

(** The state [withoutRoute] and [withRoute] hand to [paymentFromState] has
    the hashes of the resolved conversion state. *)
Lemma withoutRoute_settles world (statePromise : StatePromise') state :
  settle world statePromise = inl state ->
  settle world (LPFBWithConversion_withoutRoute (RawRoute := RawRoute) statePromise)
  = paymentFromState
      (spreadRoute state None None
         (wc_btcProtocolAndBankFee state) (wc_usdProtocolAndBankFee state)).
Proof.
  intros Hstate. unfold LPFBWithConversion_withoutRoute.
  rewrite settle_then, Hstate. reflexivity.
Qed.

Lemma withRoute_settles world (statePromise : StatePromise') state pubkey rawRoute :
  settle world statePromise = inl state ->
  settle world (LPFBWithConversion_withRoute statePromise pubkey rawRoute)
  = match PriceRatio_from (wc_usdPaymentAmount state) (wc_btcPaymentAmount state) with
    | inr error => inr error
    | inl priceRatio =>
        match feeFromRawRoute LnFees rawRoute with
        | inr error => inr error
        | inl btcFee =>
            paymentFromState
              (spreadRoute state (Some pubkey) (Some rawRoute)
                 btcFee (convertFromBtcToCeil priceRatio btcFee))
        end
    end.
Proof.
  intros Hstate. unfold LPFBWithConversion_withRoute.
  rewrite settle_then, Hstate.
  destruct (PriceRatio_from _ _); [| reflexivity].
  destruct (feeFromRawRoute _ _); reflexivity.
Qed.

Lemma withoutRoute_flow world (statePromise : StatePromise') state flow :
  settle world statePromise = inl state ->
  settle world (LPFBWithConversion_withoutRoute statePromise) = inl flow ->
  flowHashes (wc_paymentHash state) (wc_intraLedgerHash state) flow.
Proof.
  intros Hstate. rewrite (withoutRoute_settles _ _ _ Hstate).
  intros Hflow. apply paymentFromState_flow in Hflow. exact Hflow.
Qed.

Lemma withRoute_flow world (statePromise : StatePromise') state pubkey rawRoute flow :
  settle world statePromise = inl state ->
  settle world (LPFBWithConversion_withRoute statePromise pubkey rawRoute) = inl flow ->
  flowHashes (wc_paymentHash state) (wc_intraLedgerHash state) flow.
Proof.
  intros Hstate. rewrite (withRoute_settles _ _ _ _ _ Hstate).
  destruct (PriceRatio_from _ _); [| discriminate].
  destruct (feeFromRawRoute _ _); [| discriminate].
  intros Hflow. apply paymentFromState_flow in Hflow. exact Hflow.
Qed.

(** Whatever stage a chain ends in, a flow one of the two terminal operations
    builds there has its hash from the hashes the chain carried. *)
Lemma terminal_flow_hashes paymentHash intraLedgerHash (b : Builder') world
    (promise : Promise IoRequest IoResponse (PaymentFlow + ApplicationError)) flow :
  carriesHashes paymentHash intraLedgerHash b ->
  (withoutRoute b = Normal promise
   \/ exists pubkey rawRoute, withRoute b pubkey rawRoute = Normal promise) ->
  settle world promise = inl flow ->
  flowHashes paymentHash intraLedgerHash flow.
Proof.
  intros Hcarries Hterminal Hflow.
  destruct b as [state | state | state | statePromise | error];
    try (destruct Hterminal as [Hcall | (pubkey & rawRoute & Hcall)];
         cbn in Hcall; discriminate).
  - cbn in Hcarries.
    destruct (settle world statePromise) as [state | error] eqn:Hstate.
    + destruct (Hcarries _ _ Hstate) as [<- <-].
      destruct Hterminal as [Hcall | (pubkey & rawRoute & Hcall)];
        cbn in Hcall; injection Hcall as <-.
      * eapply withoutRoute_flow; eassumption.
      * eapply withRoute_flow; eassumption.
    + destruct Hterminal as [Hcall | (pubkey & rawRoute & Hcall)];
        cbn in Hcall; injection Hcall as <-.
      * unfold LPFBWithConversion_withoutRoute in Hflow.
        rewrite settle_then, Hstate in Hflow. discriminate.
      * unfold LPFBWithConversion_withRoute in Hflow.
        rewrite settle_then, Hstate in Hflow. discriminate.
  - destruct Hterminal as [Hcall | (pubkey & rawRoute & Hcall)];
      cbn in Hcall; injection Hcall as <-; discriminate.
Qed.

(** C6.  For a conversion stage whose pending conversion has resolved to
    [state]: if the state has neither a payment hash nor an intra-ledger hash,
    [withoutRoute] answers with [InvalidLightningPaymentFlowStateError], and
    [withRoute] answers with an error for every route, that same one whenever
    the price ratio and the route's fee are obtained; a flow that either
    operation builds has exactly one of the two hashes, one the state has; and
    when the stage was reached by a chain of calls from an entry point of the
    builder, its state has exactly one of the two hashes. *)
Theorem terminal_hash_requirement
    (world : IoRequest -> IoResponse) (statePromise : StatePromise')
    (state : LPFBWithConversionState) :
  settle world statePromise = inl state ->
  (wc_paymentHash state = None ->
   wc_intraLedgerHash state = None ->
   settle world (LPFBWithConversion_withoutRoute (RawRoute := RawRoute) statePromise)
   = inr InvalidLightningPaymentFlowStateError
   /\ forall pubkey (rawRoute : RawRoute),
       (exists error,
           settle world (LPFBWithConversion_withRoute statePromise pubkey rawRoute)
           = inr error)
       /\ forall priceRatio btcFee,
           PriceRatio_from (wc_usdPaymentAmount state) (wc_btcPaymentAmount state)
           = inl priceRatio ->
           feeFromRawRoute LnFees rawRoute = inl btcFee ->
           settle world (LPFBWithConversion_withRoute statePromise pubkey rawRoute)
           = inr InvalidLightningPaymentFlowStateError)
  /\ (forall flow,
         settle world (LPFBWithConversion_withoutRoute statePromise) = inl flow
         \/ (exists pubkey rawRoute,
                settle world (LPFBWithConversion_withRoute statePromise pubkey rawRoute)
                = inl flow) ->
         flowHashes (wc_paymentHash state) (wc_intraLedgerHash state) flow)
  /\ (forall config (entry : Builder') ts,
         entryPoint config entry ->
         chain entry ts = Normal (LPFBWithConversion statePromise) ->
         xorb (isDefined (wc_paymentHash state)) (isDefined (wc_intraLedgerHash state))
         = true).
Proof.
  intros Hstate. split; [| split].
  - intros HpaymentHash Hintra. split.
    + rewrite (withoutRoute_settles _ _ _ Hstate).
      now apply paymentFromState_no_hash.
    + intros pubkey rawRoute.
      rewrite (withRoute_settles _ _ _ _ _ Hstate). split.
      * destruct (PriceRatio_from _ _) as [priceRatio | error];
          [| now exists error].
        destruct (feeFromRawRoute _ _) as [btcFee | error]; [| now exists error].
        exists InvalidLightningPaymentFlowStateError.
        now apply paymentFromState_no_hash.
      * intros priceRatio btcFee -> ->. now apply paymentFromState_no_hash.
  - intros flow [Hflow | (pubkey & rawRoute & Hflow)].
    + eapply withoutRoute_flow; eassumption.
    + eapply withRoute_flow; eassumption.
  - intros config entry ts Hentry Hchain.
    destruct (entryPoint_hashes _ _ Hentry)
      as (paymentHash & intraLedgerHash & Hcarries & Hone).
    pose proof (chain_carriesHashes _ _ _ _ _ Hcarries Hchain) as Hend.
    cbn in Hend. destruct (Hend _ _ Hstate) as [-> ->]. exact Hone.
Qed.

(** C9.  [withoutInvoice] returns a stage with settlement method IntraLedger,
    payment initiation method IntraLedger, [skipProbeForDestination] false,
    the generated intra-ledger hash and no payment hash; and every flow that
    [withoutRoute] or [withRoute] builds at the end of a chain of calls from
    that stage has that intra-ledger hash and no payment hash. *)
Theorem withoutInvoice_settles_intraledger
    (config : LightningPaymentFlowBuilderConfig)
    (uncheckedAmount : number) (description : string) (entropy : Entropy) :
  exists state,
    (withoutInvoice config uncheckedAmount description entropy : Builder')
    = LPFBWithInvoice state
    /\ wi_settlementMethod state = SettlementMethod.IntraLedger
    /\ wi_paymentInitiationMethod state = PaymentInitiationMethod.IntraLedger
    /\ wi_skipProbeForDestination state = false
    /\ wi_intraLedgerHash state = Some (generateIntraLedgerHash entropy)
    /\ wi_paymentHash state = None
    /\ wi_uncheckedAmount state = Some uncheckedAmount
    /\ wi_descriptionFromInvoice state = description
    /\ forall (ts : list Transition') (b : Builder') world promise
              (flow : PaymentFlow (RawRoute := RawRoute)),
        chain (LPFBWithInvoice state) ts = Normal b ->
        (withoutRoute b = Normal promise
         \/ exists pubkey rawRoute, withRoute b pubkey rawRoute = Normal promise) ->
        settle world promise = inl flow ->
        pf_intraLedgerHash flow = Some (generateIntraLedgerHash entropy)
        /\ pf_paymentHash flow = None.
Proof.
  eexists. split; [reflexivity |]. cbn.
  repeat (split; [reflexivity |]).
  intros ts b world promise flow Hchain Hterminal Hflow.
  assert (Hcarries :
            carriesHashes None (Some (generateIntraLedgerHash entropy)) b).
  { eapply chain_carriesHashes; [| exact Hchain]. cbn. auto. }
  destruct (terminal_flow_hashes _ _ _ _ _ _ Hcarries Hterminal Hflow)
    as [hash Hsome _ _ _ | hash _ Hsome _ HpaymentHash Hintra].
  - discriminate.
  - injection Hsome as <-. auto.
Qed.

(** X23.  Where the test of truthiness and the test of presence agree:
    whenever the pending unchecked amount is unset, or set to a number other
    than zero and NaN, [withRecipientWallet] answers a wallet other than the
    sender's with an error exactly when that wallet is a USD wallet and its
    USD amount and the unchecked amount are both set or both unset. *)
Lemma withRecipientWallet_presence_elsewhere
    (state : LPFBWithSenderWalletState) (recipient : RecipientWallet.t) :
  RecipientWallet.id recipient <> ws_senderWalletId state ->
  ws_uncheckedAmount state = None
  \/ (exists n, ws_uncheckedAmount state = Some n /\ Number_toBoolean n = true) ->
  (exists error,
      (LPFBWithSenderWallet_withRecipientWallet state recipient : Builder')
      = LPFBWithError error)
  <-> RecipientWallet.currency recipient = WalletCurrency.Usd
      /\ bothOrNeitherSet (RecipientWallet.usdPaymentAmount recipient)
           (ws_uncheckedAmount state) = true.
Proof.
  intros Hother Hunchecked. rewrite (withRecipientWallet_checks _ _ Hother).
  assert (Hsame : optional_toBoolean Number_toBoolean (ws_uncheckedAmount state)
                  = isDefined (ws_uncheckedAmount state)).
  { destruct Hunchecked as [-> | (n & -> & Htruthy)]; [reflexivity | exact Htruthy]. }
  rewrite Hsame. unfold bothOrNeitherSet.
  destruct (RecipientWallet.currency recipient); cbn.
  - split; [intros (error & Herror); discriminate | intros [Husd _]; discriminate].
  - destruct (Bool.eqb _ _); split.
    + auto.
    + intros _. eexists; reflexivity.
    + intros (error & Herror); discriminate.
    + intros [_ Hfalse]; discriminate.
Qed.

(** *** What every chain of calls keeps *)

Lemma withSenderWallet_shape
    (state : LPFBWithInvoiceState) (senderWallet : WalletDescriptor.t)
    (state' : LPFBWithSenderWalletState) :
  (LPFBWithInvoice_withSenderWallet state senderWallet : Completion Builder')
  = Normal (LPFBWithSenderWallet state') ->
  exists btcAmount usdAmount inputAmount btcFee usdFee,
    state' = spreadSenderWallet state senderWallet
               btcAmount usdAmount inputAmount btcFee usdFee.
Proof.
  unfold LPFBWithInvoice_withSenderWallet.
  destruct (wi_uncheckedAmount state) as [uncheckedAmount |].
  - destruct (WalletDescriptor.currency senderWallet);
      [destruct (checkedToBtcPaymentAmount uncheckedAmount)
      | destruct (checkedToUsdPaymentAmount uncheckedAmount)];
      intros [= <-]; repeat eexists.
  - destruct (wi_inputAmount state) as [inputAmount |]; [| discriminate].
    destruct (wi_btcPaymentAmount state); [| discriminate].
    destruct (BigInt_toBoolean inputAmount); [| discriminate].
    intros [= <-]; repeat eexists.
Qed.

Lemma recipientWallet_shape
    (state : LPFBWithSenderWalletState) (state' : LPFBWithRecipientWalletState) :
  (LPFBWithSenderWallet_withoutRecipientWallet state : Builder')
  = LPFBWithRecipientWallet state'
  \/ (exists recipient,
         (LPFBWithSenderWallet_withRecipientWallet state recipient : Builder')
         = LPFBWithRecipientWallet state') ->
  exists walletId walletCurrency pubkey accountId username userId usdAmount,
    state' = spreadRecipientWallet state walletId walletCurrency pubkey
               accountId username userId usdAmount.
Proof.
  intros [Hwithout | (recipient & Hwith)].
  - unfold LPFBWithSenderWallet_withoutRecipientWallet in Hwithout.
    destruct (SettlementMethod.eqb _ _); [discriminate |].
    injection Hwithout as <-. repeat eexists.
  - unfold LPFBWithSenderWallet_withRecipientWallet in Hwith.
    destruct (String.eqb _ _); [discriminate |].
    destruct (_ && _); [discriminate |].
    injection Hwith as <-. repeat eexists.
Qed.

Lemma updatedStateFromBtcPaymentAmount_settles
    state createdAt usdFromBtc btcFee btcAmount (world : IoRequest -> IoResponse) :
  settle world
    (updatedStateFromBtcPaymentAmount state createdAt usdFromBtc btcFee btcAmount)
  = match settle world (usdFromBtc btcAmount) with
    | inr error => inr error
    | inl quote =>
        match PriceRatio_from quote btcAmount with
        | inr error => inr error
        | inl priceRatio =>
            inl (spreadConversion state createdAt btcAmount quote btcFee
                   (convertFromBtcToCeil priceRatio btcFee))
        end
    end.
Proof.
  unfold updatedStateFromBtcPaymentAmount. rewrite settle_then.
  destruct (settle world (usdFromBtc btcAmount)) as [quote | error]; [| reflexivity].
  destruct (PriceRatio_from quote btcAmount); reflexivity.
Qed.

Lemma updatedStateFromUsdPaymentAmount_settles
    state createdAt btcFromUsd usdFee usdAmount (world : IoRequest -> IoResponse) :
  settle world
    (updatedStateFromUsdPaymentAmount state createdAt btcFromUsd usdFee usdAmount)
  = match settle world (btcFromUsd usdAmount) with
    | inr error => inr error
    | inl quote =>
        match PriceRatio_from usdAmount quote with
        | inr error => inr error
        | inl priceRatio =>
            inl (spreadConversion state createdAt quote usdAmount
                   (convertFromUsd priceRatio usdFee) usdFee)
        end
    end.
Proof.
  unfold updatedStateFromUsdPaymentAmount. rewrite settle_then.
  destruct (settle world (btcFromUsd usdAmount)) as [quote | error]; [| reflexivity].
  destruct (PriceRatio_from usdAmount quote); reflexivity.
Qed.

Lemma withConversion_shape
    (state : LPFBWithRecipientWalletState) (args : WithConversionArgs') now
    (statePromise : StatePromise') world (state' : LPFBWithConversionState) :
  LPFBWithRecipientWallet_withConversion state args now
  = LPFBWithConversion statePromise ->
  settle world statePromise = inl state' ->
  exists btcAmount usdAmount btcFee usdFee,
    state' = spreadConversion state now btcAmount usdAmount btcFee usdFee.
Proof.
  unfold LPFBWithRecipientWallet_withConversion.
  destruct (noConversionRequired state);
    destruct (wr_btcPaymentAmount state), (wr_btcProtocolAndBankFee state),
             (wr_usdPaymentAmount state), (wr_usdProtocolAndBankFee state);
    try destruct (wr_recipientWalletCurrency state) as [[|] |];
    try discriminate;
    intros [= <-];
    try (cbn; intros [= <-]; repeat eexists);
    first [ rewrite updatedStateFromBtcPaymentAmount_settles
          | rewrite updatedStateFromUsdPaymentAmount_settles ];
    (destruct (settle world _) as [quote | error]; [| discriminate]);
    (destruct (PriceRatio_from _ _); [| discriminate]);
    intros [= <-]; repeat eexists.
Qed.

(** A property that the three spreads keep, whatever they write after the
    spread, is kept by every call. *)
Lemma call_stageInvariant ofInvoice ofSenderWallet ofRecipientWallet ofConversion :
  (forall state senderWallet btcAmount usdAmount inputAmount btcFee usdFee,
      ofInvoice state ->
      ofSenderWallet
        (spreadSenderWallet state senderWallet
           btcAmount usdAmount inputAmount btcFee usdFee)) ->
  (forall state walletId walletCurrency pubkey accountId username userId usdAmount,
      ofSenderWallet state ->
      ofRecipientWallet
        (spreadRecipientWallet state walletId walletCurrency pubkey
           accountId username userId usdAmount)) ->
  (forall state createdAt btcAmount usdAmount btcFee usdFee,
      ofRecipientWallet state ->
      ofConversion (spreadConversion state createdAt btcAmount usdAmount btcFee usdFee)) ->
  forall (b b' : Builder') t,
    stageInvariant ofInvoice ofSenderWallet ofRecipientWallet ofConversion b ->
    call b t = Normal b' ->
    stageInvariant ofInvoice ofSenderWallet ofRecipientWallet ofConversion b'.
Proof.
  intros HsenderWallet HrecipientWallet Hconversion b b' t Hinvariant Hcall.
  destruct t as [senderWallet | | recipient | args now];
    destruct b as [state | state | state | statePromise | error];
    cbn in Hcall; try discriminate;
    try (injection Hcall as <-; exact I).
  - destruct b' as [state' | state' | state' | statePromise' | error'];
      try exact I.
    + unfold LPFBWithInvoice_withSenderWallet in Hcall.
      repeat match type of Hcall with
             | context [match ?x with _ => _ end] => destruct x
             end; discriminate.
    + destruct (withSenderWallet_shape _ _ _ Hcall)
        as (btcAmount & usdAmount & inputAmount & btcFee & usdFee & ->).
      cbn. now apply HsenderWallet.
    + unfold LPFBWithInvoice_withSenderWallet in Hcall.
      repeat match type of Hcall with
             | context [match ?x with _ => _ end] => destruct x
             end; discriminate.
    + unfold LPFBWithInvoice_withSenderWallet in Hcall.
      repeat match type of Hcall with
             | context [match ?x with _ => _ end] => destruct x
             end; discriminate.
  - injection Hcall as <-.
    destruct (LPFBWithSenderWallet_withoutRecipientWallet state) eqn:Hstage;
      try exact I;
      try (unfold LPFBWithSenderWallet_withoutRecipientWallet in Hstage;
           destruct (SettlementMethod.eqb _ _); discriminate).
    destruct (recipientWallet_shape state state0 (or_introl Hstage))
      as (? & ? & ? & ? & ? & ? & ? & ->).
    cbn. now apply HrecipientWallet.
  - injection Hcall as <-.
    destruct (LPFBWithSenderWallet_withRecipientWallet state recipient) eqn:Hstage;
      try exact I;
      try (unfold LPFBWithSenderWallet_withRecipientWallet in Hstage;
           destruct (String.eqb _ _); [discriminate |];
           destruct (_ && _); discriminate).
    destruct (recipientWallet_shape state state0
                (or_intror (ex_intro _ recipient Hstage)))
      as (? & ? & ? & ? & ? & ? & ? & ->).
    cbn. now apply HrecipientWallet.
  - injection Hcall as <-.
    destruct (LPFBWithRecipientWallet_withConversion state args now) eqn:Hstage;
      try exact I;
      try (unfold LPFBWithRecipientWallet_withConversion in Hstage;
           repeat match type of Hstage with
                  | context [match ?x with _ => _ end] => destruct x
                  end; discriminate).
    cbn. intros world state' Hsettles.
    destruct (withConversion_shape _ _ _ _ _ _ Hstage Hsettles)
      as (? & ? & ? & ? & ->).
    now apply Hconversion.
Qed.

Lemma chain_stageInvariant ofInvoice ofSenderWallet ofRecipientWallet ofConversion :
  (forall state senderWallet btcAmount usdAmount inputAmount btcFee usdFee,
      ofInvoice state ->
      ofSenderWallet
        (spreadSenderWallet state senderWallet
           btcAmount usdAmount inputAmount btcFee usdFee)) ->
  (forall state walletId walletCurrency pubkey accountId username userId usdAmount,
      ofSenderWallet state ->
      ofRecipientWallet
        (spreadRecipientWallet state walletId walletCurrency pubkey
           accountId username userId usdAmount)) ->
  (forall state createdAt btcAmount usdAmount btcFee usdFee,
      ofRecipientWallet state ->
      ofConversion (spreadConversion state createdAt btcAmount usdAmount btcFee usdFee)) ->
  forall (ts : list Transition') (b b' : Builder'),
    stageInvariant ofInvoice ofSenderWallet ofRecipientWallet ofConversion b ->
    chain b ts = Normal b' ->
    stageInvariant ofInvoice ofSenderWallet ofRecipientWallet ofConversion b'.
Proof.
  intros HsenderWallet HrecipientWallet Hconversion.
  induction ts as [| t ts IH]; intros b b' Hinvariant Hchain; cbn in Hchain.
  - injection Hchain as <-. exact Hinvariant.
  - destruct (call b t) as [b1 | message] eqn:Hcall; [| discriminate].
    eapply IH; [| exact Hchain].
    eapply call_stageInvariant; eassumption.
Qed.

(** A flow a terminal operation builds is [flowFromState] of the spread of a
    state the conversion settled to. *)
Lemma terminalCall_flow ofInvoice ofSenderWallet ofRecipientWallet ofConversion
    (b : Builder') promise world flow :
  stageInvariant ofInvoice ofSenderWallet ofRecipientWallet ofConversion b ->
  terminalCall b promise ->
  settle world promise = inl flow ->
  exists state paymentHash intraLedgerHash pubkey rawRoute btcFee usdFee,
    ofConversion state
    /\ flow = flowFromState paymentHash intraLedgerHash
                (spreadRoute state pubkey rawRoute btcFee usdFee).
Proof.
  intros Hinvariant Hterminal Hflow.
  assert (HfromState : forall state : LPFBWithRouteState,
             paymentFromState state = inl flow ->
             exists paymentHash intraLedgerHash,
               flow = flowFromState paymentHash intraLedgerHash state).
  { intros state. unfold paymentFromState.
    destruct (optional_toBoolean _ _); [intros [= <-]; eauto |].
    destruct (optional_toBoolean _ _); [intros [= <-]; eauto | discriminate]. }
  destruct b as [state | state | state | statePromise | error];
    try (destruct Hterminal as [Hcall | (pubkey & rawRoute & Hcall)];
         cbn in Hcall; discriminate).
  - cbn in Hinvariant.
    destruct (settle world statePromise) as [state | error] eqn:Hstate.
    + specialize (Hinvariant _ _ Hstate).
      destruct Hterminal as [Hcall | (pubkey & rawRoute & Hcall)];
        cbn in Hcall; injection Hcall as <-.
      * rewrite (withoutRoute_settles _ _ _ Hstate) in Hflow.
        destruct (HfromState _ Hflow) as (paymentHash & intraLedgerHash & ->).
        repeat eexists. exact Hinvariant.
      * rewrite (withRoute_settles _ _ _ _ _ Hstate) in Hflow.
        destruct (PriceRatio_from _ _); [| discriminate].
        destruct (feeFromRawRoute _ _); [| discriminate].
        destruct (HfromState _ Hflow) as (paymentHash & intraLedgerHash & ->).
        repeat eexists. exact Hinvariant.
    + destruct Hterminal as [Hcall | (pubkey & rawRoute & Hcall)];
        cbn in Hcall; injection Hcall as <-.
      * unfold LPFBWithConversion_withoutRoute in Hflow.
        rewrite settle_then, Hstate in Hflow. discriminate.
      * unfold LPFBWithConversion_withRoute in Hflow.
        rewrite settle_then, Hstate in Hflow. discriminate.
  - destruct Hterminal as [Hcall | (pubkey & rawRoute & Hcall)];
      cbn in Hcall; injection Hcall as <-; discriminate.
Qed.

(** X1.  What the entry point fixes reaches the flow: every flow built at the
    end of a chain of calls from an invoice stage has the settlement method,
    the payment initiation method, the description and the probe flag of
    that stage, and is not yet sent. *)
Theorem flow_keeps_invoice_facts
    (state : LPFBWithInvoiceState) (ts : list Transition') (b : Builder')
    promise world (flow : PaymentFlow (RawRoute := RawRoute)) :
  chain (LPFBWithInvoice state) ts = Normal b ->
  terminalCall b promise ->
  settle world promise = inl flow ->
  pf_settlementMethod flow = wi_settlementMethod state
  /\ pf_paymentInitiationMethod flow = wi_paymentInitiationMethod state
  /\ pf_descriptionFromInvoice flow = wi_descriptionFromInvoice state
  /\ pf_skipProbeForDestination flow = wi_skipProbeForDestination state
  /\ pf_paymentSentAndPending flow = false.
Proof.
  intros Hchain Hterminal Hflow.
  pose (facts := (wi_settlementMethod state, wi_paymentInitiationMethod state,
                  wi_descriptionFromInvoice state, wi_skipProbeForDestination state)).
  assert (Hinvariant :
            stageInvariant
              (fun s => (wi_settlementMethod s, wi_paymentInitiationMethod s,
                         wi_descriptionFromInvoice s, wi_skipProbeForDestination s)
                        = facts)
              (fun s => (ws_settlementMethod s, ws_paymentInitiationMethod s,
                         ws_descriptionFromInvoice s, ws_skipProbeForDestination s)
                        = facts)
              (fun s => (wr_settlementMethod s, wr_paymentInitiationMethod s,
                         wr_descriptionFromInvoice s, wr_skipProbeForDestination s)
                        = facts)
              (fun s => (wc_settlementMethod s, wc_paymentInitiationMethod s,
                         wc_descriptionFromInvoice s, wc_skipProbeForDestination s)
                        = facts)
              b).
  { eapply chain_stageInvariant; [| | | | exact Hchain]; cbn; auto. }
  destruct (terminalCall_flow _ _ _ _ _ _ _ _ Hinvariant Hterminal Hflow)
    as (state' & ? & ? & ? & ? & ? & ? & Hfacts & ->).
  cbn. injection Hfacts as -> -> -> ->. auto.
Qed.

(** X2.  The sender of a flow is the wallet given to [withSenderWallet]: every
    flow built at the end of a chain of calls that starts with
    [withSenderWallet(senderWallet)] has that wallet's id, currency and
    account id as its sender. *)
Theorem flow_keeps_sender
    (state : LPFBWithInvoiceState) (senderWallet : WalletDescriptor.t)
    (ts : list Transition') (b : Builder')
    promise world (flow : PaymentFlow (RawRoute := RawRoute)) :
  chain (LPFBWithInvoice state) (CallWithSenderWallet senderWallet :: ts) = Normal b ->
  terminalCall b promise ->
  settle world promise = inl flow ->
  pf_senderWalletId flow = WalletDescriptor.id senderWallet
  /\ pf_senderWalletCurrency flow = WalletDescriptor.currency senderWallet
  /\ pf_senderAccountId flow = WalletDescriptor.accountId senderWallet.
Proof.
  intros Hchain Hterminal Hflow.
  pose (facts := (WalletDescriptor.id senderWallet,
                  WalletDescriptor.currency senderWallet,
                  WalletDescriptor.accountId senderWallet)).
  assert (Hinvariant :
            stageInvariant
              (fun _ => False)
              (fun s => (ws_senderWalletId s, ws_senderWalletCurrency s,
                         ws_senderAccountId s) = facts)
              (fun s => (wr_senderWalletId s, wr_senderWalletCurrency s,
                         wr_senderAccountId s) = facts)
              (fun s => (wc_senderWalletId s, wc_senderWalletCurrency s,
                         wc_senderAccountId s) = facts)
              b).
  { cbn [chain call withSenderWallet] in Hchain.
    destruct (LPFBWithInvoice_withSenderWallet state senderWallet)
      as [b1 | message] eqn:Hfirst; [| discriminate].
    eapply chain_stageInvariant; [| | | | exact Hchain]; cbn; auto.
    - tauto.
    - destruct b1 as [state1 | state1 | state1 | statePromise1 | error1];
        try exact I;
        try (unfold LPFBWithInvoice_withSenderWallet in Hfirst;
             repeat match type of Hfirst with
                    | context [match ?x with _ => _ end] => destruct x
                    end; discriminate).
      destruct (withSenderWallet_shape _ _ _ Hfirst) as (? & ? & ? & ? & ? & ->).
      reflexivity. }
  destruct (terminalCall_flow _ _ _ _ _ _ _ _ Hinvariant Hterminal Hflow)
    as (state' & ? & ? & ? & ? & ? & ? & Hfacts & ->).
  cbn. injection Hfacts as -> -> ->. auto.
Qed.

(** X3.  The recipient of a flow is the wallet given to
    [withRecipientWallet]: every flow built at the end of a chain of calls
    that goes on from a sender-wallet stage with
    [withRecipientWallet(recipient)] has that wallet's id, currency, account
    id, user id, pubkey and user name as its recipient; after
    [withoutRecipientWallet()] the flow has no recipient at all. *)
Theorem flow_keeps_recipient
    (state : LPFBWithSenderWalletState) (ts : list Transition') (b : Builder')
    promise world (flow : PaymentFlow (RawRoute := RawRoute)) :
  terminalCall b promise ->
  settle world promise = inl flow ->
  (forall recipient,
      chain (LPFBWithSenderWallet state) (CallWithRecipientWallet recipient :: ts)
      = Normal b ->
      pf_recipientWalletId flow = Some (RecipientWallet.id recipient)
      /\ pf_recipientWalletCurrency flow = Some (RecipientWallet.currency recipient)
      /\ pf_recipientAccountId flow = Some (RecipientWallet.accountId recipient)
      /\ pf_recipientUserId flow = Some (RecipientWallet.userId recipient)
      /\ pf_recipientPubkey flow = RecipientWallet.pubkey recipient
      /\ pf_recipientUsername flow = RecipientWallet.username recipient)
  /\ (chain (LPFBWithSenderWallet state) (CallWithoutRecipientWallet :: ts)
      = Normal b ->
      pf_recipientWalletId flow = None
      /\ pf_recipientWalletCurrency flow = None
      /\ pf_recipientAccountId flow = None
      /\ pf_recipientUserId flow = None
      /\ pf_recipientPubkey flow = None
      /\ pf_recipientUsername flow = None).
Proof.
  intros Hterminal Hflow.
  assert (Hkept : forall (first : Builder') facts,
             match first with
             | LPFBWithRecipientWallet s =>
                 (wr_recipientWalletId s, wr_recipientWalletCurrency s,
                  wr_recipientAccountId s, wr_recipientUserId s,
                  wr_recipientPubkey s, wr_recipientUsername s) = facts
             | LPFBWithError _ => True
             | _ => False
             end ->
             chain first ts = Normal b ->
             (pf_recipientWalletId flow, pf_recipientWalletCurrency flow,
              pf_recipientAccountId flow, pf_recipientUserId flow,
              pf_recipientPubkey flow, pf_recipientUsername flow) = facts).
  { intros first facts Hfirst Hchain.
    assert (Hinvariant :
              stageInvariant (fun _ => False) (fun _ => False)
                (fun s => (wr_recipientWalletId s, wr_recipientWalletCurrency s,
                           wr_recipientAccountId s, wr_recipientUserId s,
                           wr_recipientPubkey s, wr_recipientUsername s) = facts)
                (fun s => (wc_recipientWalletId s, wc_recipientWalletCurrency s,
                           wc_recipientAccountId s, wc_recipientUserId s,
                           wc_recipientPubkey s, wc_recipientUsername s) = facts)
                b).
    { eapply chain_stageInvariant; [| | | | exact Hchain]; cbn; auto; try tauto.
      destruct first; cbn; tauto. }
    destruct (terminalCall_flow _ _ _ _ _ _ _ _ Hinvariant Hterminal Hflow)
      as (state' & ? & ? & ? & ? & ? & ? & Hfacts & ->).
    exact Hfacts. }
  split.
  - intros recipient Hchain. cbn [chain call withRecipientWallet] in Hchain.
    assert (Hfacts := Hkept (LPFBWithSenderWallet_withRecipientWallet state recipient)
                        (Some (RecipientWallet.id recipient),
                         Some (RecipientWallet.currency recipient),
                         Some (RecipientWallet.accountId recipient),
                         Some (RecipientWallet.userId recipient),
                         RecipientWallet.pubkey recipient,
                         RecipientWallet.username recipient)).
    enough (Hfirst : _) by
      (injection (Hfacts Hfirst Hchain) as H1 H2 H3 H4 H5 H6;
       repeat split; assumption).
    unfold LPFBWithSenderWallet_withRecipientWallet.
    destruct (String.eqb _ _); [exact I |].
    destruct (_ && _); [exact I | reflexivity].
  - intros Hchain. cbn [chain call withoutRecipientWallet] in Hchain.
    assert (Hfacts := Hkept (LPFBWithSenderWallet_withoutRecipientWallet state)
                        (None, None, None, None, None, None)).
    enough (Hfirst : _) by
      (injection (Hfacts Hfirst Hchain) as H1 H2 H3 H4 H5 H6;
       repeat split; assumption).
    unfold LPFBWithSenderWallet_withoutRecipientWallet.
    destruct (SettlementMethod.eqb _ _); [exact I | reflexivity].
Qed.

(** *** What [withConversion] does, case by case *)

(** The four outcomes of [withConversion]: the state as it is when everything
    is known; else a conversion from the BTC amount when it and its fee are
    known; else a conversion from the USD amount when it and its fee are known;
    else the builder state error.  A rate, when one is needed, is asked of
    [rateSourceFor]. *)
Lemma withConversion_cases
    (state : LPFBWithRecipientWalletState) (args : WithConversionArgs') (now : Z) :
  LPFBWithRecipientWallet_withConversion state args now
  = if conversionKnown state then
      match wr_btcPaymentAmount state, wr_btcProtocolAndBankFee state,
            wr_usdPaymentAmount state, wr_usdProtocolAndBankFee state with
      | Some btcAmount, Some btcFee, Some usdAmount, Some usdFee =>
          LPFBWithConversion
            (Resolved (inl (spreadConversion state now btcAmount usdAmount btcFee usdFee)))
      | _, _, _, _ =>
          LPFBWithError
            (InvalidLightningPaymentFlowBuilderStateError
               "withConversion - impossible withConversion state")
      end
    else
      match wr_btcPaymentAmount state, wr_btcProtocolAndBankFee state with
      | Some btcAmount, Some btcFee =>
          LPFBWithConversion
            (updatedStateFromBtcPaymentAmount state now
               (usdFromBtc (rateSourceFor state args)) btcFee btcAmount)
      | _, _ =>
          match wr_usdPaymentAmount state, wr_usdProtocolAndBankFee state with
          | Some usdAmount, Some usdFee =>
              LPFBWithConversion
                (updatedStateFromUsdPaymentAmount state now
                   (btcFromUsd (rateSourceFor state args)) usdFee usdAmount)
          | _, _ =>
              LPFBWithError
                (InvalidLightningPaymentFlowBuilderStateError
                   (if noConversionRequired state
                    then "withConversion - btcPaymentAmount || btcProtocolAndBankFee not set"
                    else "withConversion - impossible withConversion state"))
          end
      end.
Proof.
  unfold LPFBWithRecipientWallet_withConversion, conversionKnown, rateSourceFor.
  destruct (noConversionRequired state);
    destruct (wr_btcPaymentAmount state), (wr_btcProtocolAndBankFee state),
             (wr_usdPaymentAmount state), (wr_usdProtocolAndBankFee state);
    try destruct (wr_recipientWalletCurrency state) as [[|] |];
    try destruct (wr_senderWalletCurrency state);
    reflexivity.
Qed.

(** X4.  [withConversion] looks at one rate source only: the mid rate when no
    conversion is required, the buy hedge when a BTC wallet pays, the sell
    hedge when a USD wallet pays.  Two triples of rate sources that agree on
    that one give the same stage. *)
Theorem withConversion_uses_one_rate_source
    (state : LPFBWithRecipientWalletState) (args args' : WithConversionArgs')
    (now : Z) :
  rateSourceFor state args = rateSourceFor state args' ->
  withConversion (LPFBWithRecipientWallet state) args now
  = withConversion (LPFBWithRecipientWallet state) args' now.
Proof.
  intros Hsame. cbn [withConversion].
  rewrite (withConversion_cases state args), (withConversion_cases state args').
  rewrite Hsame. reflexivity.
Qed.

(** X5.  A conversion never changes what it converts from.  The state a
    conversion stage settles to is created at the time of the call; it has the
    BTC amount and BTC fee of the recipient-wallet state whenever that state
    knows both, and else its USD amount and USD fee (which it then knows,
    both). *)
Theorem withConversion_keeps_known_side
    (state : LPFBWithRecipientWalletState) (args : WithConversionArgs') (now : Z)
    (statePromise : StatePromise') (world : IoRequest -> IoResponse)
    (state' : LPFBWithConversionState) :
  withConversion (LPFBWithRecipientWallet state) args now
  = Normal (LPFBWithConversion statePromise) ->
  settle world statePromise = inl state' ->
  wc_createdAt state' = now
  /\ (forall btcAmount btcFee,
         wr_btcPaymentAmount state = Some btcAmount ->
         wr_btcProtocolAndBankFee state = Some btcFee ->
         wc_btcPaymentAmount state' = btcAmount
         /\ wc_btcProtocolAndBankFee state' = btcFee)
  /\ (isDefined (wr_btcPaymentAmount state)
      && isDefined (wr_btcProtocolAndBankFee state) = false ->
      wr_usdPaymentAmount state = Some (wc_usdPaymentAmount state')
      /\ wr_usdProtocolAndBankFee state = Some (wc_usdProtocolAndBankFee state')).
Proof.
  cbn [withConversion]. rewrite withConversion_cases.
  intros Hstage Hsettles.
  destruct (conversionKnown state);
    destruct (wr_btcPaymentAmount state) as [btcAmount |],
             (wr_btcProtocolAndBankFee state) as [btcFee |],
             (wr_usdPaymentAmount state) as [usdAmount |],
             (wr_usdProtocolAndBankFee state) as [usdFee |];
    try discriminate; injection Hstage as <-;
    try (cbn in Hsettles; injection Hsettles as <-);
    try (rewrite updatedStateFromBtcPaymentAmount_settles in Hsettles);
    try (rewrite updatedStateFromUsdPaymentAmount_settles in Hsettles);
    try (destruct (settle world _) as [quote | error]; [| discriminate];
         destruct (PriceRatio_from _ _); [| discriminate];
         injection Hsettles as <-);
    cbn; repeat split; try discriminate; try congruence;
    intros ? ? [= <-] [= <-]; split; reflexivity.
Qed.

(** X6.  What a conversion from the BTC amount yields.  When the state does
    not have everything and knows the BTC amount and its fee, the dealer is
    asked for the USD value of the BTC amount; with the quote [quote] and the
    price ratio of quote and BTC amount, the stage settles to the state with
    [quote] as USD amount and the BTC fee converted with ceiling as USD fee,
    an earlier USD amount or fee being replaced.  Likewise from the USD amount
    when the BTC side is not known: the quote is the BTC amount and the USD fee
    converted is the BTC fee. *)
Theorem withConversion_converts
    (state : LPFBWithRecipientWalletState) (args : WithConversionArgs') (now : Z)
    (world : IoRequest -> IoResponse) :
  conversionKnown state = false ->
  (forall btcAmount btcFee quote priceRatio,
      wr_btcPaymentAmount state = Some btcAmount ->
      wr_btcProtocolAndBankFee state = Some btcFee ->
      settle world (usdFromBtc (rateSourceFor state args) btcAmount) = inl quote ->
      PriceRatio_from quote btcAmount = inl priceRatio ->
      exists statePromise,
        withConversion (LPFBWithRecipientWallet state) args now
        = Normal (LPFBWithConversion statePromise)
        /\ settle world statePromise
           = inl (spreadConversion state now btcAmount quote btcFee
                    (convertFromBtcToCeil priceRatio btcFee)))
  /\ (forall usdAmount usdFee quote priceRatio,
         isDefined (wr_btcPaymentAmount state)
         && isDefined (wr_btcProtocolAndBankFee state) = false ->
         wr_usdPaymentAmount state = Some usdAmount ->
         wr_usdProtocolAndBankFee state = Some usdFee ->
         settle world (btcFromUsd (rateSourceFor state args) usdAmount) = inl quote ->
         PriceRatio_from usdAmount quote = inl priceRatio ->
         exists statePromise,
           withConversion (LPFBWithRecipientWallet state) args now
           = Normal (LPFBWithConversion statePromise)
           /\ settle world statePromise
              = inl (spreadConversion state now quote usdAmount
                       (convertFromUsd priceRatio usdFee) usdFee)).
Proof.
  intros Hunknown. cbn [withConversion]. rewrite withConversion_cases, Hunknown.
  split.
  - intros btcAmount btcFee quote priceRatio -> -> Hquote Hratio.
    eexists. split; [reflexivity |].
    rewrite updatedStateFromBtcPaymentAmount_settles, Hquote, Hratio. reflexivity.
  - intros usdAmount usdFee quote priceRatio Hbtc -> -> Hquote Hratio.
    destruct (wr_btcPaymentAmount state), (wr_btcProtocolAndBankFee state);
      try discriminate;
      (eexists; split; [reflexivity |];
       rewrite updatedStateFromUsdPaymentAmount_settles, Hquote, Hratio;
       reflexivity).
Qed.

(** X7.  A conversion that fails yields no state: when the dealer answers the
    one request with an error, or its quote does not make a price ratio with
    the amount converted, the conversion stage settles to that error. *)
Theorem withConversion_failure
    (state : LPFBWithRecipientWalletState) (args : WithConversionArgs') (now : Z)
    (world : IoRequest -> IoResponse) (error : ApplicationError) :
  conversionKnown state = false ->
  (forall btcAmount btcFee,
      wr_btcPaymentAmount state = Some btcAmount ->
      wr_btcProtocolAndBankFee state = Some btcFee ->
      settle world (usdFromBtc (rateSourceFor state args) btcAmount) = inr error
      \/ (exists quote,
             settle world (usdFromBtc (rateSourceFor state args) btcAmount) = inl quote
             /\ PriceRatio_from quote btcAmount = inr error) ->
      exists statePromise,
        withConversion (LPFBWithRecipientWallet state) args now
        = Normal (LPFBWithConversion statePromise)
        /\ settle world statePromise = inr error)
  /\ (forall usdAmount usdFee,
         isDefined (wr_btcPaymentAmount state)
         && isDefined (wr_btcProtocolAndBankFee state) = false ->
         wr_usdPaymentAmount state = Some usdAmount ->
         wr_usdProtocolAndBankFee state = Some usdFee ->
         settle world (btcFromUsd (rateSourceFor state args) usdAmount) = inr error
         \/ (exists quote,
                settle world (btcFromUsd (rateSourceFor state args) usdAmount)
                = inl quote
                /\ PriceRatio_from usdAmount quote = inr error) ->
         exists statePromise,
           withConversion (LPFBWithRecipientWallet state) args now
           = Normal (LPFBWithConversion statePromise)
           /\ settle world statePromise = inr error).
Proof.
  intros Hunknown. cbn [withConversion]. rewrite withConversion_cases, Hunknown.
  split.
  - intros btcAmount btcFee -> -> Hfails.
    eexists. split; [reflexivity |].
    rewrite updatedStateFromBtcPaymentAmount_settles.
    destruct Hfails as [-> | (quote & -> & ->)]; reflexivity.
  - intros usdAmount usdFee Hbtc -> -> Hfails.
    destruct (wr_btcPaymentAmount state), (wr_btcProtocolAndBankFee state);
      try discriminate;
      (eexists; split; [reflexivity |];
       rewrite updatedStateFromUsdPaymentAmount_settles;
       destruct Hfails as [-> | (quote & -> & ->)]; reflexivity).
Qed.

(** After [withSenderWallet] one side is known, and the recipient calls keep
    it known. *)
Lemma withSenderWallet_oneSideKnown
    (state : LPFBWithInvoiceState) (senderWallet : WalletDescriptor.t)
    (state' : LPFBWithSenderWalletState) :
  (LPFBWithInvoice_withSenderWallet state senderWallet : Completion Builder')
  = Normal (LPFBWithSenderWallet state') ->
  oneSideKnown (ws_btcPaymentAmount state') (ws_btcProtocolAndBankFee state')
    (ws_usdPaymentAmount state') (ws_usdProtocolAndBankFee state') = true.
Proof.
  unfold LPFBWithInvoice_withSenderWallet, oneSideKnown.
  destruct (wi_uncheckedAmount state) as [uncheckedAmount |].
  - destruct (WalletDescriptor.currency senderWallet);
      [destruct (checkedToBtcPaymentAmount uncheckedAmount)
      | destruct (checkedToUsdPaymentAmount uncheckedAmount)];
      intros [= <-]; cbn; try reflexivity.
    apply orb_true_r.
  - destruct (wi_inputAmount state) as [inputAmount |]; [| discriminate].
    destruct (wi_btcPaymentAmount state); [| discriminate].
    destruct (BigInt_toBoolean inputAmount); [| discriminate].
    intros [= <-]; reflexivity.
Qed.

Lemma recipientWallet_oneSideKnown
    (state : LPFBWithSenderWalletState) (t : Transition')
    (state' : LPFBWithRecipientWalletState) :
  oneSideKnown (ws_btcPaymentAmount state) (ws_btcProtocolAndBankFee state)
    (ws_usdPaymentAmount state) (ws_usdProtocolAndBankFee state) = true ->
  call (LPFBWithSenderWallet state) t = Normal (LPFBWithRecipientWallet state') ->
  oneSideKnown (wr_btcPaymentAmount state') (wr_btcProtocolAndBankFee state')
    (wr_usdPaymentAmount state') (wr_usdProtocolAndBankFee state') = true.
Proof.
  intros Hknown Hcall.
  destruct t as [senderWallet | | recipient | args now]; cbn in Hcall;
    try discriminate.
  - unfold LPFBWithSenderWallet_withoutRecipientWallet in Hcall.
    destruct (SettlementMethod.eqb _ _); [discriminate |].
    injection Hcall as <-. exact Hknown.
  - unfold LPFBWithSenderWallet_withRecipientWallet in Hcall.
    destruct (String.eqb _ _); [discriminate |].
    destruct (_ && _); [discriminate |].
    injection Hcall as <-. cbn. unfold oneSideKnown in *.
    destruct (RecipientWallet.usdPaymentAmount recipient); cbn; [| exact Hknown].
    destruct (ws_btcPaymentAmount state), (ws_btcProtocolAndBankFee state),
             (ws_usdPaymentAmount state), (ws_usdProtocolAndBankFee state);
      cbn in *; congruence.
Qed.

Lemma withSenderWallet_result
    (state : LPFBWithInvoiceState) (senderWallet : WalletDescriptor.t)
    (b : Builder') :
  LPFBWithInvoice_withSenderWallet state senderWallet = Normal b ->
  (exists state', b = LPFBWithSenderWallet state')
  \/ (exists error, b = LPFBWithError error).
Proof.
  unfold LPFBWithInvoice_withSenderWallet.
  repeat match goal with
         | |- context [match ?x with _ => _ end] => destruct x
         end;
    intros [= <-]; eauto.
Qed.

(** X8.  The builder state errors of [withConversion] cannot be reached
    through the builder: on every recipient-wallet stage that
    [withSenderWallet] and one further call lead to from an invoice stage,
    [withConversion] answers with a conversion stage. *)
Theorem withConversion_reaches_no_state_error
    (state : LPFBWithInvoiceState) (senderWallet : WalletDescriptor.t)
    (t : Transition') (state' : LPFBWithRecipientWalletState)
    (args : WithConversionArgs') (now : Z) :
  chain (LPFBWithInvoice state) [CallWithSenderWallet senderWallet; t]
  = Normal (LPFBWithRecipientWallet state') ->
  exists statePromise,
    withConversion (LPFBWithRecipientWallet state') args now
    = Normal (LPFBWithConversion statePromise).
Proof.
  cbn [chain call withSenderWallet]. intros Hchain.
  destruct (LPFBWithInvoice_withSenderWallet state senderWallet)
    as [b1 | message] eqn:Hfirst; [| discriminate].
  destruct (call b1 t) as [b2 | message] eqn:Hsecond; [| discriminate].
  injection Hchain as ->.
  assert (Hknown :
            oneSideKnown (wr_btcPaymentAmount state') (wr_btcProtocolAndBankFee state')
              (wr_usdPaymentAmount state') (wr_usdProtocolAndBankFee state') = true).
  { destruct (withSenderWallet_result _ _ _ Hfirst) as [(state1 & ->) | (error1 & ->)].
    - eapply recipientWallet_oneSideKnown; [| exact Hsecond].
      eapply withSenderWallet_oneSideKnown; exact Hfirst.
    - rewrite call_on_error in Hsecond. discriminate. }
  cbn [withConversion]. rewrite withConversion_cases.
  unfold conversionKnown, oneSideKnown in *.
  destruct (wr_btcPaymentAmount state'), (wr_btcProtocolAndBankFee state'),
           (wr_usdPaymentAmount state'), (wr_usdProtocolAndBankFee state');
    cbn in *; try discriminate;
    repeat match goal with
           | |- context [if ?c then _ else _] => destruct c
           end;
    eexists; reflexivity.
Qed.

(** *** The terminal operations *)

Lemma paymentFromState_shape
    (routeState : LPFBWithRouteState (RawRoute := RawRoute)) flow :
  paymentFromState routeState = inl flow ->
  exists paymentHash intraLedgerHash,
    flow = flowFromState paymentHash intraLedgerHash routeState.
Proof.
  unfold paymentFromState.
  destruct (optional_toBoolean _ _); [intros [= <-]; eauto |].
  destruct (optional_toBoolean _ _); [intros [= <-]; eauto | discriminate].
Qed.

(** X9.  What a route changes.  From a conversion state [state], the flow
    [withoutRoute] builds has the fees of the state and no route; the flow
    [withRoute] builds has the fee of the route as BTC fee, that fee converted
    with ceiling (at the price ratio of the state's two amounts) as USD fee,
    and the route and its pubkey.  Both have the amounts, the input amount
    and the creation time of the state. *)
Theorem route_decides_fees
    (world : IoRequest -> IoResponse) (statePromise : StatePromise')
    (state : LPFBWithConversionState) :
  settle world statePromise = inl state ->
  (forall flow : PaymentFlow (RawRoute := RawRoute),
      settle world (LPFBWithConversion_withoutRoute statePromise) = inl flow ->
      pf_btcProtocolAndBankFee flow = wc_btcProtocolAndBankFee state
      /\ pf_usdProtocolAndBankFee flow = wc_usdProtocolAndBankFee state
      /\ pf_outgoingNodePubkey flow = None
      /\ pf_cachedRoute flow = None
      /\ pf_btcPaymentAmount flow = wc_btcPaymentAmount state
      /\ pf_usdPaymentAmount flow = wc_usdPaymentAmount state
      /\ pf_inputAmount flow = wc_inputAmount state
      /\ pf_createdAt flow = wc_createdAt state)
  /\ (forall pubkey (rawRoute : RawRoute) flow,
         settle world (LPFBWithConversion_withRoute statePromise pubkey rawRoute)
         = inl flow ->
         exists priceRatio routeFee,
           PriceRatio_from (wc_usdPaymentAmount state) (wc_btcPaymentAmount state)
           = inl priceRatio
           /\ feeFromRawRoute LnFees rawRoute = inl routeFee
           /\ pf_btcProtocolAndBankFee flow = routeFee
           /\ pf_usdProtocolAndBankFee flow = convertFromBtcToCeil priceRatio routeFee
           /\ pf_outgoingNodePubkey flow = Some pubkey
           /\ pf_cachedRoute flow = Some rawRoute
           /\ pf_btcPaymentAmount flow = wc_btcPaymentAmount state
           /\ pf_usdPaymentAmount flow = wc_usdPaymentAmount state
           /\ pf_inputAmount flow = wc_inputAmount state
           /\ pf_createdAt flow = wc_createdAt state).
Proof.
  intros Hstate.
  pose proof paymentFromState_shape as HfromState.
  split.
  - intros flow. rewrite (withoutRoute_settles _ _ _ Hstate). intros Hflow.
    destruct (HfromState _ _ Hflow) as (? & ? & ->). cbn. repeat split.
  - intros pubkey rawRoute flow. rewrite (withRoute_settles _ _ _ _ _ Hstate).
    destruct (PriceRatio_from _ _) as [priceRatio | error]; [| discriminate].
    destruct (feeFromRawRoute _ _) as [routeFee | error]; [| discriminate].
    intros Hflow. destruct (HfromState _ _ Hflow) as (? & ? & ->).
    exists priceRatio, routeFee. cbn. repeat split.
Qed.

Lemma paymentFromState_succeeds (state : LPFBWithRouteState (RawRoute := RawRoute)) :
  (exists flow, paymentFromState state = inl flow)
  <-> optional_toBoolean String_toBoolean (rt_paymentHash state)
      || optional_toBoolean String_toBoolean (rt_intraLedgerHash state) = true.
Proof.
  unfold paymentFromState.
  destruct (optional_toBoolean String_toBoolean (rt_paymentHash state)); cbn.
  - split; eauto.
  - destruct (optional_toBoolean String_toBoolean (rt_intraLedgerHash state)).
    + split; eauto.
    + split; [intros (flow & Hflow); discriminate | discriminate].
Qed.

(** X10.  When a flow is built.  From a conversion state, [withoutRoute]
    builds a flow exactly when the state has a non-empty payment hash or
    intra-ledger hash; it checks nothing else.  [withRoute] builds one
    exactly when, besides, the two amounts of the state make a price ratio and
    the route yields a fee. *)
Theorem flow_is_built_iff
    (world : IoRequest -> IoResponse) (statePromise : StatePromise')
    (state : LPFBWithConversionState) :
  settle world statePromise = inl state ->
  ((exists flow : PaymentFlow (RawRoute := RawRoute),
       settle world (LPFBWithConversion_withoutRoute statePromise) = inl flow)
   <-> hasHash state = true)
  /\ (forall pubkey (rawRoute : RawRoute),
         (exists flow,
             settle world (LPFBWithConversion_withRoute statePromise pubkey rawRoute)
             = inl flow)
         <-> hasHash state = true
             /\ (exists priceRatio,
                    PriceRatio_from (wc_usdPaymentAmount state)
                      (wc_btcPaymentAmount state) = inl priceRatio)
             /\ (exists routeFee, feeFromRawRoute LnFees rawRoute = inl routeFee)).
Proof.
  intros Hstate. split.
  - rewrite (withoutRoute_settles _ _ _ Hstate). apply paymentFromState_succeeds.
  - intros pubkey rawRoute. rewrite (withRoute_settles _ _ _ _ _ Hstate).
    destruct (PriceRatio_from _ _) as [priceRatio | error].
    + destruct (feeFromRawRoute _ _) as [routeFee | error].
      * rewrite paymentFromState_succeeds. cbn. unfold hasHash.
        split; [intros Hhash; eauto | intros (Hhash & _); exact Hhash].
      * split; [intros (flow & Hflow); discriminate
               | intros (_ & _ & (routeFee & Hfee)); discriminate].
    + split; [intros (flow & Hflow); discriminate
             | intros (_ & (priceRatio & Hratio) & _); discriminate].
Qed.

(** X11.  The accessors of a conversion stage report what its flows carry:
    when [withoutRoute] or [withRoute] builds a flow, [btcPaymentAmount],
    [usdPaymentAmount], [skipProbeForDestination], [isIntraLedger] and
    [isTradeIntraAccount] settle to the BTC amount, the USD amount and the
    probe flag of the flow, to whether its settlement method is IntraLedger,
    and to whether its sender and recipient share the account and differ in
    currency. *)
Theorem accessors_agree_with_flow
    (world : IoRequest -> IoResponse) (statePromise : StatePromise')
    (flow : PaymentFlow (RawRoute := RawRoute)) :
  settle world (LPFBWithConversion_withoutRoute statePromise) = inl flow
  \/ (exists pubkey rawRoute,
         settle world (LPFBWithConversion_withRoute statePromise pubkey rawRoute)
         = inl flow) ->
  settle world (LPFBWithConversion_btcPaymentAmount statePromise)
  = inl (pf_btcPaymentAmount flow)
  /\ settle world (LPFBWithConversion_usdPaymentAmount statePromise)
     = inl (pf_usdPaymentAmount flow)
  /\ settle world (LPFBWithConversion_skipProbeForDestination statePromise)
     = inl (pf_skipProbeForDestination flow)
  /\ settle world (LPFBWithConversion_isIntraLedger statePromise)
     = inl (SettlementMethod.eqb (pf_settlementMethod flow) SettlementMethod.IntraLedger)
  /\ settle world (LPFBWithConversion_isTradeIntraAccount statePromise)
     = inl (match pf_recipientAccountId flow with
            | Some recipientAccountId =>
                String.eqb (pf_senderAccountId flow) recipientAccountId
            | None => false
            end
            && match pf_recipientWalletCurrency flow with
               | Some recipientWalletCurrency =>
                   negb (WalletCurrency.eqb (pf_senderWalletCurrency flow)
                           recipientWalletCurrency)
               | None => true
               end).
Proof.
  intros Hbuilt.
  assert (Hstate : exists state paymentHash intraLedgerHash pubkey rawRoute btcFee usdFee,
             settle world statePromise = inl state
             /\ flow = flowFromState paymentHash intraLedgerHash
                         (spreadRoute state pubkey rawRoute btcFee usdFee)).
  { pose proof paymentFromState_shape as HfromState.
    destruct (settle world statePromise) as [state | error] eqn:Hsettles.
    - destruct Hbuilt as [Hflow | (pubkey & rawRoute & Hflow)].
      + rewrite (withoutRoute_settles _ _ _ Hsettles) in Hflow.
        destruct (HfromState _ _ Hflow) as (? & ? & ->). repeat eexists.
      + rewrite (withRoute_settles _ _ _ _ _ Hsettles) in Hflow.
        destruct (PriceRatio_from _ _); [| discriminate].
        destruct (feeFromRawRoute _ _); [| discriminate].
        destruct (HfromState _ _ Hflow) as (? & ? & ->). repeat eexists.
    - destruct Hbuilt as [Hflow | (pubkey & rawRoute & Hflow)].
      + unfold LPFBWithConversion_withoutRoute in Hflow.
        rewrite settle_then, Hsettles in Hflow. discriminate.
      + unfold LPFBWithConversion_withRoute in Hflow.
        rewrite settle_then, Hsettles in Hflow. discriminate. }
  destruct Hstate as (state & ? & ? & ? & ? & ? & ? & Hsettles & ->).
  unfold LPFBWithConversion_btcPaymentAmount, LPFBWithConversion_usdPaymentAmount,
    LPFBWithConversion_skipProbeForDestination, LPFBWithConversion_isIntraLedger,
    LPFBWithConversion_isTradeIntraAccount, projectState.
  rewrite !settle_then, Hsettles. cbn. repeat split.
Qed.

(** *** The sender-wallet stage *)



(** X13.  A payment that settles inside the ledger needs a recipient wallet.
    On the sender-wallet stage reached from an invoice: when the destination
    of the invoice is undefined or a local node, [isIntraLedger] is true and
    [withoutRecipientWallet] answers with the builder state error; for any
    other destination [isIntraLedger] is false and [withoutRecipientWallet]
    answers with a recipient-wallet stage.  After [withoutInvoice] it always
    answers with the error. *)
Theorem withoutRecipientWallet_needs_lightning
    (config : LightningPaymentFlowBuilderConfig) (invoice : LnInvoice.t)
    (senderWallet : WalletDescriptor.t) (state : LPFBWithSenderWalletState) :
  (forall entry : Builder',
      entry = withInvoice config invoice
      \/ (exists uncheckedAmount,
             entry = withNoAmountInvoice config invoice uncheckedAmount) ->
      withSenderWallet entry senderWallet = Normal (LPFBWithSenderWallet state) ->
      (isLocalDestination config (LnInvoice.destination invoice) ->
       isIntraLedger (LPFBWithSenderWallet state : Builder') = Normal (Immediate true)
       /\ withoutRecipientWallet (LPFBWithSenderWallet state : Builder')
          = Normal
              (LPFBWithError
                 (InvalidLightningPaymentFlowBuilderStateError
                    "withoutRecipientWallet called but settlementMethod is IntraLedger")))
      /\ (~ isLocalDestination config (LnInvoice.destination invoice) ->
          isIntraLedger (LPFBWithSenderWallet state : Builder') = Normal (Immediate false)
          /\ exists state',
              withoutRecipientWallet (LPFBWithSenderWallet state : Builder')
              = Normal (LPFBWithRecipientWallet state')))
  /\ (forall uncheckedAmount description entropy,
         withSenderWallet
           (withoutInvoice config uncheckedAmount description entropy : Builder')
           senderWallet
         = Normal (LPFBWithSenderWallet state) ->
         isIntraLedger (LPFBWithSenderWallet state : Builder') = Normal (Immediate true)
         /\ withoutRecipientWallet (LPFBWithSenderWallet state : Builder')
            = Normal
                (LPFBWithError
                   (InvalidLightningPaymentFlowBuilderStateError
                      "withoutRecipientWallet called but settlementMethod is IntraLedger"))).
Proof.
  assert (Hkeeps : forall invoiceState,
             (LPFBWithInvoice_withSenderWallet invoiceState senderWallet
              : Completion Builder')
             = Normal (LPFBWithSenderWallet state) ->
             ws_settlementMethod state = wi_settlementMethod invoiceState).
  { intros invoiceState Hcall.
    destruct (withSenderWallet_shape _ _ _ Hcall) as (? & ? & ? & ? & ? & ->).
    reflexivity. }
  assert (Hintra : ws_settlementMethod state = SettlementMethod.IntraLedger ->
                   isIntraLedger (LPFBWithSenderWallet state : Builder')
                   = Normal (Immediate true)
                   /\ withoutRecipientWallet (LPFBWithSenderWallet state : Builder')
                      = Normal
                          (LPFBWithError
                             (InvalidLightningPaymentFlowBuilderStateError
                                "withoutRecipientWallet called but settlementMethod is IntraLedger"))).
  { intros Hmethod. cbn.
    unfold LPFBWithSenderWallet_isIntraLedger,
      LPFBWithSenderWallet_withoutRecipientWallet.
    rewrite Hmethod. split; reflexivity. }
  split.
  - intros entry Hentry Hcall.
    assert (Hstage : exists invoiceState,
               entry = LPFBWithInvoice invoiceState
               /\ wi_settlementMethod invoiceState
                  = settlementMethod
                      (settlementMethodFromDestination config
                         (LnInvoice.destination invoice))).
    { destruct Hentry as [-> | (uncheckedAmount & ->)].
      - unfold withInvoice in *.
        destruct (LnInvoice.paymentAmount invoice); [| discriminate].
        eexists; split; reflexivity.
      - eexists; split; reflexivity. }
    destruct Hstage as (invoiceState & -> & Hmethod).
    cbn in Hcall. pose proof (Hkeeps _ Hcall) as Hsame.
    rewrite Hmethod in Hsame. split.
    + intros Hlocal.
      rewrite (settlementMethodFromDestination_local _ _ Hlocal) in Hsame.
      apply Hintra. exact Hsame.
    + intros Hremote.
      rewrite (settlementMethodFromDestination_remote _ _ Hremote) in Hsame.
      cbn in Hsame. cbn.
      unfold LPFBWithSenderWallet_isIntraLedger,
        LPFBWithSenderWallet_withoutRecipientWallet.
      rewrite Hsame. split; [reflexivity | eexists; reflexivity].
  - intros uncheckedAmount description entropy Hcall.
    unfold withoutInvoice in Hcall. cbn [withSenderWallet] in Hcall.
    apply Hintra. rewrite (Hkeeps _ Hcall). reflexivity.
Qed.

(** X14.  Which payments are trades inside one account.  On the conversion
    stage reached from a sender-wallet stage, [isTradeIntraAccount] settles to
    false after [withoutRecipientWallet], and after
    [withRecipientWallet(recipient)] to whether the recipient wallet is on the
    sender's account and of the other currency. *)
Theorem isTradeIntraAccount_of_wallets
    (state : LPFBWithSenderWalletState) (t : Transition')
    (args : WithConversionArgs') (now : Z) (statePromise : StatePromise')
    (world : IoRequest -> IoResponse) (answer : bool) :
  chain (LPFBWithSenderWallet state) [t; CallWithConversion args now]
  = Normal (LPFBWithConversion statePromise) ->
  settle world (LPFBWithConversion_isTradeIntraAccount statePromise) = inl answer ->
  (t = CallWithoutRecipientWallet -> answer = false)
  /\ (forall recipient,
         t = CallWithRecipientWallet recipient ->
         answer
         = String.eqb (ws_senderAccountId state) (RecipientWallet.accountId recipient)
           && negb (WalletCurrency.eqb (ws_senderWalletCurrency state)
                      (RecipientWallet.currency recipient))).
Proof.
  intros Hchain Hanswer. cbn [chain] in Hchain.
  destruct (call (LPFBWithSenderWallet state) t) as [b1 | message] eqn:Hfirst;
    [| discriminate].
  destruct (call b1 (CallWithConversion args now)) as [b2 | message] eqn:Hsecond;
    [| discriminate].
  injection Hchain as ->.
  destruct b1 as [state1 | state1 | state1 | statePromise1 | error1];
    cbn in Hsecond; try discriminate.
  injection Hsecond as Hsecond.
  unfold LPFBWithConversion_isTradeIntraAccount, projectState in Hanswer.
  rewrite settle_then in Hanswer.
  destruct (settle world statePromise) as [state2 | error] eqn:Hsettles;
    [| discriminate].
  destruct (withConversion_shape _ _ _ _ _ _ Hsecond Hsettles) as (? & ? & ? & ? & ->).
  cbn in Hanswer. injection Hanswer as <-.
  split.
  - intros ->. cbn in Hfirst.
    unfold LPFBWithSenderWallet_withoutRecipientWallet in Hfirst.
    destruct (SettlementMethod.eqb _ _); [discriminate |].
    injection Hfirst as <-. reflexivity.
  - intros recipient ->. cbn in Hfirst.
    unfold LPFBWithSenderWallet_withRecipientWallet in Hfirst.
    destruct (String.eqb _ _); [discriminate |].
    destruct (_ && _); [discriminate |].
    injection Hfirst as <-. reflexivity.
Qed.

(** *** The amount that is paid *)

Lemma chain_invariant (P : Builder' -> Prop) :
  (forall b b' t, P b -> call b t = Normal b' -> P b') ->
  forall (ts : list Transition') b b', P b -> chain b ts = Normal b' -> P b'.
Proof.
  intros Hcall.
  induction ts as [| t ts IH]; intros b b' HP Hchain; cbn in Hchain.
  - injection Hchain as <-. exact HP.
  - destruct (call b t) as [b1 | message] eqn:Hstep; [| discriminate].
    eapply IH; [| exact Hchain]. eapply Hcall; eassumption.
Qed.

Lemma call_btcAmountFixed paymentAmount inputAmount (b b' : Builder') t :
  btcAmountFixed paymentAmount inputAmount b ->
  call b t = Normal b' ->
  btcAmountFixed paymentAmount inputAmount b'.
Proof.
  unfold btcAmountFixed.
  destruct b as [state | state | state | statePromise | error]; cbn;
    intros Hfixed Hcall; try contradiction.
  - destruct t; cbn in Hcall; try discriminate; injection Hcall as <-.
    + unfold LPFBWithSenderWallet_withoutRecipientWallet.
      destruct (SettlementMethod.eqb _ _); cbn; auto.
    + unfold LPFBWithSenderWallet_withRecipientWallet.
      destruct (String.eqb _ _); [exact I |].
      destruct (_ && _); cbn; auto.
  - destruct t; cbn in Hcall; try discriminate; injection Hcall as <-.
    destruct Hfixed as (Hamount & Hfee & Hinput).
    rewrite withConversion_cases, Hamount.
    destruct (wr_btcProtocolAndBankFee state) as [btcFee |]; [| discriminate].
    destruct (conversionKnown state).
    + destruct (wr_usdPaymentAmount state), (wr_usdProtocolAndBankFee state);
        try exact I.
      cbn. intros world state' [= <-]. auto.
    + cbn. intros world state'.
      rewrite updatedStateFromBtcPaymentAmount_settles.
      destruct (settle world _) as [quote | error]; [| discriminate].
      destruct (PriceRatio_from _ _); [| discriminate].
      intros [= <-]. auto.
  - destruct t; cbn in Hcall; discriminate.
  - rewrite call_on_error in Hcall. injection Hcall as <-. exact I.
Qed.

Lemma call_usdAmountFixed paymentAmount (b b' : Builder') t :
  usdAmountFixed paymentAmount b ->
  call b t = Normal b' ->
  usdAmountFixed paymentAmount b'.
Proof.
  unfold usdAmountFixed.
  destruct b as [state | state | state | statePromise | error]; cbn;
    intros Hfixed Hcall; try contradiction.
  - destruct t; cbn in Hcall; try discriminate; injection Hcall as <-.
    destruct Hfixed as (Hnone & Hamount).
    rewrite withConversion_cases.
    unfold conversionKnown. rewrite Hnone, Hamount. cbn [isDefined andb].
    destruct (wr_usdProtocolAndBankFee state) as [usdFee |]; [| exact I].
    cbn. intros world state'.
    rewrite updatedStateFromUsdPaymentAmount_settles.
    destruct (settle world _) as [quote | error]; [| discriminate].
    destruct (PriceRatio_from _ _); [| discriminate].
    intros [= <-]. reflexivity.
  - destruct t; cbn in Hcall; discriminate.
  - rewrite call_on_error in Hcall. injection Hcall as <-. exact I.
Qed.

(** The amounts of a flow, from the sender-wallet stage it was built from. *)
Lemma senderWallet_stage_amounts
    (state : LPFBWithSenderWalletState) (ts : list Transition') (b : Builder')
    promise world (flow : PaymentFlow (RawRoute := RawRoute)) :
  chain (LPFBWithSenderWallet state) ts = Normal b ->
  terminalCall b promise ->
  settle world promise = inl flow ->
  pf_inputAmount flow = ws_inputAmount state
  /\ (forall paymentAmount,
         ws_btcPaymentAmount state = Some paymentAmount ->
         isDefined (ws_btcProtocolAndBankFee state) = true ->
         pf_btcPaymentAmount flow = paymentAmount)
  /\ (forall paymentAmount,
         ws_btcPaymentAmount state = None ->
         ws_usdPaymentAmount state = Some paymentAmount ->
         pf_usdPaymentAmount flow
         = match ts with
           | CallWithRecipientWallet recipient :: _ =>
               default paymentAmount (RecipientWallet.usdPaymentAmount recipient)
           | _ => paymentAmount
           end).
Proof.
  intros Hchain Hterminal Hflow. split; [| split].
  - assert (Hinvariant :
              stageInvariant (fun _ => False)
                (fun s => ws_inputAmount s = ws_inputAmount state)
                (fun s => wr_inputAmount s = ws_inputAmount state)
                (fun s => wc_inputAmount s = ws_inputAmount state) b).
    { eapply chain_stageInvariant; [| | | | exact Hchain]; cbn; auto; tauto. }
    destruct (terminalCall_flow _ _ _ _ _ _ _ _ Hinvariant Hterminal Hflow)
      as (state' & ? & ? & ? & ? & ? & ? & Hfact & ->).
    exact Hfact.
  - intros paymentAmount Hamount Hfee.
    assert (Hinvariant : btcAmountFixed paymentAmount (ws_inputAmount state) b).
    { eapply chain_invariant; [| | exact Hchain].
      - intros ? ? ?. apply call_btcAmountFixed.
      - cbn. auto. }
    destruct (terminalCall_flow _ _ _ _ _ _ _ _ Hinvariant Hterminal Hflow)
      as (state' & ? & ? & ? & ? & ? & ? & (Hfact & _) & ->).
    exact Hfact.
  - intros paymentAmount Hnone Hamount.
    assert (Hrest : forall first rest q,
               usdAmountFixed q first ->
               chain first rest = Normal b ->
               pf_usdPaymentAmount flow = q).
    { intros first rest q Hfirst Hrest.
      assert (Hinvariant : usdAmountFixed q b).
      { eapply chain_invariant; [| exact Hfirst | exact Hrest].
        intros ? ? ?. apply call_usdAmountFixed. }
      destruct (terminalCall_flow _ _ _ _ _ _ _ _ Hinvariant Hterminal Hflow)
        as (state' & ? & ? & ? & ? & ? & ? & Hfact & ->).
      exact Hfact. }
    destruct ts as [| t rest]; cbn in Hchain.
    + injection Hchain as <-.
      destruct Hterminal as [Hcall | (pubkey & rawRoute & Hcall)];
        cbn in Hcall; discriminate.
    + destruct t as [senderWallet | | recipient | args now]; cbn in Hchain;
        try discriminate; eapply Hrest; try exact Hchain.
      * unfold LPFBWithSenderWallet_withoutRecipientWallet.
        destruct (SettlementMethod.eqb _ _); cbn; auto.
      * unfold LPFBWithSenderWallet_withRecipientWallet.
        destruct (String.eqb _ _); [exact I |].
        destruct (_ && _); [exact I |]. cbn. rewrite Hamount.
        destruct (RecipientWallet.usdPaymentAmount recipient); auto.
Qed.

(** X15.  What the payer fixed is what is paid.  On every flow built at the
    end of a chain of calls that starts with [withSenderWallet]: after
    [withInvoice] the BTC amount is the amount of the invoice; after
    [withNoAmountInvoice] or [withoutInvoice] with a BTC sender it is the
    validated unchecked amount; with a USD sender the USD amount is the
    validated unchecked amount, unless the next call is [withRecipientWallet]
    with a USD amount of its own, which then is the USD amount of the flow.
    The input amount is the amount of the invoice or the validated unchecked
    amount in each case. *)
Theorem flow_pays_fixed_amount
    (config : LightningPaymentFlowBuilderConfig) (senderWallet : WalletDescriptor.t)
    (ts : list Transition') (b : Builder')
    promise world (flow : PaymentFlow (RawRoute := RawRoute)) :
  terminalCall b promise ->
  settle world promise = inl flow ->
  (forall invoice paymentAmount,
      LnInvoice.paymentAmount invoice = Some paymentAmount ->
      chain (withInvoice config invoice) (CallWithSenderWallet senderWallet :: ts)
      = Normal b ->
      pf_btcPaymentAmount flow = paymentAmount
      /\ pf_inputAmount flow = amount paymentAmount)
  /\ (forall entry uncheckedAmount,
         (exists invoice, entry = withNoAmountInvoice config invoice uncheckedAmount)
         \/ (exists description entropy,
                entry = withoutInvoice config uncheckedAmount description entropy) ->
         chain entry (CallWithSenderWallet senderWallet :: ts) = Normal b ->
         match WalletDescriptor.currency senderWallet with
         | WalletCurrency.Btc =>
             exists paymentAmount,
               checkedToBtcPaymentAmount uncheckedAmount = inl paymentAmount
               /\ pf_btcPaymentAmount flow = paymentAmount
               /\ pf_inputAmount flow = amount paymentAmount
         | WalletCurrency.Usd =>
             exists paymentAmount,
               checkedToUsdPaymentAmount uncheckedAmount = inl paymentAmount
               /\ pf_inputAmount flow = amount paymentAmount
               /\ pf_usdPaymentAmount flow
                  = match ts with
                    | CallWithRecipientWallet recipient :: _ =>
                        default paymentAmount
                          (RecipientWallet.usdPaymentAmount recipient)
                    | _ => paymentAmount
                    end
         end).
Proof.
  intros Hterminal Hflow.
  assert (Herror : forall error, chain (LPFBWithError error) ts = Normal b -> False).
  { intros error Hchain. rewrite chain_on_error in Hchain. injection Hchain as <-.
    destruct Hterminal as [Hcall | (pubkey & rawRoute & Hcall)];
      cbn in Hcall; injection Hcall as <-; discriminate. }
  split.
  - intros invoice paymentAmount Hinvoice Hchain.
    unfold withInvoice in Hchain. rewrite Hinvoice in Hchain.
    cbn [chain call withSenderWallet] in Hchain.
    unfold LPFBWithInvoice_withSenderWallet in Hchain.
    cbn [wi_uncheckedAmount wi_inputAmount wi_btcPaymentAmount] in Hchain.
    destruct (BigInt_toBoolean (amount paymentAmount)); [| discriminate].
    destruct (senderWallet_stage_amounts _ _ _ _ _ _ Hchain Hterminal Hflow)
      as (Hinput & Hbtc & _).
    split; [exact (Hbtc paymentAmount eq_refl eq_refl) | exact Hinput].
  - intros entry uncheckedAmount Hentry Hchain.
    assert (Hunchecked : exists state,
               entry = LPFBWithInvoice state
               /\ wi_uncheckedAmount state = Some uncheckedAmount
               /\ wi_btcPaymentAmount state = None).
    { destruct Hentry as [(invoice & ->) | (description & entropy & ->)];
        eexists; repeat split. }
    destruct Hunchecked as (state & -> & Hunchecked & Hnone).
    cbn [chain call withSenderWallet] in Hchain.
    unfold LPFBWithInvoice_withSenderWallet in Hchain.
    rewrite Hunchecked in Hchain.
    destruct (WalletDescriptor.currency senderWallet).
    + destruct (checkedToBtcPaymentAmount uncheckedAmount) as [paymentAmount | error];
        [| exfalso; exact (Herror _ Hchain)].
      destruct (senderWallet_stage_amounts _ _ _ _ _ _ Hchain Hterminal Hflow)
        as (Hinput & Hbtc & _).
      exists paymentAmount.
      split; [reflexivity |].
      split; [exact (Hbtc paymentAmount eq_refl eq_refl) | exact Hinput].
    + destruct (checkedToUsdPaymentAmount uncheckedAmount) as [paymentAmount | error];
        [| exfalso; exact (Herror _ Hchain)].
      destruct (senderWallet_stage_amounts _ _ _ _ _ _ Hchain Hterminal Hflow)
        as (Hinput & _ & Husd).
      exists paymentAmount.
      split; [reflexivity |].
      split; [exact Hinput | exact (Husd paymentAmount Hnone eq_refl)].
Qed.

(** *** The probe flag *)

(** The probe is skipped exactly when a pubkey of the final hops of the
    invoice is a flagged pubkey; in particular never when no pubkey is
    flagged or the invoice has no hops. *)
Theorem skipProbeFromInvoice_iff
    (config : LightningPaymentFlowBuilderConfig) (invoice : LnInvoice.t) :
  skipProbeFromInvoice config invoice = true
  <-> exists pubkey,
        In pubkey (parseFinalHopsFromInvoice invoice)
        /\ In pubkey (flaggedPubkeys config).
Proof.
  unfold skipProbeFromInvoice. rewrite bool_decide_eq_true.
  set (hops := parseFinalHopsFromInvoice invoice).
  set (flagged := flaggedPubkeys config).
  split.
  - intros Hsize. apply size_pos_elem_of in Hsize as (pubkey & Hin).
    exists pubkey. apply elem_of_intersection in Hin as [Hhop Hflag].
    apply elem_of_list_to_set in Hhop, Hflag.
    apply list_elem_of_In in Hhop, Hflag. auto.
  - intros (pubkey & Hhop & Hflag).
    assert (Hin : pubkey ∈ (list_to_set hops : gset string) ∩ list_to_set flagged).
    { apply elem_of_intersection.
      split; apply elem_of_list_to_set, list_elem_of_In; assumption. }
    destruct (size ((list_to_set hops : gset string) ∩ list_to_set flagged))
      eqn:Hsize; [| lia].
    apply size_empty_iff in Hsize. rewrite Hsize in Hin.
    exfalso. revert Hin. apply not_elem_of_empty.
Qed.

End BuilderProperties.

(** ** The limits checker *)

Section LimitsProperties.
Import LimitsChecker.
Context (paymentAmountFromNumber :
           number -> WalletCurrency.t -> PaymentAmount + ApplicationError).
Context (Number_toString : number -> string).

Local Abbreviation request requested walletVolume :=
  {| NewLimiterCheckInputs.amount := requested;
     NewLimiterCheckInputs.walletVolume := walletVolume |}.

(** C8.  With the wallet's outgoing volume normalised to [volume] USD cents
    and the configured ceiling constructed as [limit] USD cents, each of the
    three checks returns [true] for a requested amount of exactly
    [limit - volume] and its own limits-exceeded error for a requested amount
    of [limit - volume + 1]. *)
Theorem limits_boundary
    (accountLimits : IAccountLimits) (twoFALimits : TwoFALimits)
    (priceRatio : PriceRatio) (walletVolume : TxBaseVolumeAmount)
    (volume exact over : UsdPaymentAmount) :
  volumeInUsdAmountOf priceRatio walletVolume = inl volume ->
  (forall limit,
      paymentAmountFromNumber (intraLedgerLimit accountLimits) WalletCurrency.Usd
      = inl limit ->
      amount exact = amount limit - amount volume ->
      amount over = amount limit - amount volume + 1 ->
      value_of (checkIntraledger paymentAmountFromNumber Number_toString
                  accountLimits priceRatio (request exact walletVolume))
      = inl true
      /\ value_of (checkIntraledger paymentAmountFromNumber Number_toString
                     accountLimits priceRatio (request over walletVolume))
         = inr (IntraledgerLimitsExceededError
                  ("Cannot transfer more than "
                   ++ Number_toString (intraLedgerLimit accountLimits)
                   ++ " cents in 24 hours")))
  /\ (forall limit,
         paymentAmountFromNumber (withdrawalLimit accountLimits) WalletCurrency.Usd
         = inl limit ->
         amount exact = amount limit - amount volume ->
         amount over = amount limit - amount volume + 1 ->
         value_of (checkWithdrawal paymentAmountFromNumber Number_toString
                     accountLimits priceRatio (request exact walletVolume))
         = inl true
         /\ value_of (checkWithdrawal paymentAmountFromNumber Number_toString
                        accountLimits priceRatio (request over walletVolume))
            = inr (WithdrawalLimitsExceededError
                     ("Cannot transfer more than "
                      ++ Number_toString (withdrawalLimit accountLimits)
                      ++ " cents in 24 hours")))
  /\ (forall limit,
         paymentAmountFromNumber (threshold twoFALimits) WalletCurrency.Usd
         = inl limit ->
         amount exact = amount limit - amount volume ->
         amount over = amount limit - amount volume + 1 ->
         value_of (checkTwoFA paymentAmountFromNumber
                     twoFALimits priceRatio (request exact walletVolume))
         = inl true
         /\ value_of (checkTwoFA paymentAmountFromNumber
                        twoFALimits priceRatio (request over walletVolume))
            = inr TwoFALimitsExceededError).
Proof.
  intros Hvolume.
  split; [| split]; intros limit Hlimit Hexact Hover;
    unfold checkIntraledger, checkWithdrawal, checkTwoFA;
    cbn [NewLimiterCheckInputs.amount NewLimiterCheckInputs.walletVolume];
    rewrite Hvolume, Hlimit; cbn [bind addAttributesToCurrentSpan].
  all: split.
  all: try (rewrite Hexact, Z.ltb_irrefl; reflexivity).
  all: rewrite Hover;
    replace (amount limit - amount volume <? amount limit - amount volume + 1)
      with true by (symmetry; apply Z.ltb_lt; lia);
    reflexivity.
Qed.

(** X16.  The verdict of the three checks.  With the volume normalised to
    [volume] and the ceiling constructed as [limit], a check returns [true]
    exactly when volume and requested amount together do not exceed the
    ceiling, and its own limits-exceeded error otherwise; so a request that
    passes still passes when lowered, and one that fails still fails when
    raised. *)
Theorem limits_verdict
    (accountLimits : IAccountLimits) (twoFALimits : TwoFALimits)
    (priceRatio : PriceRatio) (inputs : NewLimiterCheckInputs.t)
    (volume : UsdPaymentAmount) :
  volumeInUsdAmountOf priceRatio (NewLimiterCheckInputs.walletVolume inputs)
  = inl volume ->
  let total := amount volume + amount (NewLimiterCheckInputs.amount inputs) in
  (forall limit,
      paymentAmountFromNumber (intraLedgerLimit accountLimits) WalletCurrency.Usd
      = inl limit ->
      value_of (checkIntraledger paymentAmountFromNumber Number_toString
                  accountLimits priceRatio inputs)
      = if total <=? amount limit then inl true
        else inr (IntraledgerLimitsExceededError
                    ("Cannot transfer more than "
                     ++ Number_toString (intraLedgerLimit accountLimits)
                     ++ " cents in 24 hours")))
  /\ (forall limit,
         paymentAmountFromNumber (withdrawalLimit accountLimits) WalletCurrency.Usd
         = inl limit ->
         value_of (checkWithdrawal paymentAmountFromNumber Number_toString
                     accountLimits priceRatio inputs)
         = if total <=? amount limit then inl true
           else inr (WithdrawalLimitsExceededError
                       ("Cannot transfer more than "
                        ++ Number_toString (withdrawalLimit accountLimits)
                        ++ " cents in 24 hours")))
  /\ (forall limit,
         paymentAmountFromNumber (threshold twoFALimits) WalletCurrency.Usd
         = inl limit ->
         value_of (checkTwoFA paymentAmountFromNumber twoFALimits priceRatio inputs)
         = if total <=? amount limit then inl true
           else inr TwoFALimitsExceededError).
Proof.
  intros Hvolume total.
  assert (Hdecision : forall limit : PaymentAmount,
             (amount limit - amount volume
              <? amount (NewLimiterCheckInputs.amount inputs))
             = negb (total <=? amount limit)).
  { intros limit. subst total.
    destruct (Z.ltb_spec (amount limit - amount volume)
                (amount (NewLimiterCheckInputs.amount inputs))),
             (Z.leb_spec (amount volume + amount (NewLimiterCheckInputs.amount inputs))
                (amount limit)); simpl; lia || reflexivity. }
  split; [| split]; intros limit Hlimit;
    unfold checkIntraledger, checkWithdrawal, checkTwoFA;
    rewrite Hvolume, Hlimit; cbn [bind addAttributesToCurrentSpan];
    rewrite Hdecision; destruct (total <=? amount limit); reflexivity.
Qed.

(** X17.  What a check writes to the span.  A check that cannot normalise the
    volume, or cannot construct its ceiling, returns that error and writes
    nothing; otherwise it writes one set of attributes (volume, ceiling,
    requested amount, and its own name), whatever its verdict. *)
Theorem limits_span
    (accountLimits : IAccountLimits) (twoFALimits : TwoFALimits)
    (priceRatio : PriceRatio) (inputs : NewLimiterCheckInputs.t) :
  let intraledger :=
    checkIntraledger paymentAmountFromNumber Number_toString
      accountLimits priceRatio inputs in
  let withdrawal :=
    checkWithdrawal paymentAmountFromNumber Number_toString
      accountLimits priceRatio inputs in
  let twoFA := checkTwoFA paymentAmountFromNumber twoFALimits priceRatio inputs in
  match volumeInUsdAmountOf priceRatio (NewLimiterCheckInputs.walletVolume inputs) with
  | inr error =>
      intraledger = ([], inr error)
      /\ withdrawal = ([], inr error)
      /\ twoFA = ([], inr error)
  | inl volume =>
      match paymentAmountFromNumber (intraLedgerLimit accountLimits) WalletCurrency.Usd with
      | inr error => intraledger = ([], inr error)
      | inl limit =>
          fst intraledger
          = [spanAttributes volume limit (NewLimiterCheckInputs.amount inputs)
               "checkIntraledger"]
      end
      /\ match paymentAmountFromNumber (withdrawalLimit accountLimits) WalletCurrency.Usd with
         | inr error => withdrawal = ([], inr error)
         | inl limit =>
             fst withdrawal
             = [spanAttributes volume limit (NewLimiterCheckInputs.amount inputs)
                  "checkWithdrawal"]
         end
      /\ match paymentAmountFromNumber (threshold twoFALimits) WalletCurrency.Usd with
         | inr error => twoFA = ([], inr error)
         | inl limit =>
             fst twoFA
             = [spanAttributes volume limit (NewLimiterCheckInputs.amount inputs)
                  "checkTwoFA"]
         end
  end.
Proof.
  cbv zeta. unfold checkIntraledger, checkWithdrawal, checkTwoFA.
  destruct (volumeInUsdAmountOf _ _) as [volume | error];
    [| repeat split; reflexivity].
  repeat split.
  - destruct (paymentAmountFromNumber (intraLedgerLimit _) _); [| reflexivity].
    cbn [bind addAttributesToCurrentSpan]. destruct (_ <? _); reflexivity.
  - destruct (paymentAmountFromNumber (withdrawalLimit _) _); [| reflexivity].
    cbn [bind addAttributesToCurrentSpan]. destruct (_ <? _); reflexivity.
  - destruct (paymentAmountFromNumber (threshold _) _); [| reflexivity].
    cbn [bind addAttributesToCurrentSpan]. destruct (_ <? _); reflexivity.
Qed.

(** X18.  What a check looks at.  The price ratio is consulted for a BTC volume
    only: for a volume in USD the three checks give the same result and the
    same span attributes with any two price ratios.  The incoming volume and
    the currency tag of the requested amount are never looked at. *)
Theorem limits_inputs
    (accountLimits : IAccountLimits) (twoFALimits : TwoFALimits)
    (priceRatio priceRatio' : PriceRatio) (inputs inputs' : NewLimiterCheckInputs.t) :
  outgoingBaseAmount (NewLimiterCheckInputs.walletVolume inputs)
  = outgoingBaseAmount (NewLimiterCheckInputs.walletVolume inputs') ->
  amount (NewLimiterCheckInputs.amount inputs)
  = amount (NewLimiterCheckInputs.amount inputs') ->
  currency (outgoingBaseAmount (NewLimiterCheckInputs.walletVolume inputs))
  = WalletCurrency.Usd
  \/ priceRatio = priceRatio' ->
  checkIntraledger paymentAmountFromNumber Number_toString
    accountLimits priceRatio inputs
  = checkIntraledger paymentAmountFromNumber Number_toString
      accountLimits priceRatio' inputs'
  /\ checkWithdrawal paymentAmountFromNumber Number_toString
       accountLimits priceRatio inputs
     = checkWithdrawal paymentAmountFromNumber Number_toString
         accountLimits priceRatio' inputs'
  /\ checkTwoFA paymentAmountFromNumber twoFALimits priceRatio inputs
     = checkTwoFA paymentAmountFromNumber twoFALimits priceRatio' inputs'.
Proof.
  intros Houtgoing Hamount Hratio.
  assert (Hvolume :
            volumeInUsdAmountOf priceRatio (NewLimiterCheckInputs.walletVolume inputs)
            = volumeInUsdAmountOf priceRatio'
                (NewLimiterCheckInputs.walletVolume inputs')).
  { unfold volumeInUsdAmountOf. rewrite <- Houtgoing.
    destruct Hratio as [-> | ->]; reflexivity. }
  unfold checkIntraledger, checkWithdrawal, checkTwoFA, spanAttributes.
  rewrite Hvolume, Hamount. repeat split.
Qed.

End LimitsProperties.

(** ** The subscription resolver *)

Section MeSubscriptionProperties.
Import MeSubscription.
Context {GqlError DomainUser : Type}.
Context (SAT_PRICE_PRECISION_OFFSET : number).
Context (Math_round : number -> number).
Context (Math_pow : number -> number -> number).
Context (Number_toString : number -> string).

Local Abbreviation Source' := (Source (GqlError := GqlError)).
Local Abbreviation Context' := (Context_ (DomainUser := DomainUser)).
Local Abbreviation resolve' :=
  (resolve (GqlError := GqlError) (DomainUser := DomainUser)
     SAT_PRICE_PRECISION_OFFSET Math_round Math_pow Number_toString).

(** The object that is spread into the update, with the type the update is
    resolved to when the object does not say otherwise: the invoice before the
    transaction before the intra-ledger payment. *)
Definition publishedObject (source : Source')
    : option (string * gmap string JsValue) :=
  match invoice source with
  | Some o => Some ("LnUpdate", o)
  | None =>
      match transaction source with
      | Some o => Some ("OnChainUpdate", o)
      | None =>
          match intraLedger source with
          | Some o => Some ("IntraLedgerUpdate", o)
          | None => None
          end
      end
  end.

(** X19.  Only an authenticated subscriber is answered: with a context whose
    uid is undefined or empty [resolve] throws "Not Authenticated" whatever
    was published; with any other context it returns, and when errors were
    published (be it an empty list) it returns them and nothing else. *)
Theorem resolve_requires_authentication (source : Source') (ctx : Context') :
  (optional_toBoolean String_toBoolean (uid ctx) = false ->
   resolve' source ctx = Throw "Not Authenticated")
  /\ (optional_toBoolean String_toBoolean (uid ctx) = true ->
      (exists payload, resolve' source ctx = Normal payload)
      /\ forall sourceErrors,
          errors source = Some sourceErrors ->
          resolve' source ctx = Normal (ErrorsPayload sourceErrors)).
Proof.
  unfold resolve. split; intros ->; cbn; [reflexivity |].
  split.
  - destruct (errors source), (price source), (invoice source),
      (transaction source), (intraLedger source); eexists; reflexivity.
  - intros sourceErrors ->. reflexivity.
Qed.

(** X20.  What was published reaches the subscriber.  When [resolve] answers
    with an update that is not a price, the update is for the user of the
    context and has every key of the published object with its value; the
    only keys it may add are [resolveType], set to the type of the update when
    the object has no such key, and, for a transaction or an intra-ledger
    payment, [usdPerSat], set to the object's [displayCurrencyPerSat] when the
    object has no such key. *)
Theorem update_carries_published_object
    (source : Source') (ctx : Context') (me : option DomainUser)
    (update : gmap string JsValue) :
  resolve' source ctx = Normal (UserPayload me update) ->
  price source = None ->
  exists tag o,
    publishedObject source = Some (tag, o)
    /\ me = domainUser ctx
    /\ (forall key value, o !! key = Some value -> update !! key = Some value)
    /\ (o !! "resolveType" = None -> update !! "resolveType" = Some (JsString tag))
    /\ (tag <> "LnUpdate" ->
        o !! "usdPerSat" = None ->
        update !! "usdPerSat" = Some (get o "displayCurrencyPerSat"))
    /\ (forall key,
           o !! key = None ->
           key <> "resolveType" ->
           key <> "usdPerSat" \/ tag = "LnUpdate" ->
           update !! key = None).
Proof.
  unfold resolve, publishedObject, userPayload, spreadOver.
  destruct (negb _); [discriminate |].
  destruct (errors source); [discriminate |].
  intros Hresolve Hprice. rewrite Hprice in Hresolve.
  destruct (invoice source) as [o |];
    [| destruct (transaction source) as [o |];
       [| destruct (intraLedger source) as [o |]; [| discriminate] ] ];
    injection Hresolve as <- <-; eexists _, o;
    (split; [reflexivity |]); (split; [reflexivity |]); cbn [list_to_map foldr fst snd].
  all: split; [intros key value Hkey; now apply lookup_union_Some_l |].
  all: split; [intros Hnone; rewrite lookup_union_r by exact Hnone;
               now rewrite lookup_insert_eq |].
  all: split.
  all: try (intros Htag; exfalso; now apply Htag).
  all: try (intros _ Hnone; rewrite lookup_union_r by exact Hnone;
            rewrite lookup_insert_ne by discriminate;
            now rewrite lookup_insert_eq).
  all: intros key Hnone HresolveType HusdPerSat;
    rewrite lookup_union_r by exact Hnone;
    rewrite lookup_insert_ne by congruence.
  - apply lookup_empty.
  - destruct HusdPerSat as [HusdPerSat | Htag]; [| discriminate].
    rewrite lookup_insert_ne by congruence. apply lookup_empty.
  - destruct HusdPerSat as [HusdPerSat | Htag]; [| discriminate].
    rewrite lookup_insert_ne by congruence. apply lookup_empty.
Qed.

(** X21.  A price update is the same for every subscriber: when a price was
    published and no errors, what an authenticated subscriber gets names no
    user and depends neither on the context nor on what else was published
    with the price. *)
Theorem price_update_is_anonymous
    (source source' : Source') (ctx ctx' : Context') (published : PriceUpdate) :
  optional_toBoolean String_toBoolean (uid ctx) = true ->
  optional_toBoolean String_toBoolean (uid ctx') = true ->
  errors source = None ->
  errors source' = None ->
  price source = Some published ->
  price source' = Some published ->
  resolve' source ctx = resolve' source' ctx'
  /\ exists update,
      resolve' source ctx = Normal (UserPayload None update)
      /\ update !! "resolveType" = Some (JsString "Price")
      /\ update !! "formattedAmount"
         = Some (JsString (Number_toString (satUsdCentPrice published))).
Proof.
  intros Huid Huid' Herrors Herrors' Hprice Hprice'. unfold resolve.
  rewrite Huid, Huid', Herrors, Herrors', Hprice, Hprice'. cbn [negb].
  split; [reflexivity |].
  eexists. split; [reflexivity |]. cbn [list_to_map foldr fst snd].
  split.
  - now rewrite lookup_insert_eq.
  - now rewrite !lookup_insert_ne, lookup_insert_eq by discriminate.
Qed.

End MeSubscriptionProperties.

(** ** The properties at work on concrete payments *)

Example Number_toInteger_5000 : Number_toInteger 5000%float = Some 5000.
Proof. vm_compute. reflexivity. Qed.

Example Number_toInteger_half : Number_toInteger 0.5%float = None.
Proof. vm_compute. reflexivity. Qed.

Example Number_toInteger_negative : Number_toInteger (-3)%float = Some (-3).
Proof. vm_compute. reflexivity. Qed.

Example Number_toInteger_nan : Number_toInteger nan = None.
Proof. vm_compute. reflexivity. Qed.

Example senderStateOfNoAmountInvoice_reached :
  withSenderWallet
    (withNoAmountInvoice sampleConfig (sampleInvoice (Some "localNode1") None)
       0%float : Builder0)
    senderBtcWallet
  = Normal (LPFBWithSenderWallet (senderStateOfNoAmountInvoice 0%float 0)).
Proof. vm_compute. reflexivity. Qed.

Example usdToUsdState_reached :
  chain
    (withInvoice sampleConfig
       (sampleInvoice (Some "localNode1") (Some (sats 5000))) : Builder0)
    [CallWithSenderWallet senderUsdWallet;
     CallWithRecipientWallet
       (recipientWallet "recipientWalletId" WalletCurrency.Usd (Some (cents 100)))]
  = Normal (LPFBWithRecipientWallet usdToUsdState).
Proof. vm_compute. reflexivity. Qed.

Example lightningConversion_reached :
  lightningChain sampleRates = Normal (LPFBWithConversion lightningConversion).
Proof. vm_compute. reflexivity. Qed.

Example failedConversion_reached :
  lightningChain failingRates = Normal (LPFBWithConversion failedConversion).
Proof. vm_compute. reflexivity. Qed.

(** C1 at work: a self-payment error survives any further calls, and a dealer
    failure is what every operation of the conversion stage reports. *)
Lemma sticky_error_propagation_witness :
  chain (LPFBWithError SelfPaymentError : Builder0)
    [CallWithConversion sampleRates 0;
     CallWithSenderWallet senderBtcWallet;
     CallWithoutRecipientWallet;
     CallWithRecipientWallet (recipientWallet "w" WalletCurrency.Btc None)]
  = Normal (LPFBWithError SelfPaymentError)
  /\ withoutRoute (RawRoute := Z) (LPFBWithError SelfPaymentError : Builder0)
     = Normal (Resolved (inr SelfPaymentError))
  /\ (settle sampleWorld failedConversion
      = inr (DealerPriceServiceError "UnknownDealerPriceServiceError")
      /\ settle sampleWorld
           (LPFBWithConversion_withRoute failedConversion "remoteNode" 3)
         = inr (DealerPriceServiceError "UnknownDealerPriceServiceError")
      /\ settle sampleWorld (LPFBWithConversion_isTradeIntraAccount failedConversion)
         = inr (DealerPriceServiceError "UnknownDealerPriceServiceError")).
Proof.
  destruct (sticky_error_propagation (Imports0 := sampleImports)
              (IoRequest := string) (IoResponse := unit) SelfPaymentError)
    as (_ & _ & _ & _ & Hchain & _ & HwithoutRoute & _).
  destruct (sticky_error_propagation (Imports0 := sampleImports)
              (IoRequest := string) (IoResponse := unit)
              (DealerPriceServiceError "UnknownDealerPriceServiceError"))
    as (_ & _ & _ & _ & _ & _ & _ & _ & _ & _ & _ & _ & Hconversion).
  destruct (Hconversion sampleWorld failedConversion eq_refl)
    as (HwithRoute & _ & _ & _ & Htrade & _).
  split; [apply Hchain | split; [exact HwithoutRoute |] ].
  split; [reflexivity | split; [apply HwithRoute | exact Htrade] ].
Defined.

(** C3 at work: an invoice of a local node, and one of a node that is not. *)
Lemma settlement_resolution_witness :
  (isLocalDestination sampleConfig (Some "localNode2")
   /\ exists state,
       (withNoAmountInvoice sampleConfig (sampleInvoice (Some "localNode2") None)
          5000%float : Builder0)
       = LPFBWithInvoice state
       /\ wi_settlementMethod state = SettlementMethod.IntraLedger
       /\ wi_btcProtocolAndBankFee state = Some (sats 0)
       /\ wi_usdProtocolAndBankFee state = Some (cents 0))
  /\ (~ isLocalDestination sampleConfig (Some "remoteNode")
      /\ exists state,
          (withInvoice sampleConfig
             (sampleInvoice (Some "remoteNode") (Some (sats 5000))) : Builder0)
          = LPFBWithInvoice state
          /\ wi_settlementMethod state = SettlementMethod.Lightning
          /\ wi_btcProtocolAndBankFee state = None
          /\ wi_usdProtocolAndBankFee state = None).
Proof.
  assert (Hlocal : isLocalDestination sampleConfig (Some "localNode2"))
    by (simpl; auto).
  assert (Hremote : ~ isLocalDestination sampleConfig (Some "remoteNode"))
    by (simpl; intros [Heq | [Heq | []]]; discriminate).
  split; (split; [assumption |]).
  - destruct (settlement_resolution (Imports0 := sampleImports)
                (IoRequest := string) (IoResponse := unit) sampleConfig
                (sampleInvoice (Some "localNode2") None))
      as (_ & HnoAmount & _ & _).
    destruct (HnoAmount 5000%float) as (state & Hstage & Hif & _).
    exists state. split; [exact Hstage | exact (Hif Hlocal)].
  - destruct (settlement_resolution (Imports0 := sampleImports)
                (IoRequest := string) (IoResponse := unit) sampleConfig
                (sampleInvoice (Some "remoteNode") (Some (sats 5000))))
      as (_ & _ & (state & Hstage & _ & Helse) & _).
    exists state. split; [exact Hstage | exact (Helse Hremote)].
Defined.

(** C4 at work: an invoice for zero satoshis. *)
Lemma withSenderWallet_throws_on_zero_amount_witness :
  LnInvoice.paymentAmount (sampleInvoice (Some "remoteNode") (Some (sats 0)))
  = Some (sats 0)
  /\ amount (sats 0) = 0
  /\ withSenderWallet
       (withInvoice sampleConfig
          (sampleInvoice (Some "remoteNode") (Some (sats 0))) : Builder0)
       senderBtcWallet
     = Throw "withSenderWallet impossible".
Proof.
  split; [reflexivity | split; [reflexivity |]].
  apply (withSenderWallet_throws_on_zero_amount (Imports0 := sampleImports)
           sampleConfig (sampleInvoice (Some "remoteNode") (Some (sats 0)))
           (sats 0) senderBtcWallet); reflexivity.
Defined.

(** C5 at work: the sender's own USD wallet as recipient. *)
Lemma self_payment_rejection_witness :
  RecipientWallet.id
    (recipientWallet "senderWalletId" WalletCurrency.Usd (Some (cents 100)))
  = ws_senderWalletId (senderStateOfNoAmountInvoice 5000%float 5000)
  /\ withRecipientWallet
       (LPFBWithSenderWallet (senderStateOfNoAmountInvoice 5000%float 5000)
        : Builder0)
       (recipientWallet "senderWalletId" WalletCurrency.Usd (Some (cents 100)))
     = Normal (LPFBWithError SelfPaymentError).
Proof.
  split; [reflexivity |].
  apply (self_payment_rejection
           (senderStateOfNoAmountInvoice 5000%float 5000)
           (recipientWallet "senderWalletId" WalletCurrency.Usd (Some (cents 100)))).
  reflexivity.
Defined.

(** C6 at work: the Lightning payment above is emitted under its payment
    hash, without and with a route. *)
Lemma terminal_hash_requirement_witness :
  settle sampleWorld lightningConversion
  = inl (lightningConversionState (Some "paymentHash") None)
  /\ (forall flow : PaymentFlow (RawRoute := Z),
         settle sampleWorld (LPFBWithConversion_withoutRoute lightningConversion)
         = inl flow
         \/ (exists pubkey rawRoute,
                settle sampleWorld
                  (LPFBWithConversion_withRoute lightningConversion pubkey rawRoute)
                = inl flow) ->
         pf_paymentHash flow = Some "paymentHash" /\ pf_intraLedgerHash flow = None)
  /\ xorb (isDefined (Some "paymentHash")) (isDefined (@None IntraLedgerHash)) = true.
Proof.
  split; [reflexivity |].
  destruct (terminal_hash_requirement (Imports0 := sampleImports)
              sampleWorld lightningConversion
              (lightningConversionState (Some "paymentHash") None) eq_refl)
    as (_ & Hflow & Hreached).
  split.
  - intros flow Hbuilt.
    destruct (Hflow flow Hbuilt) as [hash Hsome _ Hpayment Hintra | hash Hnone _ _ _ _].
    + injection Hsome as <-. split; assumption.
    + discriminate.
  - apply (Hreached sampleConfig
             (withInvoice sampleConfig
                (sampleInvoice (Some "remoteNode") (Some (sats 5000))))
             [CallWithSenderWallet senderBtcWallet;
              CallWithoutRecipientWallet;
              CallWithConversion sampleRates 1660000000000]).
    + constructor.
    + reflexivity.
Defined.

(** A conversion state without any hash is not emitted. *)
Example no_hash_no_flow :
  settle sampleWorld
    (LPFBWithConversion_withoutRoute (RawRoute := Z)
       (Resolved (inl (lightningConversionState None None))))
  = inr InvalidLightningPaymentFlowStateError
  /\ settle sampleWorld
       (LPFBWithConversion_withRoute
          (Resolved (inl (lightningConversionState None None))) "remoteNode" 3)
     = inr InvalidLightningPaymentFlowStateError
  /\ settle sampleWorld
       (LPFBWithConversion_withoutRoute (RawRoute := Z)
          (Resolved (inl (lightningConversionState (Some "") (Some "")))))
     = inr InvalidLightningPaymentFlowStateError.
Proof. repeat split. Qed.

(** C7 at work: the USD-to-USD payment above needs no rate, whether the
    dealer answers or is down. *)
Lemma no_conversion_shortcut_witness :
  (noConversionRequired usdToUsdState = true
   /\ wr_btcPaymentAmount usdToUsdState = Some (sats 5000)
   /\ wr_usdPaymentAmount usdToUsdState = Some (cents 100)
   /\ wr_btcProtocolAndBankFee usdToUsdState = Some (sats 0)
   /\ wr_usdProtocolAndBankFee usdToUsdState = Some (cents 0))
  /\ withConversion (LPFBWithRecipientWallet usdToUsdState : Builder0) sampleRates 7
     = withConversion (LPFBWithRecipientWallet usdToUsdState) failingRates 7.
Proof.
  split; [repeat split |].
  apply (no_conversion_shortcut (Imports0 := sampleImports)
           usdToUsdState 7 (sats 5000) (sats 0) (cents 100) (cents 0)
           sampleRates failingRates); reflexivity.
Defined.

(** C9 at work: 5000 satoshis sent to a user name, from a BTC wallet to a BTC
    wallet. *)
Lemma withoutInvoice_settles_intraledger_witness :
  exists promise flow,
    match chain
            (withoutInvoice sampleConfig 5000%float "memo" "intraLedgerHash"
             : Builder0)
            [CallWithSenderWallet senderBtcWallet;
             CallWithRecipientWallet
               (recipientWallet "recipientWalletId" WalletCurrency.Btc None);
             CallWithConversion sampleRates 1660000000000]
    with
    | Normal b => withoutRoute (RawRoute := Z) b = Normal promise
    | Throw _ => False
    end
    /\ settle sampleWorld promise = inl flow
    /\ pf_settlementMethod flow = SettlementMethod.IntraLedger
    /\ pf_skipProbeForDestination flow = false
    /\ pf_intraLedgerHash flow = Some "intraLedgerHash"
    /\ pf_paymentHash flow = None.
Proof.
  destruct (withoutInvoice_settles_intraledger (Imports0 := sampleImports)
              (IoRequest := string) (IoResponse := unit) (RawRoute := Z)
              sampleConfig 5000%float "memo" "intraLedgerHash")
    as (state & Hstage & _ & _ & _ & _ & _ & _ & _ & Hflows).
  injection Hstage as <-.
  eexists. eexists.
  split; [vm_compute; reflexivity |].
  split; [vm_compute; reflexivity |].
  split; [reflexivity |]. split; [reflexivity |].
  eapply (Hflows
            [CallWithSenderWallet senderBtcWallet;
             CallWithRecipientWallet
               (recipientWallet "recipientWalletId" WalletCurrency.Btc None);
             CallWithConversion sampleRates 1660000000000]
            _ sampleWorld).
  - vm_compute. reflexivity.
  - left. vm_compute. reflexivity.
  - vm_compute. reflexivity.
Defined.

(** C10 at work: a USD recipient after a no-amount invoice paid with amount
    zero. *)
Lemma zero_unchecked_amount_counts_as_absent_witness :
  (ws_uncheckedAmount (senderStateOfNoAmountInvoice 0%float 0) = Some 0%float
   /\ PrimFloat.eqb 0%float 0%float = true
   /\ "recipientWalletId" <> ws_senderWalletId (senderStateOfNoAmountInvoice 0%float 0))
  /\ withRecipientWallet
       (LPFBWithSenderWallet (senderStateOfNoAmountInvoice 0%float 0) : Builder0)
       (recipientWallet "recipientWalletId" WalletCurrency.Usd None)
     = Normal
         (LPFBWithError
            (InvalidLightningPaymentFlowBuilderStateError
               "withRecipientWallet incorrect combination of usdPaymentAmount and uncheckedAmount")).
Proof.
  assert (Hother : "recipientWalletId"
                   <> ws_senderWalletId (senderStateOfNoAmountInvoice 0%float 0))
    by discriminate.
  split; [repeat split; assumption |].
  apply (zero_unchecked_amount_counts_as_absent
           (senderStateOfNoAmountInvoice 0%float 0)
           (recipientWallet "recipientWalletId" WalletCurrency.Usd None)
           0%float eq_refl eq_refl eq_refl Hother).
  reflexivity.
Defined.



(** C8 at work: with a ceiling of 100000 cents and 40000 cents spent, 60000
    cents pass each check and 60001 cents fail each. *)
Lemma limits_boundary_witness :
  LimitsChecker.volumeInUsdAmountOf (samplePriceRatio 2 100) sampleWalletVolume
  = inl (cents 40000)
  /\ (LimitsChecker.value_of
        (LimitsChecker.checkIntraledger samplePaymentAmountFromNumber
           sampleNumber_toString sampleAccountLimits (samplePriceRatio 2 100)
           (sampleRequest 60000))
      = inl true
      /\ LimitsChecker.value_of
           (LimitsChecker.checkIntraledger samplePaymentAmountFromNumber
              sampleNumber_toString sampleAccountLimits (samplePriceRatio 2 100)
              (sampleRequest 60001))
         = inr (IntraledgerLimitsExceededError
                  "Cannot transfer more than 100000 cents in 24 hours"))
  /\ (LimitsChecker.value_of
        (LimitsChecker.checkWithdrawal samplePaymentAmountFromNumber
           sampleNumber_toString sampleAccountLimits (samplePriceRatio 2 100)
           (sampleRequest 60000))
      = inl true
      /\ LimitsChecker.value_of
           (LimitsChecker.checkWithdrawal samplePaymentAmountFromNumber
              sampleNumber_toString sampleAccountLimits (samplePriceRatio 2 100)
              (sampleRequest 60001))
         = inr (WithdrawalLimitsExceededError
                  "Cannot transfer more than 100000 cents in 24 hours"))
  /\ (LimitsChecker.value_of
        (LimitsChecker.checkTwoFA samplePaymentAmountFromNumber
           sampleTwoFALimits (samplePriceRatio 2 100) (sampleRequest 60000))
      = inl true
      /\ LimitsChecker.value_of
           (LimitsChecker.checkTwoFA samplePaymentAmountFromNumber
              sampleTwoFALimits (samplePriceRatio 2 100) (sampleRequest 60001))
         = inr TwoFALimitsExceededError).
Proof.
  split; [reflexivity |].
  destruct (limits_boundary samplePaymentAmountFromNumber sampleNumber_toString
              sampleAccountLimits sampleTwoFALimits (samplePriceRatio 2 100)
              sampleWalletVolume (cents 40000) (cents 60000) (cents 60001) eq_refl)
    as (Hintraledger & Hwithdrawal & HtwoFA).
  split; [| split].
  - exact (Hintraledger (cents 100000) eq_refl eq_refl eq_refl).
  - exact (Hwithdrawal (cents 100000) eq_refl eq_refl eq_refl).
  - exact (HtwoFA (cents 100000) eq_refl eq_refl eq_refl).
Defined.

(** The attributes a check leaves on the span. *)
Example checkIntraledger_span :
  fst (LimitsChecker.checkIntraledger samplePaymentAmountFromNumber
         sampleNumber_toString sampleAccountLimits (samplePriceRatio 2 100)
         (sampleRequest 60001))
  = [ [ ("txVolume.outgoingInBase", "40000");
        ("txVolume.threshold", "100000");
        ("txVolume.amountInBase", "60001");
        ("txVolume.limitCheck", "checkIntraledger") ] ].
Proof. vm_compute. reflexivity. Qed.

(** ** Further properties at work *)

Example userNameInvoiceState_reached :
  (withoutInvoice sampleConfig 5000%float "memo" "intraLedgerHash" : Builder0)
  = LPFBWithInvoice userNameInvoiceState.
Proof. reflexivity. Qed.

(** X1 at work: the payment to a user name is emitted as an intra-ledger
    payment with its memo. *)
Lemma flow_keeps_invoice_facts_witness :
  exists (b : Builder0) promise (flow : PaymentFlow (RawRoute := Z)),
    chain (LPFBWithInvoice userNameInvoiceState) userNamePayment = Normal b
    /\ terminalCall b promise
    /\ settle sampleWorld promise = inl flow
    /\ pf_settlementMethod flow = SettlementMethod.IntraLedger
    /\ pf_paymentInitiationMethod flow = PaymentInitiationMethod.IntraLedger
    /\ pf_descriptionFromInvoice flow = "memo"
    /\ pf_skipProbeForDestination flow = false
    /\ pf_paymentSentAndPending flow = false.
Proof.
  eexists _, _, _.
  split; [vm_compute; reflexivity |].
  split; [left; vm_compute; reflexivity |].
  split; [vm_compute; reflexivity |].
  eapply (flow_keeps_invoice_facts (Imports0 := sampleImports)
            userNameInvoiceState userNamePayment _ _ sampleWorld).
  - vm_compute. reflexivity.
  - left. vm_compute. reflexivity.
  - vm_compute. reflexivity.
Defined.

(** X2 at work: its sender is the BTC wallet. *)
Lemma flow_keeps_sender_witness :
  exists (b : Builder0) promise (flow : PaymentFlow (RawRoute := Z)),
    chain (LPFBWithInvoice userNameInvoiceState) userNamePayment = Normal b
    /\ terminalCall b promise
    /\ settle sampleWorld promise = inl flow
    /\ pf_senderWalletId flow = "senderWalletId"
    /\ pf_senderWalletCurrency flow = WalletCurrency.Btc
    /\ pf_senderAccountId flow = "senderAccountId".
Proof.
  eexists _, _, _.
  split; [vm_compute; reflexivity |].
  split; [left; vm_compute; reflexivity |].
  split; [vm_compute; reflexivity |].
  eapply (flow_keeps_sender (Imports0 := sampleImports)
            userNameInvoiceState senderBtcWallet (tl userNamePayment) _ _ sampleWorld).
  - vm_compute. reflexivity.
  - left. vm_compute. reflexivity.
  - vm_compute. reflexivity.
Defined.

(** X3 at work: its recipient is the wallet given. *)
Lemma flow_keeps_recipient_witness :
  exists (b : Builder0) promise (flow : PaymentFlow (RawRoute := Z)),
    chain (LPFBWithSenderWallet (senderStateOfNoAmountInvoice 5000%float 5000))
      (tl userNamePayment) = Normal b
    /\ terminalCall b promise
    /\ settle sampleWorld promise = inl flow
    /\ pf_recipientWalletId flow = Some "recipientWalletId"
    /\ pf_recipientWalletCurrency flow = Some WalletCurrency.Btc
    /\ pf_recipientAccountId flow = Some "recipientAccountId"
    /\ pf_recipientUserId flow = Some "recipientUserId"
    /\ pf_recipientPubkey flow = None
    /\ pf_recipientUsername flow = Some "recipient".
Proof.
  eexists _, _, _.
  split; [vm_compute; reflexivity |].
  split; [left; vm_compute; reflexivity |].
  split; [vm_compute; reflexivity |].
  refine (proj1 (flow_keeps_recipient (Imports0 := sampleImports)
                   (senderStateOfNoAmountInvoice 5000%float 5000)
                   (tl (tl userNamePayment)) _ _ sampleWorld _ _ _)
            (recipientWallet "recipientWalletId" WalletCurrency.Btc None) _);
    cycle 2.
  - vm_compute. reflexivity.
  - left. vm_compute. reflexivity.
  - vm_compute. reflexivity.
Defined.

(** X4 at work: a BTC wallet paying a USD wallet inside the ledger is served
    by the buy hedge alone. *)
Lemma withConversion_uses_one_rate_source_witness :
  rateSourceFor btcToUsdState sampleRates = rateSourceFor btcToUsdState buyHedgeOnly
  /\ withConversion (LPFBWithRecipientWallet btcToUsdState : Builder0) sampleRates 7
     = withConversion (LPFBWithRecipientWallet btcToUsdState) buyHedgeOnly 7.
Proof.
  split; [reflexivity |].
  apply (withConversion_uses_one_rate_source (Imports0 := sampleImports)
           btcToUsdState sampleRates buyHedgeOnly 7).
  reflexivity.
Defined.

(** X5 at work: the 5000 satoshis and their fee come out of the conversion as
    they went in. *)
Lemma withConversion_keeps_known_side_witness :
  exists statePromise state',
    withConversion (LPFBWithRecipientWallet btcToUsdState : Builder0) sampleRates 7
    = Normal (LPFBWithConversion statePromise)
    /\ settle sampleWorld statePromise = inl state'
    /\ wc_createdAt state' = 7
    /\ wc_btcPaymentAmount state' = sats 5000
    /\ wc_btcProtocolAndBankFee state' = sats 0.
Proof.
  eexists _, _.
  split; [vm_compute; reflexivity |].
  split; [vm_compute; reflexivity |].
  destruct (withConversion_keeps_known_side (Imports0 := sampleImports)
              btcToUsdState sampleRates 7 _ sampleWorld _ eq_refl eq_refl)
    as (Hcreated & Hbtc & _).
  split; [exact Hcreated |].
  exact (Hbtc (sats 5000) (sats 0) eq_refl eq_refl).
Defined.

(** X6 at work: at 2 cents for 100 satoshis they are worth 100 cents. *)
Lemma withConversion_converts_witness :
  conversionKnown btcToUsdState = false
  /\ settle sampleWorld (usdFromBtc (rateSourceFor btcToUsdState sampleRates) (sats 5000))
     = inl (cents 100)
  /\ exists statePromise,
      withConversion (LPFBWithRecipientWallet btcToUsdState : Builder0) sampleRates 7
      = Normal (LPFBWithConversion statePromise)
      /\ settle sampleWorld statePromise
         = inl (spreadConversion btcToUsdState 7 (sats 5000) (cents 100)
                  (sats 0) (cents 0)).
Proof.
  split; [reflexivity | split; [reflexivity |] ].
  apply (proj1 (withConversion_converts (Imports0 := sampleImports)
                  btcToUsdState sampleRates 7 sampleWorld eq_refl)
           (sats 5000) (sats 0) (cents 100) (samplePriceRatio 100 5000));
    reflexivity.
Defined.

(** X7 at work: with the dealer down there is no state. *)
Lemma withConversion_failure_witness :
  conversionKnown btcToUsdState = false
  /\ settle sampleWorld
       (usdFromBtc (rateSourceFor btcToUsdState failingRates) (sats 5000))
     = inr (DealerPriceServiceError "UnknownDealerPriceServiceError")
  /\ exists statePromise,
      withConversion (LPFBWithRecipientWallet btcToUsdState : Builder0) failingRates 7
      = Normal (LPFBWithConversion statePromise)
      /\ settle sampleWorld statePromise
         = inr (DealerPriceServiceError "UnknownDealerPriceServiceError").
Proof.
  split; [reflexivity | split; [reflexivity |] ].
  apply (proj1 (withConversion_failure (Imports0 := sampleImports)
                  btcToUsdState failingRates 7 sampleWorld
                  (DealerPriceServiceError "UnknownDealerPriceServiceError") eq_refl)
           (sats 5000) (sats 0) eq_refl eq_refl).
  left. reflexivity.
Defined.

(** X8 at work: the payment to a user name reaches a conversion stage. *)
Lemma withConversion_reaches_no_state_error_witness :
  exists state',
    chain (LPFBWithInvoice userNameInvoiceState : Builder0)
      [CallWithSenderWallet senderBtcWallet;
       CallWithRecipientWallet
         (recipientWallet "recipientWalletId" WalletCurrency.Btc None)]
    = Normal (LPFBWithRecipientWallet state')
    /\ exists statePromise,
        withConversion (LPFBWithRecipientWallet state' : Builder0) failingRates 7
        = Normal (LPFBWithConversion statePromise).
Proof.
  eexists. split; [vm_compute; reflexivity |].
  eapply (withConversion_reaches_no_state_error (Imports0 := sampleImports)
            userNameInvoiceState senderBtcWallet
            (CallWithRecipientWallet
               (recipientWallet "recipientWalletId" WalletCurrency.Btc None))).
  vm_compute. reflexivity.
Defined.

(** X9 at work: a route with a fee of 3 satoshis. *)
Lemma route_decides_fees_witness :
  settle sampleWorld lightningConversion
  = inl (lightningConversionState (Some "paymentHash") None)
  /\ exists flow : PaymentFlow (RawRoute := Z),
      settle sampleWorld (LPFBWithConversion_withRoute lightningConversion "remoteNode" 3)
      = inl flow
      /\ pf_btcProtocolAndBankFee flow = sats 3
      /\ pf_usdProtocolAndBankFee flow = cents 1
      /\ pf_outgoingNodePubkey flow = Some "remoteNode"
      /\ pf_cachedRoute flow = Some 3
      /\ pf_btcPaymentAmount flow = sats 5000
      /\ pf_usdPaymentAmount flow = cents 100.
Proof.
  split; [reflexivity |].
  eexists. split; [vm_compute; reflexivity |].
  destruct (proj2 (route_decides_fees (Imports0 := sampleImports)
                     sampleWorld lightningConversion
                     (lightningConversionState (Some "paymentHash") None) eq_refl)
              "remoteNode" 3 _ eq_refl)
    as (priceRatio & routeFee & Hratio & Hfee & HbtcFee & HusdFee
        & Hpubkey & Hroute & Hbtc & Husd & _).
  injection Hratio as <-. injection Hfee as <-.
  repeat split; assumption.
Defined.

(** X10 at work: with its payment hash the Lightning payment is emitted. *)
Lemma flow_is_built_iff_witness :
  settle sampleWorld lightningConversion
  = inl (lightningConversionState (Some "paymentHash") None)
  /\ hasHash (lightningConversionState (Some "paymentHash") None) = true
  /\ exists flow : PaymentFlow (RawRoute := Z),
      settle sampleWorld (LPFBWithConversion_withoutRoute lightningConversion)
      = inl flow.
Proof.
  split; [reflexivity | split; [reflexivity |] ].
  apply (proj1 (flow_is_built_iff (Imports0 := sampleImports)
                  sampleWorld lightningConversion
                  (lightningConversionState (Some "paymentHash") None) eq_refl)).
  reflexivity.
Defined.

(** X11 at work: the accessors of the Lightning payment. *)
Lemma accessors_agree_with_flow_witness :
  exists flow : PaymentFlow (RawRoute := Z),
    settle sampleWorld (LPFBWithConversion_withoutRoute lightningConversion) = inl flow
    /\ settle sampleWorld (LPFBWithConversion_btcPaymentAmount lightningConversion)
       = inl (sats 5000)
    /\ settle sampleWorld (LPFBWithConversion_usdPaymentAmount lightningConversion)
       = inl (cents 100)
    /\ settle sampleWorld (LPFBWithConversion_isIntraLedger lightningConversion)
       = inl false
    /\ settle sampleWorld (LPFBWithConversion_isTradeIntraAccount lightningConversion)
       = inl false.
Proof.
  eexists. split; [vm_compute; reflexivity |].
  destruct (accessors_agree_with_flow (Imports0 := sampleImports)
              sampleWorld lightningConversion _ (or_introl eq_refl))
    as (Hbtc & Husd & _ & Hintra & Htrade).
  repeat split; assumption.
Defined.


(** X13 at work: the invoice of a local node cannot go without a recipient
    wallet. *)
Lemma withoutRecipientWallet_needs_lightning_witness :
  isLocalDestination sampleConfig (Some "localNode1")
  /\ withoutRecipientWallet
       (LPFBWithSenderWallet (senderStateOfNoAmountInvoice 0%float 0) : Builder0)
     = Normal
         (LPFBWithError
            (InvalidLightningPaymentFlowBuilderStateError
               "withoutRecipientWallet called but settlementMethod is IntraLedger")).
Proof.
  assert (Hlocal : isLocalDestination sampleConfig (Some "localNode1"))
    by (simpl; auto).
  split; [exact Hlocal |].
  apply (proj1 (proj1 (withoutRecipientWallet_needs_lightning
                         (Imports0 := sampleImports) (IoRequest := string)
                         (IoResponse := unit) sampleConfig
                         (sampleInvoice (Some "localNode1") None) senderBtcWallet
                         (senderStateOfNoAmountInvoice 0%float 0))
                  (withNoAmountInvoice sampleConfig
                     (sampleInvoice (Some "localNode1") None) 0%float)
                  (or_intror (ex_intro _ 0%float eq_refl))
                  ltac:(vm_compute; reflexivity))
           Hlocal).
Defined.

(** X14 at work: a payment to the wallet of another account is no trade. *)
Lemma isTradeIntraAccount_of_wallets_witness :
  exists statePromise,
    chain (LPFBWithSenderWallet (senderStateOfNoAmountInvoice 5000%float 5000) : Builder0)
      [CallWithRecipientWallet
         (recipientWallet "recipientWalletId" WalletCurrency.Usd None);
       CallWithConversion sampleRates 7]
    = Normal (LPFBWithConversion statePromise)
    /\ settle sampleWorld (LPFBWithConversion_isTradeIntraAccount statePromise)
       = inl false.
Proof.
  eexists. split; [vm_compute; reflexivity |].
  assert (Hanswer : exists answer,
             settle sampleWorld
               (LPFBWithConversion_isTradeIntraAccount
                  (updatedStateFromBtcPaymentAmount
                     (IoRequest := string) (IoResponse := unit)
                     (spreadRecipientWallet
                        (senderStateOfNoAmountInvoice 5000%float 5000)
                        (Some "recipientWalletId") (Some WalletCurrency.Usd) None
                        (Some "recipientAccountId") (Some "recipient")
                        (Some "recipientUserId") None)
                     7 (usdFromBtc sampleRateSource) (sats 0) (sats 5000)))
             = inl answer)
    by (eexists; vm_compute; reflexivity).
  destruct Hanswer as (answer & Hanswer).
  pose proof (proj2 (isTradeIntraAccount_of_wallets (Imports0 := sampleImports)
                       (senderStateOfNoAmountInvoice 5000%float 5000)
                       (CallWithRecipientWallet
                          (recipientWallet "recipientWalletId" WalletCurrency.Usd None))
                       sampleRates 7 _ sampleWorld answer eq_refl Hanswer)
                (recipientWallet "recipientWalletId" WalletCurrency.Usd None) eq_refl)
    as Hvalue.
  vm_compute in Hvalue. subst answer. vm_compute. reflexivity.
Defined.

(** X15 at work: the Lightning payment pays the 5000 satoshis of its
    invoice. *)
Lemma flow_pays_fixed_amount_witness :
  exists flow : PaymentFlow (RawRoute := Z),
    lightningChain sampleRates = Normal (LPFBWithConversion lightningConversion)
    /\ settle sampleWorld (LPFBWithConversion_withoutRoute lightningConversion)
       = inl flow
    /\ pf_btcPaymentAmount flow = sats 5000
    /\ pf_inputAmount flow = 5000.
Proof.
  eexists.
  split; [reflexivity |].
  split; [vm_compute; reflexivity |].
  refine (proj1 (flow_pays_fixed_amount (Imports0 := sampleImports)
                   sampleConfig senderBtcWallet
                   [CallWithoutRecipientWallet;
                    CallWithConversion sampleRates 1660000000000]
                   (LPFBWithConversion lightningConversion)
                   (LPFBWithConversion_withoutRoute lightningConversion)
                   sampleWorld _ (or_introl eq_refl) _)
            (sampleInvoice (Some "remoteNode") (Some (sats 5000))) (sats 5000)
            eq_refl _).
  - vm_compute. reflexivity.
  - reflexivity.
Defined.

(** The probe flag at work: a flagged hop, and none. *)
Example skipProbeFromInvoice_flagged :
  skipProbeFromInvoice (H := hopImports) sampleConfig
    {| LnInvoice.destination := None;
       LnInvoice.paymentHash := "paymentHash";
       LnInvoice.paymentAmount := None;
       LnInvoice.description := "memo";
       LnInvoice.paymentRequest := "flaggedNode" |}
  = true
  /\ skipProbeFromInvoice (H := hopImports) sampleConfig (sampleInvoice None None)
     = false.
Proof. split; vm_compute; reflexivity. Qed.

(** X22 at work: an invoice for 5000 satoshis. *)
Lemma withSenderWallet_returns_elsewhere_witness :
  LnInvoice.paymentAmount (sampleInvoice (Some "remoteNode") (Some (sats 5000)))
  = Some (sats 5000)
  /\ amount (sats 5000) <> 0
  /\ exists b : Builder0,
      withSenderWallet
        (withInvoice sampleConfig (sampleInvoice (Some "remoteNode") (Some (sats 5000))))
        senderBtcWallet
      = Normal b.
Proof.
  assert (Hnonzero : amount (sats 5000) <> 0) by discriminate.
  split; [reflexivity | split; [exact Hnonzero |] ].
  destruct (withSenderWallet_returns_elsewhere (Imports0 := sampleImports)
              (IoRequest := string) (IoResponse := unit) sampleConfig
              (sampleInvoice (Some "remoteNode") (Some (sats 5000))) senderBtcWallet)
    as (_ & _ & Hamount & _).
  exact (Hamount (sats 5000) eq_refl Hnonzero).
Defined.

(** X23 at work: a USD recipient after a no-amount invoice paid with 5000. *)
Lemma withRecipientWallet_presence_elsewhere_witness :
  ("recipientWalletId"
   <> ws_senderWalletId (senderStateOfNoAmountInvoice 5000%float 5000)
   /\ ws_uncheckedAmount (senderStateOfNoAmountInvoice 5000%float 5000)
      = Some 5000%float
   /\ Number_toBoolean 5000%float = true)
  /\ exists error,
      (LPFBWithSenderWallet_withRecipientWallet
         (senderStateOfNoAmountInvoice 5000%float 5000)
         (recipientWallet "recipientWalletId" WalletCurrency.Usd (Some (cents 100)))
       : Builder0)
      = LPFBWithError error.
Proof.
  assert (Hother : "recipientWalletId"
                   <> ws_senderWalletId (senderStateOfNoAmountInvoice 5000%float 5000))
    by discriminate.
  split; [repeat split; [exact Hother] |].
  apply (proj2 (withRecipientWallet_presence_elsewhere
                  (senderStateOfNoAmountInvoice 5000%float 5000)
                  (recipientWallet "recipientWalletId" WalletCurrency.Usd
                     (Some (cents 100)))
                  Hother
                  (or_intror (ex_intro _ 5000%float (conj eq_refl eq_refl))))).
  split; reflexivity.
Defined.

(** X16 at work: with 40000 cents spent, 60001 cents more exceed each ceiling
    of 100000 cents. *)
Lemma limits_verdict_witness :
  LimitsChecker.volumeInUsdAmountOf (samplePriceRatio 2 100) sampleWalletVolume
  = inl (cents 40000)
  /\ LimitsChecker.value_of
       (LimitsChecker.checkIntraledger samplePaymentAmountFromNumber
          sampleNumber_toString sampleAccountLimits (samplePriceRatio 2 100)
          (sampleRequest 60001))
     = inr (IntraledgerLimitsExceededError
              "Cannot transfer more than 100000 cents in 24 hours")
  /\ LimitsChecker.value_of
       (LimitsChecker.checkWithdrawal samplePaymentAmountFromNumber
          sampleNumber_toString sampleAccountLimits (samplePriceRatio 2 100)
          (sampleRequest 60001))
     = inr (WithdrawalLimitsExceededError
              "Cannot transfer more than 100000 cents in 24 hours")
  /\ LimitsChecker.value_of
       (LimitsChecker.checkTwoFA samplePaymentAmountFromNumber
          sampleTwoFALimits (samplePriceRatio 2 100) (sampleRequest 60001))
     = inr TwoFALimitsExceededError.
Proof.
  split; [reflexivity |].
  destruct (limits_verdict samplePaymentAmountFromNumber sampleNumber_toString
              sampleAccountLimits sampleTwoFALimits (samplePriceRatio 2 100)
              (sampleRequest 60001) (cents 40000) eq_refl)
    as (Hintraledger & Hwithdrawal & HtwoFA).
  split; [| split].
  - exact (Hintraledger (cents 100000) eq_refl).
  - exact (Hwithdrawal (cents 100000) eq_refl).
  - exact (HtwoFA (cents 100000) eq_refl).
Defined.

(** X18 at work: for that wallet the price, the incoming volume and the
    currency tag of the request make no difference. *)
Lemma limits_inputs_witness :
  LimitsChecker.checkIntraledger samplePaymentAmountFromNumber
    sampleNumber_toString sampleAccountLimits (samplePriceRatio 2 100)
    {| LimitsChecker.NewLimiterCheckInputs.amount := cents 60000;
       LimitsChecker.NewLimiterCheckInputs.walletVolume := usdWalletVolume 0 |}
  = LimitsChecker.checkIntraledger samplePaymentAmountFromNumber
      sampleNumber_toString sampleAccountLimits (samplePriceRatio 3 100)
      {| LimitsChecker.NewLimiterCheckInputs.amount := sats 60000;
         LimitsChecker.NewLimiterCheckInputs.walletVolume := usdWalletVolume 7 |}
  /\ LimitsChecker.checkWithdrawal samplePaymentAmountFromNumber
       sampleNumber_toString sampleAccountLimits (samplePriceRatio 2 100)
       {| LimitsChecker.NewLimiterCheckInputs.amount := cents 60000;
          LimitsChecker.NewLimiterCheckInputs.walletVolume := usdWalletVolume 0 |}
     = LimitsChecker.checkWithdrawal samplePaymentAmountFromNumber
         sampleNumber_toString sampleAccountLimits (samplePriceRatio 3 100)
         {| LimitsChecker.NewLimiterCheckInputs.amount := sats 60000;
            LimitsChecker.NewLimiterCheckInputs.walletVolume := usdWalletVolume 7 |}
  /\ LimitsChecker.checkTwoFA samplePaymentAmountFromNumber
       sampleTwoFALimits (samplePriceRatio 2 100)
       {| LimitsChecker.NewLimiterCheckInputs.amount := cents 60000;
          LimitsChecker.NewLimiterCheckInputs.walletVolume := usdWalletVolume 0 |}
     = LimitsChecker.checkTwoFA samplePaymentAmountFromNumber
         sampleTwoFALimits (samplePriceRatio 3 100)
         {| LimitsChecker.NewLimiterCheckInputs.amount := sats 60000;
            LimitsChecker.NewLimiterCheckInputs.walletVolume := usdWalletVolume 7 |}.
Proof.
  apply (limits_inputs samplePaymentAmountFromNumber sampleNumber_toString
           sampleAccountLimits sampleTwoFALimits
           (samplePriceRatio 2 100) (samplePriceRatio 3 100)
           {| LimitsChecker.NewLimiterCheckInputs.amount := cents 60000;
              LimitsChecker.NewLimiterCheckInputs.walletVolume := usdWalletVolume 0 |}
           {| LimitsChecker.NewLimiterCheckInputs.amount := sats 60000;
              LimitsChecker.NewLimiterCheckInputs.walletVolume := usdWalletVolume 7 |}
           eq_refl eq_refl (or_introl eq_refl)).
Defined.

(** X19 at work: the empty uid is turned away. *)
Lemma resolve_requires_authentication_witness :
  sampleResolve (sampleSource None (Some publishedInvoice) None) (sampleContext (Some ""))
  = Throw "Not Authenticated".
Proof.
  apply (proj1 (resolve_requires_authentication 12%float (fun x => x) (fun x _ => x)
                  sampleNumber_toString
                  (sampleSource None (Some publishedInvoice) None)
                  (sampleContext (Some "")))).
  reflexivity.
Defined.

(** X20 at work: a published transaction that names its own type. *)
Lemma update_carries_published_object_witness :
  exists update,
    sampleResolve (sampleSource None None (Some publishedTransaction))
      (sampleContext (Some "uid"))
    = Normal (MeSubscription.UserPayload (Some "domainUser") update)
    /\ update !! "txHash" = Some (MeSubscription.JsString "txHash")
    /\ update !! "resolveType" = Some (MeSubscription.JsString "Custom")
    /\ update !! "usdPerSat" = Some (MeSubscription.JsNumber 0.25%float)
    /\ update !! "paymentHash" = None.
Proof.
  eexists. split; [reflexivity |].
  destruct (update_carries_published_object 12%float (fun x => x) (fun x _ => x)
              sampleNumber_toString
              (sampleSource None None (Some publishedTransaction))
              (sampleContext (Some "uid")) _ _ eq_refl eq_refl)
    as (tag & o & Hpublished & _ & Hkeys & _ & HusdPerSat & Hothers).
  injection Hpublished as <- <-.
  split; [| split; [| split] ].
  - apply Hkeys. vm_compute. reflexivity.
  - apply Hkeys. vm_compute. reflexivity.
  - apply HusdPerSat; [discriminate | vm_compute; reflexivity].
  - apply Hothers; [vm_compute; reflexivity | discriminate | left; discriminate].
Defined.

(** X21 at work: two subscribers, one of them with an invoice published beside
    the price. *)
Lemma price_update_is_anonymous_witness :
  sampleResolve
    (sampleSource (Some {| MeSubscription.satUsdCentPrice := 0.25%float |}) None None)
    (sampleContext (Some "uid"))
  = sampleResolve
      (sampleSource (Some {| MeSubscription.satUsdCentPrice := 0.25%float |})
         (Some publishedInvoice) None)
      (sampleContext (Some "other")).
Proof.
  apply (proj1 (price_update_is_anonymous 12%float (fun x => x) (fun x _ => x)
                  sampleNumber_toString
                  (sampleSource (Some {| MeSubscription.satUsdCentPrice := 0.25%float |})
                     None None)
                  (sampleSource (Some {| MeSubscription.satUsdCentPrice := 0.25%float |})
                     (Some publishedInvoice) None)
                  (sampleContext (Some "uid")) (sampleContext (Some "other"))
                  {| MeSubscription.satUsdCentPrice := 0.25%float |}
                  eq_refl eq_refl eq_refl eq_refl eq_refl eq_refl)).
Defined.
